(** * newd / netcfgd: kernel-message decoding, route encoding, IPC dispatch

    A shallow embedding of the parts of [kroute.c], [netcfgd_v4.c] and
    [newd.c] that decode routing-socket proposals, encode route
    requests, react to channel events and merge configurations, followed
    by the properties established about them.

    Conventions.
    - C integers are [Z]; every place where the C type truncates is
      written out ([wrap], [size_add], [u_short_add]).
    - Memory is a map from addresses to bytes.  Addresses are relative to
      the first byte of the receive buffer [buf] of [kr_dispatch_msg]; a
      pointer is a [Z], a pointer that may be [NULL] is an [option Z].
    - Calls that leave the program (logging, libevent, imsg, the kernel)
      are recorded as [event]s of a trace, in program order.  Every byte
      fetched from memory is recorded as well, so that statements about
      what the code reads can be made. *)

From Stdlib Require Import ZArith Lia.
From Stdlib.Strings Require Import Byte.
From stdpp Require Import base tactics option list strings gmap.

Local Open Scope Z_scope.

(** ** Machine integers and bytes *)

Definition wrap (bits x : Z) : Z := x mod 2 ^ bits.

Definition signed (bits x : Z) : Z :=
  let y := wrap bits x in
  if y <? 2 ^ (bits - 1) then y else y - 2 ^ bits.

Definition byte_val (b : byte) : Z := Z.of_N (Byte.to_N b).

Definition byte_of_Z (z : Z) : byte :=
  match Byte.of_N (Z.to_N (wrap 8 z)) with
  | Some b => b
  | None => x00
  end.

Definition sizeof_u_short : Z := 2.

(** [u_short] addition, as in [rtm.rtm_msglen += n]. *)
Definition u_short_add (a b : Z) : Z := wrap 16 (a + b).

(** ** Memory *)

Definition memory := Z → byte.

Definition mem_of_bytes (l : list byte) : memory :=
  λ a, if a <? 0 then x00 else default x00 (l !! Z.to_nat a).

Definition mem_of_list (l : list Z) : memory :=
  mem_of_bytes (byte_of_Z <$> l).

Definition peek8 (m : memory) (a : Z) : Z := byte_val (m a).

Definition peek_bytes (m : memory) (a : Z) (n : nat) : list byte :=
  (λ k : nat, m (a + Z.of_nat k)) <$> seq 0 n.

(** Multi-byte fields are stored in the byte order of the machine. *)
Definition peek16 (big_endian : bool) (m : memory) (a : Z) : Z :=
  if big_endian
  then peek8 m a * 256 + peek8 m (a + 1)
  else peek8 m a + peek8 m (a + 1) * 256.

Definition peek32 (big_endian : bool) (m : memory) (a : Z) : Z :=
  if big_endian
  then peek16 true m a * 65536 + peek16 true m (a + 2)
  else peek16 false m a + peek16 false m (a + 2) * 65536.

Definition footprint (a : Z) (n : nat) : list Z :=
  (λ k : nat, a + Z.of_nat k) <$> seq 0 n.

(** ** Constants of the system headers

    The code is written for OpenBSD; the values below are those of
    <sys/socket.h>, <sys/errno.h>, <event.h> and <net/route.h> there. *)

Definition AF_INET : Z := 2.
Definition AF_INET6 : Z := 24.
Definition EINTR : Z := 4.
Definition EAGAIN : Z := 35.
Definition EV_READ : Z := 2.
Definition EV_WRITE : Z := 4.

Definition RTM_VERSION : Z := 5.
Definition RTM_ADD : Z := 1.
Definition RTM_DELETE : Z := 2.
Definition RTP_NONE : Z := 0.
Definition RTV_MTU : Z := 1.

Definition RTAX_DST : nat := 0.
Definition RTAX_GATEWAY : nat := 1.
Definition RTAX_NETMASK : nat := 2.
Definition RTAX_IFA : nat := 5.

Definition RTA_DST : Z := 1.
Definition RTA_GATEWAY : Z := 2.
Definition RTA_NETMASK : Z := 4.
Definition RTA_IFA : Z := 32.

(** Field offsets of [struct rt_msghdr]; [rtm_msglen] is its first
    member. *)
Module rt_msghdr.
Definition rtm_msglen : Z := 0.
Definition rtm_version : Z := 2.
Definition rtm_type : Z := 3.
Definition rtm_hdrlen : Z := 4.
Definition rtm_index : Z := 6.
Definition rtm_tableid : Z := 8.
Definition rtm_priority : Z := 10.
Definition rtm_addrs : Z := 12.
Definition rtm_flags : Z := 16.
Definition rtm_seq : Z := 28.
Definition rtm_inits : Z := 36.
Definition rmx_mtu : Z := 60.
Definition size : nat := 96.
End rt_msghdr.

(** [struct sockaddr] and its variants: length byte, family byte, then
    the family-specific part. *)
Module sockaddr.
Definition sa_len : Z := 0.
Definition sa_family : Z := 1.
Definition sin_addr : Z := 4.
Definition sin6_addr : Z := 8.
Definition sr_static : Z := 2.
Definition sr_search : Z := 2.
End sockaddr.

(** What the sources take from their surroundings without fixing it:
    the machine ([sizeof(long)], byte order), the constants of the
    proposal extension of the routing socket, and the sizes of the
    members of the structures declared in [netcfgd.h]. *)
Class Platform := {
  big_endian : bool;
  sizeof_long : Z;
  RTM_PROPOSAL : Z;
  RTAX_MAX : nat;
  RTAX_STATIC : nat;
  RTAX_SEARCH : nat;
  RTAX_DNS1 : nat;
  RTAX_DNS2 : nat;
  RTAX_DNS3 : nat;
  RTAX_DNS4 : nat;
  (* sizeof of the members of struct imsg_v4proposal *)
  sizeof_rtstatic : nat;
  sizeof_rtsearch : nat;
  sizeof_gateway : nat;
  sizeof_ifa : nat;
  sizeof_netmask : nat;
  sizeof_dns1 : nat;
  sizeof_dns2 : nat;
  sizeof_dns3 : nat;
  sizeof_dns4 : nat;
}.

(** The assumptions on a platform under which the model below follows
    the C semantics: [long] has 4 or 8 bytes, the slot array [rti_info]
    has an entry for every slot the code names, and [1 << i] is defined
    for every slot index. *)
Record PlatformOk (P : Platform) : Prop := {
  long_size : sizeof_long = 4 ∨ sizeof_long = 8;
  slots_fit : (RTAX_MAX ≤ 31)%nat;
  RTAX_IFA_lt : (RTAX_IFA < RTAX_MAX)%nat;
  RTAX_STATIC_lt : (RTAX_STATIC < RTAX_MAX)%nat;
  RTAX_SEARCH_lt : (RTAX_SEARCH < RTAX_MAX)%nat;
  RTAX_DNS1_lt : (RTAX_DNS1 < RTAX_MAX)%nat;
  RTAX_DNS2_lt : (RTAX_DNS2 < RTAX_MAX)%nat;
  RTAX_DNS3_lt : (RTAX_DNS3 < RTAX_MAX)%nat;
  RTAX_DNS4_lt : (RTAX_DNS4 < RTAX_MAX)%nat;
}.

(** A platform for the examples: OpenBSD/amd64, with the proposal
    extension of the routing socket given the slots behind the standard
    ones and with [struct in_addr] for the addresses of a proposal. *)
Definition openbsd_amd64 : Platform := {|
  big_endian := false;
  sizeof_long := 8;
  RTM_PROPOSAL := 19;
  RTAX_MAX := 17;
  RTAX_STATIC := 11;
  RTAX_SEARCH := 12;
  RTAX_DNS1 := 13;
  RTAX_DNS2 := 14;
  RTAX_DNS3 := 15;
  RTAX_DNS4 := 16;
  sizeof_rtstatic := 128;
  sizeof_rtsearch := 128;
  sizeof_gateway := 4;
  sizeof_ifa := 4;
  sizeof_netmask := 4;
  sizeof_dns1 := 4;
  sizeof_dns2 := 4;
  sizeof_dns3 := 4;
  sizeof_dns4 := 4;
|}.

(** ** Traces and the monad of the decoder *)

(** The message types the sources name. *)
Inductive imsg_type :=
| IMSG_NONE
| IMSG_CTL_RELOAD
| IMSG_CTL_LOG_VERBOSE
| IMSG_CTL_SHOW_MAIN_INFO
| IMSG_CTL_END
| IMSG_RECONF_CONF
| IMSG_RECONF_GROUP
| IMSG_RECONF_END
| IMSG_SOCKET_IPC
| IMSG_SEND_V4PROPOSAL
| IMSG_SEND_V6PROPOSAL.

Inductive log_arg :=
| ArgStr (s : string)
| ArgInt (z : Z)
| ArgAddr (bs : list byte).

(** Modelled from the spec: [struct imsg_v4proposal] is declared in
    [netcfgd.h], which is not among the sources.  The members are the
    fields the data model gives a proposal, under the names
    [forward_v4proposal] uses for them; the address-shaped ones are kept
    as the raw bytes [memcpy] puts there, and their sizes are taken from
    the platform. *)
Record imsg_v4proposal := {
  p_addrs : Z;
  p_inits : Z;
  p_flags : Z;
  p_xid : Z;
  p_index : Z;
  p_source : Z;
  p_mtu : Z;
  p_rtstatic : list byte;
  p_rtsearch : list byte;
  p_rtsearch_encoded : Z;
  p_gateway : list byte;
  p_ifa : list byte;
  p_netmask : list byte;
  p_dns1 : list byte;
  p_dns2 : list byte;
  p_dns3 : list byte;
  p_dns4 : list byte;
}.

(** [struct ifaliasreq], the argument of the address ioctls. *)
Record ifaliasreq := {
  ifra_name : list byte;
  ifra_addr : list byte;
  ifra_dstaddr : list byte;
  ifra_mask : list byte;
}.

Inductive ioctl_request :=
| SIOCDIFADDR
| SIOCAIFADDR.

Inductive event :=
| EvLoad (a : Z)
| EvLogWarn (fmt : string) (args : list log_arg)
| EvLogWarnx (fmt : string) (args : list log_arg)
| EvLogDebug (fmt : string) (args : list log_arg)
| EvLoopExit
| EvComposeEngine (type : imsg_type) (pid : Z) (p : imsg_v4proposal)
| EvIoctl (req : ioctl_request) (arg : ifaliasreq)
| EvWritev (data : list byte)
| EvFatal (msg : string).

Definition trace := list event.

(** How a run ends: it returns, the process exits inside [fatal] or
    [fatalx], or the model was not given enough steps. *)
Inductive outcome (A : Type) :=
| Ret (a : A)
| Exited
| OutOfFuel.
Arguments Ret {A} a.
Arguments Exited {A}.
Arguments OutOfFuel {A}.

Definition M (A : Type) : Type := memory → outcome A * trace.

Definition ret {A} (a : A) : M A := λ _, (Ret a, []).

Definition bind {A B} (c : M A) (k : A → M B) : M B :=
  λ m,
    match c m with
    | (Ret a, t1) => let '(r, t2) := k a m in (r, t1 ++ t2)
    | (Exited, t1) => (Exited, t1)
    | (OutOfFuel, t1) => (OutOfFuel, t1)
    end.

#[global] Instance M_ret : MRet M := @ret.
#[global] Instance M_bind : MBind M := λ A B k c, bind c k.

Definition emit (e : event) : M unit := λ _, (Ret tt, [e]).

Definition fatalx {A} (msg : string) : M A := λ _, (Exited, [EvFatal msg]).

Definition out_of_fuel {A} : M A := λ _, (OutOfFuel, []).

Definition load8 (a : Z) : M Z :=
  λ m, (Ret (peek8 m a), EvLoad <$> footprint a 1).

Definition load16 `{Platform} (a : Z) : M Z :=
  λ m, (Ret (peek16 big_endian m a), EvLoad <$> footprint a 2).

Definition load32 `{Platform} (a : Z) : M Z :=
  λ m, (Ret (peek32 big_endian m a), EvLoad <$> footprint a 4).

(** An [int] member: the 32 bits read as a two's complement number. *)
Definition load_int `{Platform} (a : Z) : M Z :=
  v ← load32 a; mret (signed 32 v).

(** The source of a [memcpy] of [n] bytes. *)
Definition load_bytes (a : Z) (n : nat) : M (list byte) :=
  λ m, (Ret (peek_bytes m a n), EvLoad <$> footprint a n).

(** The addresses a trace reads. *)
Definition loads (t : trace) : list Z :=
  omap (λ e, match e with EvLoad a => Some a | _ => None end) t.

Definition is_fatal (e : event) : bool :=
  match e with EvFatal _ => true | _ => false end.

(** Assignments to the members of a proposal. *)

Definition set_p_addrs (v : Z) (p : imsg_v4proposal) : imsg_v4proposal :=
  {| p_addrs := v; p_inits := p_inits p; p_flags := p_flags p;
     p_xid := p_xid p; p_index := p_index p; p_source := p_source p;
     p_mtu := p_mtu p; p_rtstatic := p_rtstatic p;
     p_rtsearch := p_rtsearch p;
     p_rtsearch_encoded := p_rtsearch_encoded p; p_gateway := p_gateway p;
     p_ifa := p_ifa p; p_netmask := p_netmask p; p_dns1 := p_dns1 p;
     p_dns2 := p_dns2 p; p_dns3 := p_dns3 p; p_dns4 := p_dns4 p |}.

Definition set_p_inits (v : Z) (p : imsg_v4proposal) : imsg_v4proposal :=
  {| p_addrs := p_addrs p; p_inits := v; p_flags := p_flags p;
     p_xid := p_xid p; p_index := p_index p; p_source := p_source p;
     p_mtu := p_mtu p; p_rtstatic := p_rtstatic p;
     p_rtsearch := p_rtsearch p;
     p_rtsearch_encoded := p_rtsearch_encoded p; p_gateway := p_gateway p;
     p_ifa := p_ifa p; p_netmask := p_netmask p; p_dns1 := p_dns1 p;
     p_dns2 := p_dns2 p; p_dns3 := p_dns3 p; p_dns4 := p_dns4 p |}.

Definition set_p_flags (v : Z) (p : imsg_v4proposal) : imsg_v4proposal :=
  {| p_addrs := p_addrs p; p_inits := p_inits p; p_flags := v;
     p_xid := p_xid p; p_index := p_index p; p_source := p_source p;
     p_mtu := p_mtu p; p_rtstatic := p_rtstatic p;
     p_rtsearch := p_rtsearch p;
     p_rtsearch_encoded := p_rtsearch_encoded p; p_gateway := p_gateway p;
     p_ifa := p_ifa p; p_netmask := p_netmask p; p_dns1 := p_dns1 p;
     p_dns2 := p_dns2 p; p_dns3 := p_dns3 p; p_dns4 := p_dns4 p |}.

Definition set_p_xid (v : Z) (p : imsg_v4proposal) : imsg_v4proposal :=
  {| p_addrs := p_addrs p; p_inits := p_inits p; p_flags := p_flags p;
     p_xid := v; p_index := p_index p; p_source := p_source p;
     p_mtu := p_mtu p; p_rtstatic := p_rtstatic p;
     p_rtsearch := p_rtsearch p;
     p_rtsearch_encoded := p_rtsearch_encoded p; p_gateway := p_gateway p;
     p_ifa := p_ifa p; p_netmask := p_netmask p; p_dns1 := p_dns1 p;
     p_dns2 := p_dns2 p; p_dns3 := p_dns3 p; p_dns4 := p_dns4 p |}.

Definition set_p_index (v : Z) (p : imsg_v4proposal) : imsg_v4proposal :=
  {| p_addrs := p_addrs p; p_inits := p_inits p; p_flags := p_flags p;
     p_xid := p_xid p; p_index := v; p_source := p_source p;
     p_mtu := p_mtu p; p_rtstatic := p_rtstatic p;
     p_rtsearch := p_rtsearch p;
     p_rtsearch_encoded := p_rtsearch_encoded p; p_gateway := p_gateway p;
     p_ifa := p_ifa p; p_netmask := p_netmask p; p_dns1 := p_dns1 p;
     p_dns2 := p_dns2 p; p_dns3 := p_dns3 p; p_dns4 := p_dns4 p |}.

Definition set_p_source (v : Z) (p : imsg_v4proposal) : imsg_v4proposal :=
  {| p_addrs := p_addrs p; p_inits := p_inits p; p_flags := p_flags p;
     p_xid := p_xid p; p_index := p_index p; p_source := v;
     p_mtu := p_mtu p; p_rtstatic := p_rtstatic p;
     p_rtsearch := p_rtsearch p;
     p_rtsearch_encoded := p_rtsearch_encoded p; p_gateway := p_gateway p;
     p_ifa := p_ifa p; p_netmask := p_netmask p; p_dns1 := p_dns1 p;
     p_dns2 := p_dns2 p; p_dns3 := p_dns3 p; p_dns4 := p_dns4 p |}.

Definition set_p_mtu (v : Z) (p : imsg_v4proposal) : imsg_v4proposal :=
  {| p_addrs := p_addrs p; p_inits := p_inits p; p_flags := p_flags p;
     p_xid := p_xid p; p_index := p_index p; p_source := p_source p;
     p_mtu := v; p_rtstatic := p_rtstatic p; p_rtsearch := p_rtsearch p;
     p_rtsearch_encoded := p_rtsearch_encoded p; p_gateway := p_gateway p;
     p_ifa := p_ifa p; p_netmask := p_netmask p; p_dns1 := p_dns1 p;
     p_dns2 := p_dns2 p; p_dns3 := p_dns3 p; p_dns4 := p_dns4 p |}.

Definition set_p_rtstatic (v : list byte) (p : imsg_v4proposal) : imsg_v4proposal :=
  {| p_addrs := p_addrs p; p_inits := p_inits p; p_flags := p_flags p;
     p_xid := p_xid p; p_index := p_index p; p_source := p_source p;
     p_mtu := p_mtu p; p_rtstatic := v; p_rtsearch := p_rtsearch p;
     p_rtsearch_encoded := p_rtsearch_encoded p; p_gateway := p_gateway p;
     p_ifa := p_ifa p; p_netmask := p_netmask p; p_dns1 := p_dns1 p;
     p_dns2 := p_dns2 p; p_dns3 := p_dns3 p; p_dns4 := p_dns4 p |}.

Definition set_p_rtsearch (v : list byte) (p : imsg_v4proposal) : imsg_v4proposal :=
  {| p_addrs := p_addrs p; p_inits := p_inits p; p_flags := p_flags p;
     p_xid := p_xid p; p_index := p_index p; p_source := p_source p;
     p_mtu := p_mtu p; p_rtstatic := p_rtstatic p; p_rtsearch := v;
     p_rtsearch_encoded := p_rtsearch_encoded p; p_gateway := p_gateway p;
     p_ifa := p_ifa p; p_netmask := p_netmask p; p_dns1 := p_dns1 p;
     p_dns2 := p_dns2 p; p_dns3 := p_dns3 p; p_dns4 := p_dns4 p |}.

Definition set_p_rtsearch_encoded (v : Z) (p : imsg_v4proposal) : imsg_v4proposal :=
  {| p_addrs := p_addrs p; p_inits := p_inits p; p_flags := p_flags p;
     p_xid := p_xid p; p_index := p_index p; p_source := p_source p;
     p_mtu := p_mtu p; p_rtstatic := p_rtstatic p;
     p_rtsearch := p_rtsearch p; p_rtsearch_encoded := v;
     p_gateway := p_gateway p; p_ifa := p_ifa p; p_netmask := p_netmask p;
     p_dns1 := p_dns1 p; p_dns2 := p_dns2 p; p_dns3 := p_dns3 p;
     p_dns4 := p_dns4 p |}.

Definition set_p_gateway (v : list byte) (p : imsg_v4proposal) : imsg_v4proposal :=
  {| p_addrs := p_addrs p; p_inits := p_inits p; p_flags := p_flags p;
     p_xid := p_xid p; p_index := p_index p; p_source := p_source p;
     p_mtu := p_mtu p; p_rtstatic := p_rtstatic p;
     p_rtsearch := p_rtsearch p;
     p_rtsearch_encoded := p_rtsearch_encoded p; p_gateway := v;
     p_ifa := p_ifa p; p_netmask := p_netmask p; p_dns1 := p_dns1 p;
     p_dns2 := p_dns2 p; p_dns3 := p_dns3 p; p_dns4 := p_dns4 p |}.

Definition set_p_ifa (v : list byte) (p : imsg_v4proposal) : imsg_v4proposal :=
  {| p_addrs := p_addrs p; p_inits := p_inits p; p_flags := p_flags p;
     p_xid := p_xid p; p_index := p_index p; p_source := p_source p;
     p_mtu := p_mtu p; p_rtstatic := p_rtstatic p;
     p_rtsearch := p_rtsearch p;
     p_rtsearch_encoded := p_rtsearch_encoded p; p_gateway := p_gateway p;
     p_ifa := v; p_netmask := p_netmask p; p_dns1 := p_dns1 p;
     p_dns2 := p_dns2 p; p_dns3 := p_dns3 p; p_dns4 := p_dns4 p |}.

Definition set_p_netmask (v : list byte) (p : imsg_v4proposal) : imsg_v4proposal :=
  {| p_addrs := p_addrs p; p_inits := p_inits p; p_flags := p_flags p;
     p_xid := p_xid p; p_index := p_index p; p_source := p_source p;
     p_mtu := p_mtu p; p_rtstatic := p_rtstatic p;
     p_rtsearch := p_rtsearch p;
     p_rtsearch_encoded := p_rtsearch_encoded p; p_gateway := p_gateway p;
     p_ifa := p_ifa p; p_netmask := v; p_dns1 := p_dns1 p;
     p_dns2 := p_dns2 p; p_dns3 := p_dns3 p; p_dns4 := p_dns4 p |}.

Definition set_p_dns1 (v : list byte) (p : imsg_v4proposal) : imsg_v4proposal :=
  {| p_addrs := p_addrs p; p_inits := p_inits p; p_flags := p_flags p;
     p_xid := p_xid p; p_index := p_index p; p_source := p_source p;
     p_mtu := p_mtu p; p_rtstatic := p_rtstatic p;
     p_rtsearch := p_rtsearch p;
     p_rtsearch_encoded := p_rtsearch_encoded p; p_gateway := p_gateway p;
     p_ifa := p_ifa p; p_netmask := p_netmask p; p_dns1 := v;
     p_dns2 := p_dns2 p; p_dns3 := p_dns3 p; p_dns4 := p_dns4 p |}.

Definition set_p_dns2 (v : list byte) (p : imsg_v4proposal) : imsg_v4proposal :=
  {| p_addrs := p_addrs p; p_inits := p_inits p; p_flags := p_flags p;
     p_xid := p_xid p; p_index := p_index p; p_source := p_source p;
     p_mtu := p_mtu p; p_rtstatic := p_rtstatic p;
     p_rtsearch := p_rtsearch p;
     p_rtsearch_encoded := p_rtsearch_encoded p; p_gateway := p_gateway p;
     p_ifa := p_ifa p; p_netmask := p_netmask p; p_dns1 := p_dns1 p;
     p_dns2 := v; p_dns3 := p_dns3 p; p_dns4 := p_dns4 p |}.

Definition set_p_dns3 (v : list byte) (p : imsg_v4proposal) : imsg_v4proposal :=
  {| p_addrs := p_addrs p; p_inits := p_inits p; p_flags := p_flags p;
     p_xid := p_xid p; p_index := p_index p; p_source := p_source p;
     p_mtu := p_mtu p; p_rtstatic := p_rtstatic p;
     p_rtsearch := p_rtsearch p;
     p_rtsearch_encoded := p_rtsearch_encoded p; p_gateway := p_gateway p;
     p_ifa := p_ifa p; p_netmask := p_netmask p; p_dns1 := p_dns1 p;
     p_dns2 := p_dns2 p; p_dns3 := v; p_dns4 := p_dns4 p |}.

Definition set_p_dns4 (v : list byte) (p : imsg_v4proposal) : imsg_v4proposal :=
  {| p_addrs := p_addrs p; p_inits := p_inits p; p_flags := p_flags p;
     p_xid := p_xid p; p_index := p_index p; p_source := p_source p;
     p_mtu := p_mtu p; p_rtstatic := p_rtstatic p;
     p_rtsearch := p_rtsearch p;
     p_rtsearch_encoded := p_rtsearch_encoded p; p_gateway := p_gateway p;
     p_ifa := p_ifa p; p_netmask := p_netmask p; p_dns1 := p_dns1 p;
     p_dns2 := p_dns2 p; p_dns3 := p_dns3 p; p_dns4 := v |}.

(** ** kroute.c *)

Section kroute.
Context `{P : Platform}.

(** Arithmetic on [size_t], which is as wide as [long]. *)
Definition size_add (a b : Z) : Z := wrap (8 * sizeof_long) (a + b).

(** The largest value of [ssize_t], the type of the result of
    [read]. *)
Definition SSIZE_MAX : Z := 2 ^ (8 * sizeof_long - 1) - 1.

Definition ROUNDUP (a : Z) : Z :=
  if bool_decide (Z.land a (sizeof_long - 1) ≠ 0)
  then 1 + Z.lor a (sizeof_long - 1)
  else a.

(** [rti_info[i]]; the array has [RTAX_MAX] entries. *)
Definition rti_slot (rti_info : list (option Z)) (i : nat) : option Z :=
  default None (rti_info !! i).

(** The [for] loop of [get_rtaddrs], from index [i] with [todo]
    iterations to go.  [sa->sa_len], which [ROUNDUP] names more than
    once, is read once. *)
Fixpoint get_rtaddrs_from (todo i : nat) (addrs sa v6 : Z)
    (rti_info : list (option Z)) : M (Z * list (option Z)) :=
  match todo with
  | O => mret (v6, rti_info)
  | S todo' =>
      if bool_decide (Z.land addrs (Z.shiftl 1 (Z.of_nat i)) ≠ 0) then
        family ← load8 (sa + sockaddr.sa_family);
        len ← load8 (sa + sockaddr.sa_len);
        get_rtaddrs_from todo' (S i) addrs (sa + ROUNDUP len)
          (if bool_decide (family = AF_INET) then 0 else v6)
          (<[i := Some sa]> rti_info)
      else
        get_rtaddrs_from todo' (S i) addrs sa v6 (<[i := None]> rti_info)
  end.

Definition get_rtaddrs (addrs sa : Z) (rti_info : list (option Z))
    : M (Z * list (option Z)) :=
  get_rtaddrs_from RTAX_MAX 0 addrs sa 1 rti_info.

(** [memset(&proposal, 0, sizeof(proposal))]. *)
Definition proposal_zero : imsg_v4proposal :=
  {| p_addrs := 0; p_inits := 0; p_flags := 0; p_xid := 0; p_index := 0;
     p_source := 0; p_mtu := 0;
     p_rtstatic := replicate sizeof_rtstatic x00;
     p_rtsearch := replicate sizeof_rtsearch x00;
     p_rtsearch_encoded := 0;
     p_gateway := replicate sizeof_gateway x00;
     p_ifa := replicate sizeof_ifa x00;
     p_netmask := replicate sizeof_netmask x00;
     p_dns1 := replicate sizeof_dns1 x00;
     p_dns2 := replicate sizeof_dns2 x00;
     p_dns3 := replicate sizeof_dns3 x00;
     p_dns4 := replicate sizeof_dns4 x00 |}.

(** The six assignments from the header that open both [forward_]
    functions. *)
Definition copy_header (rtm : Z) (proposal : imsg_v4proposal)
    : M imsg_v4proposal :=
  v ← load_int (rtm + rt_msghdr.rtm_addrs);
  let proposal := set_p_addrs v proposal in
  v ← load32 (rtm + rt_msghdr.rtm_inits);
  let proposal := set_p_inits v proposal in
  v ← load_int (rtm + rt_msghdr.rtm_flags);
  let proposal := set_p_flags v proposal in
  v ← load_int (rtm + rt_msghdr.rtm_seq);
  let proposal := set_p_xid v proposal in
  v ← load16 (rtm + rt_msghdr.rtm_index);
  let proposal := set_p_index v proposal in
  v ← load8 (rtm + rt_msghdr.rtm_priority);
  mret (set_p_source v proposal).

(** [if (rti_info[i] != NULL) memcpy(&proposal.f, src, sizeof(proposal.f))]
    where [src] lies [off] bytes into the slot. *)
Definition copy_slot (rti_info : list (option Z)) (i : nat) (off : Z)
    (size : nat) (set : list byte → imsg_v4proposal → imsg_v4proposal)
    (proposal : imsg_v4proposal) : M imsg_v4proposal :=
  match rti_slot rti_info i with
  | Some sa => bs ← load_bytes (sa + off) size; mret (set bs proposal)
  | None => mret proposal
  end.

(** The part both [forward_] functions share up to the type of the
    socket address: [addr_off] is the offset of [sin_addr] in
    [forward_v4proposal] and of [sin6_addr] in [forward_v6proposal]. *)
Definition build_proposal (addr_off : Z) (rtm : Z)
    (rti_info : list (option Z)) : M imsg_v4proposal :=
  let proposal := proposal_zero in
  proposal ← copy_header rtm proposal;
  proposal ←
    (if bool_decide (Z.land (p_inits proposal) RTV_MTU ≠ 0) then
       v ← load32 (rtm + rt_msghdr.rmx_mtu);
       mret (set_p_mtu v proposal)
     else mret proposal);
  proposal ← copy_slot rti_info RTAX_STATIC sockaddr.sr_static
    sizeof_rtstatic set_p_rtstatic proposal;
  proposal ←
    match rti_slot rti_info RTAX_SEARCH with
    | Some rtsearch =>
        family ← load8 (rtsearch + sockaddr.sa_family);
        let proposal :=
          if bool_decide (family = AF_INET6)
          then set_p_rtsearch_encoded 1 proposal else proposal in
        bs ← load_bytes (rtsearch + sockaddr.sr_search) sizeof_rtsearch;
        mret (set_p_rtsearch bs proposal)
    | None => mret proposal
    end;
  proposal ← copy_slot rti_info RTAX_GATEWAY addr_off
    sizeof_gateway set_p_gateway proposal;
  proposal ← copy_slot rti_info RTAX_IFA addr_off
    sizeof_ifa set_p_ifa proposal;
  proposal ← copy_slot rti_info RTAX_NETMASK addr_off
    sizeof_netmask set_p_netmask proposal;
  proposal ← copy_slot rti_info RTAX_DNS1 addr_off
    sizeof_dns1 set_p_dns1 proposal;
  proposal ← copy_slot rti_info RTAX_DNS2 addr_off
    sizeof_dns2 set_p_dns2 proposal;
  proposal ← copy_slot rti_info RTAX_DNS3 addr_off
    sizeof_dns3 set_p_dns3 proposal;
  copy_slot rti_info RTAX_DNS4 addr_off
    sizeof_dns4 set_p_dns4 proposal.

(** The call is recorded as it is made; whether it queues a message
    depends on [iev_engine], which is outside the model. *)
Definition main_imsg_compose_engine (type : imsg_type) (pid : Z)
    (data : imsg_v4proposal) : M unit :=
  emit (EvComposeEngine type pid data).

Definition forward_v4proposal (rtm : Z) (rti_info : list (option Z))
    : M unit :=
  proposal ← build_proposal sockaddr.sin_addr rtm rti_info;
  main_imsg_compose_engine IMSG_SEND_V4PROPOSAL 0 proposal.

(** The IPv6 variant fills the same [struct imsg_v4proposal], so each
    [memcpy] copies as many bytes as the member of that structure
    has. *)
Definition forward_v6proposal (rtm : Z) (rti_info : list (option Z))
    : M unit :=
  proposal ← build_proposal sockaddr.sin6_addr rtm rti_info;
  main_imsg_compose_engine IMSG_SEND_V6PROPOSAL 0 proposal.

(** One pass through the body of the [for] loop of [kr_dispatch_msg],
    for the message at [offset]; [len] is the number of bytes [read]
    returned.  The result is the slot array as the pass leaves it. *)
Definition kr_dispatch_one (len offset : Z) (rti_info : list (option Z))
    : M (list (option Z)) :=
  let next := offset in
  let rtm := next in
  partial ←
    (if bool_decide (len < size_add offset sizeof_u_short) then mret true
     else
       msglen ← load16 (rtm + rt_msghdr.rtm_msglen);
       mret (bool_decide (len < size_add offset msglen)));
  if partial : bool then fatalx "rtmsg_process: partial rtm in buffer"
  else
    version ← load8 (rtm + rt_msghdr.rtm_version);
    if bool_decide (version ≠ RTM_VERSION) then mret rti_info
    else
      hdrlen ← load16 (rtm + rt_msghdr.rtm_hdrlen);
      let sa := next + hdrlen in
      addrs ← load_int (rtm + rt_msghdr.rtm_addrs);
      '(v6, rti_info) ← get_rtaddrs addrs sa rti_info;
      type ← load8 (rtm + rt_msghdr.rtm_type);
      if bool_decide (type = RTM_PROPOSAL) then
        priority ← load8 (rtm + rt_msghdr.rtm_priority);
        emit (EvLogWarnx "I see a %s RTM_PROPOSAL from %d!"
                [ArgStr (if bool_decide (v6 ≠ 0) then "IPv6" else "IPv4");
                 ArgInt priority]);;
        (if bool_decide (v6 ≠ 0)
         then forward_v6proposal rtm rti_info
         else forward_v4proposal rtm rti_info);;
        mret rti_info
      else mret rti_info.

(** The [for] loop: test, body, then [offset += rtm->rtm_msglen], which
    [continue] reaches as well.  [fuel] bounds the number of tests. *)
Fixpoint kr_dispatch_loop (fuel : nat) (len offset : Z)
    (rti_info : list (option Z)) : M unit :=
  match fuel with
  | O => out_of_fuel
  | S fuel' =>
      if bool_decide (offset < len) then
        rti_info ← kr_dispatch_one len offset rti_info;
        msglen ← load16 (offset + rt_msghdr.rtm_msglen);
        kr_dispatch_loop fuel' len (size_add offset msglen) rti_info
      else mret ()
  end.

(** [kr_dispatch_msg], given what [read] returned ([n], which is -1, 0
    or the number of bytes read, and [errno] when [n] is -1); the memory
    is the one after the [read].  The slot array is a local variable
    that [get_rtaddrs] fills entry by entry before it is looked at; it
    starts here with all entries [NULL]. *)
Definition kr_dispatch_msg (fuel : nat) (n errno : Z) : M unit :=
  if bool_decide (n = -1) then
    if bool_decide (errno = EAGAIN ∨ errno = EINTR) then mret ()
    else
      emit (EvLogWarn "dispatch_rtmsg: read error" []);;
      emit EvLoopExit
  else if bool_decide (n = 0) then
    emit (EvLogWarnx "routing socket closed" []);;
    emit EvLoopExit
  else
    let len := n in
    kr_dispatch_loop fuel len 0 (replicate RTAX_MAX None).

End kroute.

(** ** netcfgd_v4.c *)

(** Modelled from the spec: the request structures are declared in
    [netcfgd.h], which is not among the sources.  The members are those
    the data model gives the four requests, under the names the
    functions below use; a member that is passed on as bytes is kept as
    its object representation, and [sizeof] of it is the length of that
    list. *)
Record imsg_delete_v4address := {
  dv4a_name : list byte;
  dv4a_addr : list byte;
}.

Record imsg_add_v4address := {
  av4a_name : list byte;
  av4a_addr : list byte;
  av4a_mask : list byte;
}.

Record imsg_delete_v4route := {
  dv4_index : Z;
  dv4_rdomain : Z;
  dv4_dest : list byte;
  dv4_gateway : list byte;
  dv4_netmask : list byte;
}.

Record imsg_add_v4route := {
  av4_rdomain : Z;
  av4_addrs : Z;
  av4_flags : Z;
  av4_dest : list byte;
  av4_gateway : list byte;
  av4_netmask : list byte;
  av4_ifa : list byte;
}.

Definition IFNAMSIZ : nat := 16.
Definition sizeof_sockaddr_in : nat := 16.
Definition sizeof_sockaddr : nat := 16.

(** [strncpy(dst, src, n)] as the contents of [dst] afterwards: the
    bytes of [src] up to its terminator, then zeros.  [src] is the whole
    array the string lives in. *)
Fixpoint strncpy (src : list byte) (n : nat) : list byte :=
  match n with
  | O => []
  | S n' =>
      match src with
      | [] => replicate n x00
      | b :: src' =>
          if Byte.eqb b x00 then replicate n x00
          else b :: strncpy src' n'
      end
  end.

(** [memcpy(dst, src, n)] into an object that holds [old]. *)
Definition memcpy (old src : list byte) (n : nat) : list byte :=
  take n src ++ drop n old.

(** The local objects an [iovec] of the route functions can point to. *)
Inductive local :=
| Lrtm
| Ldest
| Lgateway
| Lnetmask
| Lifa.

Record iovec := {
  iov_base : local;
  iov_len : nat;
}.

(** What [writev] hands to the kernel: for each entry the first
    [iov_len] bytes found at [iov_base] when the call is made. *)
Definition writev_data (deref : local → list byte) (iov : list iovec)
    : list byte :=
  iov ≫= λ v, take (iov_len v) (deref (iov_base v)).

Section netcfgd_v4.
Context `{P : Platform}.

Definition store8 (off v : Z) (obj : list byte) : list byte :=
  <[Z.to_nat off := byte_of_Z v]> obj.

Definition store16 (off v : Z) (obj : list byte) : list byte :=
  if big_endian
  then store8 off (v / 256) (store8 (off + 1) v obj)
  else store8 off v (store8 (off + 1) (v / 256) obj).

Definition store32 (off v : Z) (obj : list byte) : list byte :=
  if big_endian
  then store16 off (v / 65536) (store16 (off + 2) v obj)
  else store16 off v (store16 (off + 2) (v / 65536) obj).

Definition fetch16 (off : Z) (obj : list byte) : Z :=
  peek16 big_endian (mem_of_bytes obj) off.

(** [rtm.rtm_msglen += n]. *)
Definition rtm_msglen_add (n : nat) (rtm : list byte) : list byte :=
  store16 rt_msghdr.rtm_msglen
    (u_short_add (fetch16 rt_msghdr.rtm_msglen rtm) (Z.of_nat n)) rtm.

(** The [sin_addr] member of a [struct sockaddr_in]. *)
Definition sin_addr_of (sin : list byte) : list byte :=
  take 4 (drop (Z.to_nat sockaddr.sin_addr) sin).

(** The functions below take what the kernel call returns ([ioctl] or
    [writev]) and give the trace; the calls themselves appear in the
    trace with their argument. *)

Definition netcfgd_delete_v4address (dv4 : imsg_delete_v4address)
    (ioctl_ret : Z) : trace :=
  let ifaliasreq :=
    {| ifra_name := replicate IFNAMSIZ x00;
       ifra_addr := replicate sizeof_sockaddr x00;
       ifra_dstaddr := replicate sizeof_sockaddr x00;
       ifra_mask := replicate sizeof_sockaddr x00 |} in
  let ifaliasreq :=
    {| ifra_name := strncpy (dv4a_name dv4) IFNAMSIZ;
       ifra_addr := ifra_addr ifaliasreq;
       ifra_dstaddr := ifra_dstaddr ifaliasreq;
       ifra_mask := ifra_mask ifaliasreq |} in
  let ifaliasreq :=
    {| ifra_name := ifra_name ifaliasreq;
       ifra_addr :=
         memcpy (ifra_addr ifaliasreq) (dv4a_addr dv4) sizeof_sockaddr_in;
       ifra_dstaddr := ifra_dstaddr ifaliasreq;
       ifra_mask := ifra_mask ifaliasreq |} in
  EvIoctl SIOCDIFADDR ifaliasreq ::
  (if bool_decide (ioctl_ret = -1)
   then [EvLogWarn "v4_delete_address %s"
           [ArgAddr (sin_addr_of (ifra_addr ifaliasreq))]]
   else []).

Definition netcfgd_add_v4address (av4 : imsg_add_v4address)
    (ioctl_ret : Z) : trace :=
  let ifaliasreq :=
    {| ifra_name := replicate IFNAMSIZ x00;
       ifra_addr := replicate sizeof_sockaddr x00;
       ifra_dstaddr := replicate sizeof_sockaddr x00;
       ifra_mask := replicate sizeof_sockaddr x00 |} in
  let ifaliasreq :=
    {| ifra_name := strncpy (av4a_name av4) IFNAMSIZ;
       ifra_addr := ifra_addr ifaliasreq;
       ifra_dstaddr := ifra_dstaddr ifaliasreq;
       ifra_mask := ifra_mask ifaliasreq |} in
  let ifaliasreq :=
    {| ifra_name := ifra_name ifaliasreq;
       ifra_addr :=
         memcpy (ifra_addr ifaliasreq) (av4a_addr av4) sizeof_sockaddr_in;
       ifra_dstaddr := ifra_dstaddr ifaliasreq;
       ifra_mask := ifra_mask ifaliasreq |} in
  let ifaliasreq :=
    {| ifra_name := ifra_name ifaliasreq;
       ifra_addr := ifra_addr ifaliasreq;
       ifra_dstaddr := ifra_dstaddr ifaliasreq;
       ifra_mask :=
         memcpy (ifra_mask ifaliasreq) (av4a_mask av4) sizeof_sockaddr_in |} in
  EvIoctl SIOCAIFADDR ifaliasreq ::
  (if bool_decide (ioctl_ret = -1)
   then [EvLogWarn "v4_add_address %s"
           [ArgAddr (sin_addr_of (av4a_addr av4))]]
   else []).

(** [seqno] is the static counter of the function; its new value is
    returned with the trace. *)
Definition netcfgd_delete_v4route (dv4 : imsg_delete_v4route)
    (seqno writev_ret : Z) : Z * trace :=
  let iov : list iovec := [] in
  let rtm := replicate rt_msghdr.size x00 in
  let rtm := store8 rt_msghdr.rtm_version RTM_VERSION rtm in
  let rtm := store8 rt_msghdr.rtm_type RTM_DELETE rtm in
  let rtm :=
    store32 rt_msghdr.rtm_addrs
      (Z.lor (Z.lor RTA_DST RTA_GATEWAY) RTA_NETMASK) rtm in
  let rtm := store32 rt_msghdr.rtm_seq seqno rtm in
  let seqno := signed 32 (seqno + 1) in
  let rtm := store16 rt_msghdr.rtm_index (dv4_index dv4) rtm in
  let rtm := store16 rt_msghdr.rtm_tableid (dv4_rdomain dv4) rtm in
  let iov := iov ++ [{| iov_base := Lrtm; iov_len := rt_msghdr.size |}] in
  let iov :=
    iov ++ [{| iov_base := Ldest; iov_len := length (dv4_dest dv4) |}] in
  let rtm := rtm_msglen_add (length (dv4_dest dv4)) rtm in
  let iov :=
    iov ++
    [{| iov_base := Lgateway; iov_len := length (dv4_gateway dv4) |}] in
  let rtm := rtm_msglen_add (length (dv4_gateway dv4)) rtm in
  let iov :=
    iov ++
    [{| iov_base := Lnetmask; iov_len := length (dv4_netmask dv4) |}] in
  let rtm := rtm_msglen_add (length (dv4_netmask dv4)) rtm in
  let deref (l : local) :=
    match l with
    | Lrtm => rtm
    | Ldest => dv4_dest dv4
    | Lgateway => dv4_gateway dv4
    | Lnetmask => dv4_netmask dv4
    | Lifa => []
    end in
  (seqno,
   EvWritev (writev_data deref iov) ::
   (if bool_decide (writev_ret = -1)
    then [EvLogWarn "v4_delete_route" []] else [])).

(** The entries [netcfgd_add_v4route] puts into [iov], and the header
    as it stands when [writev] is called. *)
Definition add_v4route_build (av4 : imsg_add_v4route)
    : list byte * list iovec :=
  let iov : list iovec := [] in
  let rtm := replicate rt_msghdr.size x00 in
  let rtm := store8 rt_msghdr.rtm_version RTM_VERSION rtm in
  let rtm := store8 rt_msghdr.rtm_type RTM_ADD rtm in
  let rtm := store8 rt_msghdr.rtm_priority RTP_NONE rtm in
  let rtm :=
    store16 rt_msghdr.rtm_msglen (Z.of_nat rt_msghdr.size) rtm in
  let rtm := store16 rt_msghdr.rtm_tableid (av4_rdomain av4) rtm in
  let rtm := store32 rt_msghdr.rtm_addrs (av4_addrs av4) rtm in
  let rtm := store32 rt_msghdr.rtm_flags (av4_flags av4) rtm in
  let iov := iov ++ [{| iov_base := Lrtm; iov_len := rt_msghdr.size |}] in
  let '(rtm, iov) :=
    if bool_decide (Z.land (av4_addrs av4) RTA_DST ≠ 0) then
      (rtm_msglen_add (length (av4_dest av4)) rtm,
       iov ++ [{| iov_base := Ldest; iov_len := length (av4_dest av4) |}])
    else (rtm, iov) in
  let '(rtm, iov) :=
    if bool_decide (Z.land (av4_addrs av4) RTA_GATEWAY ≠ 0) then
      (rtm_msglen_add (length (av4_gateway av4)) rtm,
       iov ++
       [{| iov_base := Lgateway; iov_len := length (av4_gateway av4) |}])
    else (rtm, iov) in
  let '(rtm, iov) :=
    if bool_decide (Z.land (av4_addrs av4) RTA_NETMASK ≠ 0) then
      (rtm_msglen_add (length (av4_netmask av4)) rtm,
       iov ++
       [{| iov_base := Lnetmask; iov_len := length (av4_netmask av4) |}])
    else (rtm, iov) in
  let '(rtm, iov) :=
    if bool_decide (Z.land (av4_addrs av4) RTA_IFA ≠ 0) then
      (rtm_msglen_add (length (av4_ifa av4)) rtm,
       iov ++ [{| iov_base := Lifa; iov_len := length (av4_ifa av4) |}])
    else (rtm, iov) in
  (rtm, iov).

Definition netcfgd_add_v4route (av4 : imsg_add_v4route)
    (writev_ret : Z) : trace :=
  let '(rtm, iov) := add_v4route_build av4 in
  let deref (l : local) :=
    match l with
    | Lrtm => rtm
    | Ldest => av4_dest av4
    | Lgateway => av4_gateway av4
    | Lnetmask => av4_netmask av4
    | Lifa => av4_ifa av4
    end in
  EvWritev (writev_data deref iov) ::
  (if bool_decide (writev_ret ≠ -1)
   then [EvLogWarn "v4_add_route" []] else []).

End netcfgd_v4.

(** ** newd.c: what the handlers of the imsg channels get

    The handlers themselves are modelled with the supervisor, whose
    functions they call. *)

(** What one call of [imsg_get] gives: an error (-1), or a message. *)
Inductive imsg_get_result :=
| ImsgGetFailed
| ImsgGot (type : imsg_type) (pid : Z) (data : list byte).

Definition bytes_of_string (s : string) : list byte :=
  String.list_byte_of_string s.

(** [strlcpy(dst, src, size)] into zeroed memory, as the contents of
    [dst] afterwards. *)
Definition strlcpy (src : list byte) (size : nat) : list byte :=
  let n := (size - 1)%nat in
  take n src ++ replicate (size - length (take n src))%nat x00.

(** ** newd.c: merge_config, over the structures of newd.h *)

Definition NEWD_MAXTEXT : nat := 256.
Definition NEWD_MAXGROUPNAME : nat := 16.

(** A pointer to a heap object. *)
Definition ptr := positive.

(** [struct group] without its list linkage, which is kept in the list
    of the configuration that holds the group. *)
Record group := {
  g_name : list byte;
  g_yesno : Z;
  g_group_yesno : Z;
  g_integer : Z;
  g_group_integer : Z;
  g_v4_bits : Z;
  g_group_v4_bits : Z;
  g_v6_bits : Z;
  g_group_v6_bits : Z;
  g_v4address : list byte;
  g_group_v4address : list byte;
  g_v6address : list byte;
  g_group_v6address : list byte;
  g_text : list byte;
  g_group_text : list byte;
}.

(** [struct newd_conf]; [group_list] holds the pointers to the groups,
    head first. *)
Record newd_conf := {
  csock : Z;
  opts : Z;
  yesno : Z;
  global_yesno : Z;
  integer : Z;
  global_integer : Z;
  v4_bits : Z;
  global_v4_bits : Z;
  v6_bits : Z;
  global_v6_bits : Z;
  v4address : list byte;
  global_v4address : list byte;
  v6address : list byte;
  global_v6address : list byte;
  text : list byte;
  global_text : list byte;
  group_list : list ptr;
}.

Record heap := {
  confs : gmap ptr newd_conf;
  groups : gmap ptr group;
}.

(** The four assignments that open [merge_config]. *)
Definition merge_scalars (conf xconf : newd_conf) : newd_conf :=
  {| csock := csock conf;
     opts := opts xconf;
     yesno := yesno xconf;
     global_yesno := global_yesno conf;
     integer := integer xconf;
     global_integer := global_integer conf;
     v4_bits := v4_bits conf;
     global_v4_bits := global_v4_bits conf;
     v6_bits := v6_bits conf;
     global_v6_bits := global_v6_bits conf;
     v4address := v4address conf;
     global_v4address := global_v4address conf;
     v6address := v6address conf;
     global_v6address := global_v6address conf;
     text := text conf;
     global_text :=
       memcpy (global_text conf) (global_text xconf) NEWD_MAXTEXT;
     group_list := group_list conf |}.

Definition set_group_list (l : list ptr) (conf : newd_conf) : newd_conf :=
  {| csock := csock conf;
     opts := opts conf;
     yesno := yesno conf;
     global_yesno := global_yesno conf;
     integer := integer conf;
     global_integer := global_integer conf;
     v4_bits := v4_bits conf;
     global_v4_bits := global_v4_bits conf;
     v6_bits := v6_bits conf;
     global_v6_bits := global_v6_bits conf;
     v4address := v4address conf;
     global_v4address := global_v4address conf;
     v6address := v6address conf;
     global_v6address := global_v6address conf;
     text := text conf;
     global_text := global_text conf;
     group_list := l |}.

(** The first [while] loop: every group of the list is unlinked and
    freed. *)
Fixpoint discard_groups (l : list ptr) (gs : gmap ptr group)
    : gmap ptr group :=
  match l with
  | [] => gs
  | g :: l' => discard_groups l' (delete g gs)
  end.

(** The second [while] loop: the first group of [xl] is unlinked and
    put in front of [cl], until [xl] is empty. *)
Fixpoint adopt_groups (xl cl : list ptr) : list ptr :=
  match xl with
  | [] => cl
  | g :: xl' => adopt_groups xl' (g :: cl)
  end.

(** [merge_config(conf, xconf)] on the heap; [None] when one of the two
    pointers does not point to a configuration. *)
Definition merge_config (conf xconf : ptr) (h : heap) : option heap :=
  c ← confs h !! conf;
  x ← confs h !! xconf;
  let cs := <[conf := merge_scalars c x]> (confs h) in
  c ← cs !! conf;
  let gs := discard_groups (group_list c) (groups h) in
  let cs := <[conf := set_group_list [] c]> cs in
  x ← cs !! xconf;
  c ← cs !! conf;
  let l := adopt_groups (group_list x) (group_list c) in
  let cs := <[xconf := set_group_list [] x]> cs in
  c ← cs !! conf;
  let cs := <[conf := set_group_list l c]> cs in
  Some {| confs := delete xconf cs; groups := gs |}.

(** ** Notions used to state the properties *)

(** A trace that consists of memory reads only. *)
Definition only_loads (t : trace) : Prop := Forall (λ e, ∃ a, e = EvLoad a) t.

(** What a trace shows to the outside: everything but the reads. *)
Definition actions (t : trace) : trace :=
  omap (λ e, match e with EvLoad _ => None | _ => Some e end) t.

(** A computation that returns, having done nothing but read memory,
    with a result that satisfies [Q]. *)
Definition reads_to {A} (c : M A) (m : memory) (Q : A → Prop) : Prop :=
  ∃ a t, c m = (Ret a, t) ∧ only_loads t ∧ Q a.

(** A computation that ends with [r] and shows [acts] to the outside. *)
Definition runs {A} (c : M A) (m : memory) (r : outcome A) (acts : trace)
    : Prop :=
  ∃ t, c m = (r, t) ∧ actions t = acts.

Section notions.
Context `{P : Platform}.

(** The members of a proposal that are filled from a slot are zero
    when the slot is absent, and the MTU is zero when its bit in the
    init flags is clear. *)
Definition absent_is_zero (rti_info : list (option Z))
    (p : imsg_v4proposal) : Prop :=
  (rti_slot rti_info RTAX_STATIC = None →
     p_rtstatic p = replicate sizeof_rtstatic x00)
  ∧ (rti_slot rti_info RTAX_SEARCH = None →
     p_rtsearch p = replicate sizeof_rtsearch x00)
  ∧ (rti_slot rti_info RTAX_GATEWAY = None →
     p_gateway p = replicate sizeof_gateway x00)
  ∧ (rti_slot rti_info RTAX_IFA = None →
     p_ifa p = replicate sizeof_ifa x00)
  ∧ (rti_slot rti_info RTAX_NETMASK = None →
     p_netmask p = replicate sizeof_netmask x00)
  ∧ (rti_slot rti_info RTAX_DNS1 = None →
     p_dns1 p = replicate sizeof_dns1 x00)
  ∧ (rti_slot rti_info RTAX_DNS2 = None →
     p_dns2 p = replicate sizeof_dns2 x00)
  ∧ (rti_slot rti_info RTAX_DNS3 = None →
     p_dns3 p = replicate sizeof_dns3 x00)
  ∧ (rti_slot rti_info RTAX_DNS4 = None →
     p_dns4 p = replicate sizeof_dns4 x00).

(** The members copied from the header at [rtm]. *)
Definition header_copied (m : memory) (rtm : Z) (p : imsg_v4proposal)
    : Prop :=
  p_addrs p = signed 32 (peek32 big_endian m (rtm + rt_msghdr.rtm_addrs))
  ∧ p_inits p = peek32 big_endian m (rtm + rt_msghdr.rtm_inits).

(** The test that makes [kr_dispatch_msg] give up on the message at
    [offset]. *)
Definition partial_rtm (m : memory) (len offset : Z) : bool :=
  bool_decide (len < size_add offset sizeof_u_short)
  || bool_decide
       (len < size_add offset
                (peek16 big_endian m (offset + rt_msghdr.rtm_msglen))).

(** The statement about a proposal: a member filled from a slot is zero
    when the bit of the slot is clear in the presence bitmap, and the
    MTU is zero when its bit is clear in the init flags. *)
Definition unset_is_zero (p : imsg_v4proposal) : Prop :=
  let unset (i : nat) := Z.testbit (p_addrs p) (Z.of_nat i) = false in
  (unset RTAX_STATIC → p_rtstatic p = replicate sizeof_rtstatic x00)
  ∧ (unset RTAX_SEARCH → p_rtsearch p = replicate sizeof_rtsearch x00)
  ∧ (unset RTAX_GATEWAY → p_gateway p = replicate sizeof_gateway x00)
  ∧ (unset RTAX_IFA → p_ifa p = replicate sizeof_ifa x00)
  ∧ (unset RTAX_NETMASK → p_netmask p = replicate sizeof_netmask x00)
  ∧ (unset RTAX_DNS1 → p_dns1 p = replicate sizeof_dns1 x00)
  ∧ (unset RTAX_DNS2 → p_dns2 p = replicate sizeof_dns2 x00)
  ∧ (unset RTAX_DNS3 → p_dns3 p = replicate sizeof_dns3 x00)
  ∧ (unset RTAX_DNS4 → p_dns4 p = replicate sizeof_dns4 x00)
  ∧ (Z.land (p_inits p) RTV_MTU = 0 → p_mtu p = 0).

(** The offsets at which the loop of [kr_dispatch_msg] finds its
    messages: the first is 0, the next follows a message that was not
    given up on at the distance that message declares. *)
Inductive visited (m : memory) (len : Z) : Z → Prop :=
| visited_first : visited m len 0
| visited_next offset :
    visited m len offset →
    offset < len →
    partial_rtm m len offset = false →
    visited m len
      (size_add offset (peek16 big_endian m (offset + rt_msghdr.rtm_msglen))).
End notions.

(** The payloads [netcfgd_add_v4route] is to attach for a request: each
    of destination, gateway, netmask and interface address whose bit is
    set in the presence bitmap, in that order. *)
Definition selected (addrs bit : Z) (payload : list byte)
    : list (list byte) :=
  if bool_decide (Z.land addrs bit ≠ 0) then [payload] else [].

Definition add_v4route_payloads (av4 : imsg_add_v4route)
    : list (list byte) :=
  selected (av4_addrs av4) RTA_DST (av4_dest av4)
  ++ selected (av4_addrs av4) RTA_GATEWAY (av4_gateway av4)
  ++ selected (av4_addrs av4) RTA_NETMASK (av4_netmask av4)
  ++ selected (av4_addrs av4) RTA_IFA (av4_ifa av4).

(** The log calls of a trace. *)
Definition logged (t : trace) : trace :=
  omap (λ e, match e with
             | EvLogWarn _ _ | EvLogWarnx _ _ | EvLogDebug _ _ => Some e
             | _ => None
             end) t.

(** The bytes a trace hands to [writev], call by call. *)
Definition written (t : trace) : list (list byte) :=
  omap (λ e, match e with EvWritev data => Some data | _ => None end) t.

(** ** Sample inputs

    A routing message for [openbsd_amd64]: the header with the given
    length, version, type, presence bitmap, init flags and MTU, and
    IPv4 socket addresses to follow it. *)
Definition sample_header (msglen version type addrs inits mtu : Z) : list Z :=
  [msglen mod 256; msglen / 256; version; type; 96; 0; 7; 0; 0; 0; 9; 0;
   addrs; 0; 0; 0; 0; 0; 0; 0; 0; 0; 0; 0; 0; 0; 0; 0; 42; 0; 0; 0;
   0; 0; 0; 0; inits; 0; 0; 0]
  ++ replicate 20 0 ++ [mtu mod 256; mtu / 256; 0; 0] ++ replicate 32 0.

Definition sample_sockaddr_in (a b c d : Z) : list Z :=
  [16; AF_INET; 0; 0; a; b; c; d; 0; 0; 0; 0; 0; 0; 0; 0].

(** A proposal with a gateway 1.2.3.4 and an interface address 5.6.7.8;
    the MTU bit is clear although the MTU member holds 1500. *)
Definition sample_proposal : list Z :=
  sample_header 128 RTM_VERSION (@RTM_PROPOSAL openbsd_amd64)
    (Z.lor RTA_GATEWAY RTA_IFA) 0 1500
  ++ sample_sockaddr_in 1 2 3 4 ++ sample_sockaddr_in 5 6 7 8.

(** What [sample_proposal] decodes to. *)
Definition sample_decoded : imsg_v4proposal :=
  {| p_addrs := 34; p_inits := 0; p_flags := 0; p_xid := 42; p_index := 7;
     p_source := 9; p_mtu := 0;
     p_rtstatic := replicate 128 x00;
     p_rtsearch := replicate 128 x00;
     p_rtsearch_encoded := 0;
     p_gateway := byte_of_Z <$> [1; 2; 3; 4];
     p_ifa := byte_of_Z <$> [5; 6; 7; 8];
     p_netmask := replicate 4 x00;
     p_dns1 := replicate 4 x00;
     p_dns2 := replicate 4 x00;
     p_dns3 := replicate 4 x00;
     p_dns4 := replicate 4 x00 |}.

Definition sample_sin (a b c d : Z) : list byte :=
  byte_of_Z <$> sample_sockaddr_in a b c d.

(** Requests for the route 10.0.0.0/8 via 192.168.1.1. *)
Definition sample_add_v4route : imsg_add_v4route :=
  {| av4_rdomain := 0;
     av4_addrs := Z.lor (Z.lor RTA_DST RTA_GATEWAY) RTA_NETMASK;
     av4_flags := 3;
     av4_dest := sample_sin 10 0 0 0;
     av4_gateway := sample_sin 192 168 1 1;
     av4_netmask := sample_sin 255 0 0 0;
     av4_ifa := sample_sin 0 0 0 0 |}.

Definition sample_delete_v4route : imsg_delete_v4route :=
  {| dv4_index := 1;
     dv4_rdomain := 0;
     dv4_dest := sample_sin 10 0 0 0;
     dv4_gateway := sample_sin 192 168 1 1;
     dv4_netmask := sample_sin 255 0 0 0 |}.

(** A configuration whose scalar members all carry [tag]. *)
Definition sample_conf (tag : Z) (l : list ptr) : newd_conf :=
  {| csock := tag; opts := tag; yesno := tag; global_yesno := tag;
     integer := tag; global_integer := tag; v4_bits := tag;
     global_v4_bits := tag; v6_bits := tag; global_v6_bits := tag;
     v4address := replicate 4 (byte_of_Z tag);
     global_v4address := replicate 4 (byte_of_Z tag);
     v6address := replicate 16 (byte_of_Z tag);
     global_v6address := replicate 16 (byte_of_Z tag);
     text := replicate NEWD_MAXTEXT (byte_of_Z tag);
     global_text := replicate NEWD_MAXTEXT (byte_of_Z tag);
     group_list := l |}.

Definition sample_group (tag : Z) : group :=
  {| g_name := replicate NEWD_MAXGROUPNAME (byte_of_Z tag);
     g_yesno := tag; g_group_yesno := tag; g_integer := tag;
     g_group_integer := tag; g_v4_bits := tag; g_group_v4_bits := tag;
     g_v6_bits := tag; g_group_v6_bits := tag;
     g_v4address := replicate 4 (byte_of_Z tag);
     g_group_v4address := replicate 4 (byte_of_Z tag);
     g_v6address := replicate 16 (byte_of_Z tag);
     g_group_v6address := replicate 16 (byte_of_Z tag);
     g_text := replicate NEWD_MAXTEXT (byte_of_Z tag);
     g_group_text := replicate NEWD_MAXTEXT (byte_of_Z tag) |}.

(** The retained configuration at 1 (all scalars 0, groups at 10 and
    11) and a new one at 2 (all scalars 1, groups at 20 and 21). *)
Definition sample_heap : heap :=
  {| confs :=
       <[1%positive := sample_conf 0 [10; 11]%positive]>
         (<[2%positive := sample_conf 1 [20; 21]%positive]> ∅);
     groups :=
       <[10%positive := sample_group 10]>
         (<[11%positive := sample_group 11]>
            (<[20%positive := sample_group 20]>
               (<[21%positive := sample_group 21]> ∅))) |}.

(** ** kroute.c: what a forwarded proposal carries *)

(** The proposals a trace hands to the engine, with their types, in
    the order of the calls. *)
Definition forwarded (t : trace) : list (imsg_type * imsg_v4proposal) :=
  omap (λ e, match e with
             | EvComposeEngine type _ p => Some (type, p)
             | _ => None
             end) t.

Section decoded.
Context `{P : Platform}.

(** The members a proposal takes from the header at [rtm] besides the
    presence bitmap and the init flags. *)
Definition scalars_copied (m : memory) (rtm : Z) (p : imsg_v4proposal)
    : Prop :=
  p_flags p = signed 32 (peek32 big_endian m (rtm + rt_msghdr.rtm_flags))
  ∧ p_xid p = signed 32 (peek32 big_endian m (rtm + rt_msghdr.rtm_seq))
  ∧ p_index p = peek16 big_endian m (rtm + rt_msghdr.rtm_index)
  ∧ p_source p = peek8 m (rtm + rt_msghdr.rtm_priority)
  ∧ (Z.land (p_inits p) RTV_MTU ≠ 0 →
     p_mtu p = peek32 big_endian m (rtm + rt_msghdr.rmx_mtu)).

(** A member filled from a slot that is present holds the bytes found
    at the slot: behind the two-byte head for the static routes and the
    search list, at [addr_off] for the addresses.  The search list is
    marked as encoded exactly when its slot is present with the family
    [AF_INET6]. *)
Definition present_is_copied (addr_off : Z) (m : memory)
    (rti_info : list (option Z)) (p : imsg_v4proposal) : Prop :=
  (∀ sa, rti_slot rti_info RTAX_STATIC = Some sa →
     p_rtstatic p = peek_bytes m (sa + sockaddr.sr_static) sizeof_rtstatic)
  ∧ (∀ sa, rti_slot rti_info RTAX_SEARCH = Some sa →
     p_rtsearch p = peek_bytes m (sa + sockaddr.sr_search) sizeof_rtsearch)
  ∧ (∀ sa, rti_slot rti_info RTAX_GATEWAY = Some sa →
     p_gateway p = peek_bytes m (sa + addr_off) sizeof_gateway)
  ∧ (∀ sa, rti_slot rti_info RTAX_IFA = Some sa →
     p_ifa p = peek_bytes m (sa + addr_off) sizeof_ifa)
  ∧ (∀ sa, rti_slot rti_info RTAX_NETMASK = Some sa →
     p_netmask p = peek_bytes m (sa + addr_off) sizeof_netmask)
  ∧ (∀ sa, rti_slot rti_info RTAX_DNS1 = Some sa →
     p_dns1 p = peek_bytes m (sa + addr_off) sizeof_dns1)
  ∧ (∀ sa, rti_slot rti_info RTAX_DNS2 = Some sa →
     p_dns2 p = peek_bytes m (sa + addr_off) sizeof_dns2)
  ∧ (∀ sa, rti_slot rti_info RTAX_DNS3 = Some sa →
     p_dns3 p = peek_bytes m (sa + addr_off) sizeof_dns3)
  ∧ (∀ sa, rti_slot rti_info RTAX_DNS4 = Some sa →
     p_dns4 p = peek_bytes m (sa + addr_off) sizeof_dns4)
  ∧ p_rtsearch_encoded p =
      match rti_slot rti_info RTAX_SEARCH with
      | Some sa =>
          if bool_decide (peek8 m (sa + sockaddr.sa_family) = AF_INET6)
          then 1 else 0
      | None => 0
      end.

(** What one [copy_slot] leaves in the proposal. *)
Definition slot_copied (m : memory) (rti_info : list (option Z)) (i : nat)
    (off : Z) (size : nat)
    (set : list byte → imsg_v4proposal → imsg_v4proposal)
    (p : imsg_v4proposal) : imsg_v4proposal :=
  match rti_slot rti_info i with
  | Some sa => set (peek_bytes m (sa + off) size) p
  | None => p
  end.

(** The proposal [build_proposal] arrives at, step by step. *)
Definition header_of (m : memory) (rtm : Z) : imsg_v4proposal :=
  set_p_source (peek8 m (rtm + rt_msghdr.rtm_priority))
    (set_p_index (peek16 big_endian m (rtm + rt_msghdr.rtm_index))
       (set_p_xid
          (signed 32 (peek32 big_endian m (rtm + rt_msghdr.rtm_seq)))
          (set_p_flags
             (signed 32 (peek32 big_endian m (rtm + rt_msghdr.rtm_flags)))
             (set_p_inits (peek32 big_endian m (rtm + rt_msghdr.rtm_inits))
                (set_p_addrs
                   (signed 32
                      (peek32 big_endian m (rtm + rt_msghdr.rtm_addrs)))
                   proposal_zero))))).

Definition mtu_of (m : memory) (rtm : Z) (p : imsg_v4proposal)
    : imsg_v4proposal :=
  if bool_decide (Z.land (p_inits p) RTV_MTU ≠ 0)
  then set_p_mtu (peek32 big_endian m (rtm + rt_msghdr.rmx_mtu)) p
  else p.

Definition search_of (m : memory) (rti_info : list (option Z))
    (p : imsg_v4proposal) : imsg_v4proposal :=
  match rti_slot rti_info RTAX_SEARCH with
  | Some rtsearch =>
      set_p_rtsearch
        (peek_bytes m (rtsearch + sockaddr.sr_search) sizeof_rtsearch)
        (if bool_decide (peek8 m (rtsearch + sockaddr.sa_family) = AF_INET6)
         then set_p_rtsearch_encoded 1 p else p)
  | None => p
  end.

Definition proposal_of (addr_off : Z) (m : memory) (rtm : Z)
    (rti_info : list (option Z)) : imsg_v4proposal :=
  let slot := slot_copied m rti_info in
  slot RTAX_DNS4 addr_off sizeof_dns4 set_p_dns4
    (slot RTAX_DNS3 addr_off sizeof_dns3 set_p_dns3
       (slot RTAX_DNS2 addr_off sizeof_dns2 set_p_dns2
          (slot RTAX_DNS1 addr_off sizeof_dns1 set_p_dns1
             (slot RTAX_NETMASK addr_off sizeof_netmask set_p_netmask
                (slot RTAX_IFA addr_off sizeof_ifa set_p_ifa
                   (slot RTAX_GATEWAY addr_off sizeof_gateway set_p_gateway
                      (search_of m rti_info
                         (slot RTAX_STATIC sockaddr.sr_static
                            sizeof_rtstatic set_p_rtstatic
                            (mtu_of m rtm (header_of m rtm)))))))))).

(** The message at [offset] is one [kr_dispatch_msg] forwards. *)
Definition is_proposal (m : memory) (offset : Z) : bool :=
  bool_decide (peek8 m (offset + rt_msghdr.rtm_version) = RTM_VERSION)
  && bool_decide (peek8 m (offset + rt_msghdr.rtm_type) = RTM_PROPOSAL).

(** The offsets below [len] met from [offset] on when each message is
    followed by the next at the distance it declares. *)
Fixpoint message_offsets (fuel : nat) (m : memory) (len offset : Z)
    : list Z :=
  match fuel with
  | O => []
  | S fuel' =>
      if bool_decide (offset < len) then
        offset ::
        message_offsets fuel' m len
          (size_add offset
             (peek16 big_endian m (offset + rt_msghdr.rtm_msglen)))
      else []
  end.

(** The transaction id of the message at [offset]. *)
Definition seq_at (m : memory) (offset : Z) : Z :=
  signed 32 (peek32 big_endian m (offset + rt_msghdr.rtm_seq)).

End decoded.

(** ** kroute.c: kr_init *)

Definition ENOBUFS : Z := 55.
Definition EV_PERSIST : Z := 16.

Inductive sockopt :=
| SO_USELOOPBACK (v : Z)
| ROUTE_MSGFILTER (v : Z)
| SO_RCVBUF (v : Z).

(** The calls of [kr_init], in a trace of their own. *)
Inductive kr_event :=
| KrSocket
| KrSetsockopt (opt : sockopt)
| KrGetsockopt
| KrLogWarn (fmt : string)
| KrGetpid
| KrEventSet (events : Z)
| KrEventAdd.

(** What the kernel answers to [kr_init]: the results of [socket], of
    the first two calls of [setsockopt] and of [getsockopt], the size
    [getsockopt] stores, and for a receive buffer of a given size the
    result of [setsockopt] and [errno] after it. *)
Record kr_init_io := {
  socket_ret : Z;
  loopback_ret : Z;
  msgfilter_ret : Z;
  getsockopt_ret : Z;
  default_rcvbuf : Z;
  rcvbuf_ret : Z → Z;
  rcvbuf_errno : Z → Z;
}.

Section kr_init.
Context `{P : Platform}.
(** The constant of [netcfgd.h] the loop starts from. *)
Variable NETCFGD_MAX_RTSOCK_BUF : Z.

Definition ROUTE_FILTER (type : Z) : Z := Z.shiftl 1 type.

(** The [for] loop that grows the receive buffer, from the test on;
    [fuel] bounds the number of tests. *)
Fixpoint grow_rcvbuf (fuel : nat) (io : kr_init_io) (rcvbuf : Z)
    : option (list kr_event) :=
  match fuel with
  | O => None
  | S fuel' =>
      if bool_decide (rcvbuf > default_rcvbuf io) then
        if bool_decide (rcvbuf_ret io rcvbuf = -1)
           && bool_decide (rcvbuf_errno io rcvbuf = ENOBUFS)
        then
          t ← grow_rcvbuf fuel' io (rcvbuf `quot` 2);
          Some (KrSetsockopt (SO_RCVBUF rcvbuf) :: t)
        else Some [KrSetsockopt (SO_RCVBUF rcvbuf)]
      else Some []
  end.

(** [kr_init]: its result and its calls, [None] when [fuel] does not
    suffice for the loop. *)
Definition kr_init (fuel : nat) (io : kr_init_io)
    : option (Z * list kr_event) :=
  let opt := 0 in
  if bool_decide (socket_ret io = -1) then
    Some (-1, [KrSocket; KrLogWarn "kr_init: socket"])
  else
    let t := [KrSocket; KrSetsockopt (SO_USELOOPBACK opt)] in
    let t :=
      if bool_decide (loopback_ret io = -1)
      then t ++ [KrLogWarn "kr_init: setsockopt"] else t in
    let rtfilter := ROUTE_FILTER RTM_PROPOSAL in
    let t := t ++ [KrSetsockopt (ROUTE_MSGFILTER rtfilter)] in
    if bool_decide (msgfilter_ret io = -1) then
      Some (-1, t ++ [KrLogWarn "setsockopt(ROUTE_MSGFILTER): %s"])
    else
      let t := t ++ [KrGetsockopt] in
      grown ←
        (if bool_decide (getsockopt_ret io = -1)
         then Some [KrLogWarn "kr_init getsockopt SOL_SOCKET SO_RCVBUF"]
         else grow_rcvbuf fuel io NETCFGD_MAX_RTSOCK_BUF);
      Some (0,
            t ++ grown
            ++ [KrGetpid; KrEventSet (Z.lor EV_READ EV_PERSIST); KrEventAdd]).

End kr_init.

(** The buffer sizes a trace of [kr_init] asks for. *)
Definition rcvbuf_sizes (t : list kr_event) : list Z :=
  omap (λ e, match e with
             | KrSetsockopt (SO_RCVBUF v) => Some v
             | _ => None
             end) t.

(** ** netcfgd_v4.c: further notions *)

(** The string an array of [char] holds: its bytes up to the first
    NUL. *)
Fixpoint cstring (src : list byte) : list byte :=
  match src with
  | [] => []
  | b :: src' => if Byte.eqb b x00 then [] else b :: cstring src'
  end.

(** The header of a routing message as [writev] hands it over. *)
Definition rtm_of (data : list byte) : list byte := take rt_msghdr.size data.

Section routes_run.
Context `{P : Platform}.

(** Successive calls of [netcfgd_delete_v4route], each with its request
    and with what [writev] returns to it; the static counter goes from
    one call to the next. *)
Fixpoint delete_v4routes (calls : list (imsg_delete_v4route * Z))
    (seqno : Z) : Z * trace :=
  match calls with
  | [] => (seqno, [])
  | (dv4, writev_ret) :: calls' =>
      let '(seqno, t1) := netcfgd_delete_v4route dv4 seqno writev_ret in
      let '(seqno, t2) := delete_v4routes calls' seqno in
      (seqno, t1 ++ t2)
  end.

(** The members of the header found in a buffer. *)
Definition fetch8 (off : Z) (obj : list byte) : Z :=
  peek8 (mem_of_bytes obj) off.

Definition fetch32 (off : Z) (obj : list byte) : Z :=
  peek32 big_endian (mem_of_bytes obj) off.

End routes_run.

(** A request for the address 192.168.1.2/24 on em0. *)
Definition sample_ifname : list byte :=
  bytes_of_string "em0" ++ replicate 13 x00.

Definition sample_add_v4address : imsg_add_v4address :=
  {| av4a_name := sample_ifname;
     av4a_addr := sample_sin 192 168 1 2;
     av4a_mask := sample_sin 255 255 255 0 |}.

Definition sample_delete_v4address : imsg_delete_v4address :=
  {| dv4a_name := sample_ifname;
     dv4a_addr := sample_sin 192 168 1 2 |}.

(** A buffer of three messages: the sample proposal, a message of
    another version, and the sample proposal again with the sequence
    number 43. *)
Definition sample_buffer : list Z :=
  sample_proposal
  ++ sample_header 96 4 (@RTM_PROPOSAL openbsd_amd64) 0 0 0
  ++ <[28%nat := 43]> sample_proposal.

(** A kernel that has no room for a receive buffer above 256 KiB and
    reports 64 KiB as the default; turning off the loopback of the own
    messages fails. *)
Definition sample_kr_init_io : kr_init_io :=
  {| socket_ret := 3;
     loopback_ret := -1;
     msgfilter_ret := 0;
     getsockopt_ret := 0;
     default_rcvbuf := 65536;
     rcvbuf_ret := λ size, if bool_decide (262144 < size) then -1 else 0;
     rcvbuf_errno :=
       λ size, if bool_decide (262144 < size) then ENOBUFS else 0 |}.

Section route_headers.
Context `{P : Platform}.

(** The header of [netcfgd_add_v4route] as its assignments leave it,
    before the sizes of the payloads are added to the length. *)
Definition add_v4route_header (av4 : imsg_add_v4route) : list byte :=
  store32 rt_msghdr.rtm_flags (av4_flags av4)
    (store32 rt_msghdr.rtm_addrs (av4_addrs av4)
       (store16 rt_msghdr.rtm_tableid (av4_rdomain av4)
          (store16 rt_msghdr.rtm_msglen (Z.of_nat rt_msghdr.size)
             (store8 rt_msghdr.rtm_priority RTP_NONE
                (store8 rt_msghdr.rtm_type RTM_ADD
                   (store8 rt_msghdr.rtm_version RTM_VERSION
                      (replicate rt_msghdr.size x00))))))).

(** The same for [netcfgd_delete_v4route]. *)
Definition delete_v4route_header (dv4 : imsg_delete_v4route) (seqno : Z)
    : list byte :=
  store16 rt_msghdr.rtm_tableid (dv4_rdomain dv4)
    (store16 rt_msghdr.rtm_index (dv4_index dv4)
       (store32 rt_msghdr.rtm_seq seqno
          (store32 rt_msghdr.rtm_addrs
             (Z.lor (Z.lor RTA_DST RTA_GATEWAY) RTA_NETMASK)
             (store8 rt_msghdr.rtm_type RTM_DELETE
                (store8 rt_msghdr.rtm_version RTM_VERSION
                   (replicate rt_msghdr.size x00)))))).

End route_headers.

(** ** newd.c: the supervisor

    The functions of [newd.c] that send the configuration to the
    children, reload it and shut the daemon down.  They work on the heap
    of configurations and groups of [merge_config], and their calls are
    recorded in a trace of their own. *)

Definition ECHILD : Z := 10.

(** [enum { PROC_MAIN, PROC_ENGINE, PROC_FRONTEND }] of [newd.h]. *)
Inductive process :=
| PROC_MAIN
| PROC_ENGINE
| PROC_FRONTEND.

(** What [data] and [datalen] of a message designate; of a
    [struct ctl_main_info], which [control.h] declares, the member
    [text] is kept. *)
Inductive payload :=
| NoData
| ConfData (c : newd_conf)
| GroupData (g : group)
| CtlData (text : list byte).

(** A channel is named by the process at its other end: [PROC_FRONTEND]
    stands for [iev_frontend] and [PROC_ENGINE] for [iev_engine].
    [SupEventAdd] records a call of [imsg_event_add]; [LibeventDel],
    [LibeventSet], [LibeventAdd] and [LibeventLoopexit] are the calls
    of [event_del], [event_set], [event_add] and [event_loopexit].
    [SupLogDebugType] is a call of [log_debug] whose one argument is
    the type of a message. *)
Inductive sup_event :=
| SupCompose (iev : process) (type : imsg_type) (peerid pid fd : Z)
    (data : payload)
| SupEventAdd (iev : process)
| SupMsgbufClear (iev : process)
| SupClose (iev : process)
| SupControlCleanup (csock : Z)
| SupLogWarnx (fmt : string) (args : list log_arg)
| SupLogDebug (fmt : string)
| SupLogInfo (fmt : string)
| SupFree (iev : process)
| SupLogDebugType (fmt : string) (type : imsg_type)
| SupLogVerbose (verbose : list byte)
| SupImsgFree
| LibeventDel (iev : process)
| LibeventSet (iev : process) (events : Z)
| LibeventAdd (iev : process)
| LibeventLoopexit.

(** The state the functions share: the heap, and the number of calls
    of [imsg_compose] made so far. *)
Record sup_state := {
  sup_heap : heap;
  composed : nat;
}.

(** How a run ends: it returns, the process exits with a status, it
    exits inside [fatal] with the given message ([None] for
    [fatal(NULL)]), or it uses a pointer that does not point to a live
    object, after which nothing is known. *)
Inductive sup_result (A : Type) :=
| Done (a : A) (s : sup_state)
| Exit (status : Z)
| Fatal (msg : option string)
| Undefined.
Arguments Done {A} a s.
Arguments Exit {A} status.
Arguments Fatal {A} msg.
Arguments Undefined {A}.

Definition Sup (A : Type) : Type := sup_state → sup_result A * list sup_event.

Definition sup_ret {A} (a : A) : Sup A := λ s, (Done a s, []).

Definition sup_bind {A B} (c : Sup A) (k : A → Sup B) : Sup B :=
  λ s,
    match c s with
    | (Done a s', t1) => let '(r, t2) := k a s' in (r, t1 ++ t2)
    | (Exit status, t1) => (Exit status, t1)
    | (Fatal msg, t1) => (Fatal msg, t1)
    | (Undefined, t1) => (Undefined, t1)
    end.

#[global] Instance Sup_ret : MRet Sup := @sup_ret.
#[global] Instance Sup_bind : MBind Sup := λ A B k c, sup_bind c k.

(** [WIFSIGNALED] and [WTERMSIG] of <sys/wait.h>. *)
Definition WSTATUS (status : Z) : Z := Z.land status 127.
Definition WIFSIGNALED (status : Z) : bool :=
  bool_decide (WSTATUS status ≠ 127) && bool_decide (WSTATUS status ≠ 0).
Definition WTERMSIG (status : Z) : Z := WSTATUS status.

(** The object [calloc] returns for a [struct newd_conf], after
    [LIST_INIT]. *)
Definition conf_zero : newd_conf :=
  {| csock := 0; opts := 0; yesno := 0; global_yesno := 0;
     integer := 0; global_integer := 0; v4_bits := 0; global_v4_bits := 0;
     v6_bits := 0; global_v6_bits := 0;
     v4address := replicate 4 x00;
     global_v4address := replicate 4 x00;
     v6address := replicate 16 x00;
     global_v6address := replicate 16 x00;
     text := replicate NEWD_MAXTEXT x00;
     global_text := replicate NEWD_MAXTEXT x00;
     group_list := [] |}.

Module supervisor.

Definition emit (e : sup_event) : Sup unit := λ s, (Done () s, [e]).

Definition fatal {A} (msg : option string) : Sup A := λ _, (Fatal msg, []).

Definition exit {A} (status : Z) : Sup A := λ _, (Exit status, []).

(** Reading [*p] for a pointer to a configuration or to a group. *)
Definition get_conf (p : ptr) : Sup newd_conf :=
  λ s,
    match confs (sup_heap s) !! p with
    | Some c => (Done c s, [])
    | None => (Undefined, [])
    end.

Definition get_group (p : ptr) : Sup group :=
  λ s,
    match groups (sup_heap s) !! p with
    | Some g => (Done g s, [])
    | None => (Undefined, [])
    end.

(** [free(p)] for a pointer to a configuration. *)
Definition free_conf (p : ptr) : Sup unit :=
  λ s,
    match confs (sup_heap s) !! p with
    | Some _ =>
        (Done ()
           {| sup_heap :=
                {| confs := delete p (confs (sup_heap s));
                   groups := groups (sup_heap s) |};
              composed := composed s |}, [])
    | None => (Undefined, [])
    end.

(** [merge_config] on the heap of the state. *)
Definition merge_config (conf xconf : ptr) : Sup unit :=
  λ s,
    match merge_config conf xconf (sup_heap s) with
    | Some h => (Done () {| sup_heap := h; composed := composed s |}, [])
    | None => (Undefined, [])
    end.

Section compose.
(** What the successive calls of [imsg_compose] return. *)
Variable imsg_compose_ret : nat → Z.

Definition imsg_compose (iev : process) (type : imsg_type)
    (peerid pid fd : Z) (data : payload) : Sup Z :=
  λ s,
    (Done (imsg_compose_ret (composed s))
       {| sup_heap := sup_heap s; composed := S (composed s) |},
     [SupCompose iev type peerid pid fd data]).

(** The call of [imsg_event_add], which the model of the handlers
    spells out. *)
Definition imsg_event_add (iev : process) : Sup unit :=
  emit (SupEventAdd iev).

Definition imsg_compose_event (iev : process) (type : imsg_type)
    (peerid pid fd : Z) (data : payload) : Sup Z :=
  ret ← imsg_compose iev type peerid pid fd data;
  (if bool_decide (ret ≠ -1) then imsg_event_add iev else mret ());;
  mret ret.

Definition main_sendboth (type : imsg_type) (buf : payload) : Sup Z :=
  r ← imsg_compose_event PROC_FRONTEND type 0 0 (-1) buf;
  if bool_decide (r = -1) then mret (-1)
  else
    r ← imsg_compose_event PROC_ENGINE type 0 0 (-1) buf;
    if bool_decide (r = -1) then mret (-1) else mret 0.

(** The [LIST_FOREACH] of [main_imsg_send_config]; the result is -1 when
    the loop was left by [return (-1)]. *)
Fixpoint send_groups (l : list ptr) : Sup Z :=
  match l with
  | [] => mret 0
  | g :: l' =>
      gd ← get_group g;
      r ← main_sendboth IMSG_RECONF_GROUP (GroupData gd);
      if bool_decide (r = -1) then mret (-1) else send_groups l'
  end.

Definition main_imsg_send_config (xconf : ptr) : Sup Z :=
  x ← get_conf xconf;
  r ← main_sendboth IMSG_RECONF_CONF (ConfData x);
  if bool_decide (r = -1) then mret (-1)
  else
    r ← send_groups (group_list x);
    if bool_decide (r = -1) then mret (-1)
    else
      r ← main_sendboth IMSG_RECONF_END NoData;
      if bool_decide (r = -1) then mret (-1) else mret 0.

(** [main_reload]; [parse_config_ret] is what [parse_config] returns,
    and the heap of the state is the one it leaves. *)
Definition main_reload (main_conf : ptr) (parse_config_ret : option ptr)
    : Sup Z :=
  _ ← get_conf main_conf;
  match parse_config_ret with
  | None => mret (-1)
  | Some xconf =>
      r ← main_imsg_send_config xconf;
      if bool_decide (r = -1) then mret (-1)
      else
        merge_config main_conf xconf;;
        mret 0
  end.

End compose.

(** [config_new_empty]; [calloc_ret] is what [calloc] returns. *)
Definition config_new_empty (calloc_ret : option ptr) : Sup ptr :=
  match calloc_ret with
  | None => fatal None
  | Some xconf =>
      λ s,
        (Done xconf
           {| sup_heap :=
                {| confs := <[xconf := conf_zero]> (confs (sup_heap s));
                   groups := groups (sup_heap s) |};
              composed := composed s |}, [])
  end.

Definition config_clear (conf : ptr) (calloc_ret : option ptr) : Sup unit :=
  xconf ← config_new_empty calloc_ret;
  merge_config conf xconf;;
  free_conf conf.

(** The [do] loop of [main_shutdown].  [waits] lists what the
    successive calls of [wait] give: the result, the status and
    [errno]; the call after the last one finds no child left and fails
    with [ECHILD]. *)
Fixpoint wait_children (engine_pid : Z) (waits : list (Z * Z * Z))
    : Sup unit :=
  match waits with
  | [] => mret ()
  | (pid, status, errno) :: waits' =>
      (if bool_decide (pid = -1) then
         if bool_decide (errno ≠ EINTR ∧ errno ≠ ECHILD)
         then fatal (Some "wait")
         else mret ()
       else if WIFSIGNALED status then
         emit (SupLogWarnx "%s terminated; signal %d"
                 [ArgStr (if bool_decide (pid = engine_pid)
                          then "engine" else "frontend");
                  ArgInt (WTERMSIG status)])
       else mret ());;
      if bool_decide (pid ≠ -1 ∨ (pid = -1 ∧ errno = EINTR))
      then wait_children engine_pid waits'
      else mret ()
  end.

Definition main_shutdown {A} (main_conf : ptr) (engine_pid : Z)
    (calloc_ret : option ptr) (waits : list (Z * Z * Z)) : Sup A :=
  emit (SupMsgbufClear PROC_FRONTEND);;
  emit (SupClose PROC_FRONTEND);;
  emit (SupMsgbufClear PROC_ENGINE);;
  emit (SupClose PROC_ENGINE);;
  c ← get_conf main_conf;
  emit (SupControlCleanup (csock c));;
  config_clear main_conf calloc_ret;;
  emit (SupLogDebug "waiting for children to terminate");;
  wait_children engine_pid waits;;
  emit (SupFree PROC_FRONTEND);;
  emit (SupFree PROC_ENGINE);;
  free_conf main_conf;;
  emit (SupLogInfo "terminating");;
  exit 0.

End supervisor.

(** The messages a trace composes, with the channel of each. *)
Definition composes (t : list sup_event)
    : list (process * imsg_type * payload) :=
  omap (λ e, match e with
             | SupCompose iev type _ _ _ data => Some (iev, type, data)
             | _ => None
             end) t.

(** The messages that carry a configuration to the children: the fixed
    part, the groups, and the end marker, each for the frontend and
    then for the engine. *)
Definition both (type : imsg_type) (data : payload)
    : list (process * imsg_type * payload) :=
  [(PROC_FRONTEND, type, data); (PROC_ENGINE, type, data)].

Definition config_messages (x : newd_conf) (gs : list group)
    : list (process * imsg_type * payload) :=
  both IMSG_RECONF_CONF (ConfData x)
  ++ (gs ≫= λ g, both IMSG_RECONF_GROUP (GroupData g))
  ++ both IMSG_RECONF_END NoData.

(** The first of the next [n] calls of [imsg_compose] that fails, when
    [k] calls have been made. *)
Fixpoint first_failure (imsg_compose_ret : nat → Z) (k n : nat)
    : option nat :=
  match n with
  | O => None
  | S n' =>
      if bool_decide (imsg_compose_ret k = -1) then Some O
      else S <$> first_failure imsg_compose_ret (S k) n'
  end.

(** The heap of a state with the counter of calls left aside. *)
Definition with_heap (h : heap) (s : sup_state) : sup_state :=
  {| sup_heap := h; composed := composed s |}.

(** A supervisor with [sample_heap], before any call of
    [imsg_compose]. *)
Definition sample_sup : sup_state :=
  {| sup_heap := sample_heap; composed := 0 |}.

(** The calls a list of messages gives rise to when it is sent message
    by message until [imsg_compose] fails: each call, followed by
    [imsg_event_add] on its channel when it succeeds; [k] calls have
    been made before. *)
Fixpoint sent (imsg_compose_ret : nat → Z) (k : nat)
    (msgs : list (process * imsg_type * payload)) : list sup_event :=
  match msgs with
  | [] => []
  | (iev, type, data) :: msgs' =>
      SupCompose iev type 0 0 (-1) data ::
      (if bool_decide (imsg_compose_ret k = -1) then []
       else SupEventAdd iev :: sent imsg_compose_ret (S k) msgs')
  end.

(** The warnings of the loop of [main_shutdown] for the children that
    [wait] reports as ended by a signal. *)
Definition signalled (engine_pid : Z) (waits : list (Z * Z * Z))
    : list sup_event :=
  omap (λ '(pid, status, errno),
          if bool_decide (pid ≠ -1) && WIFSIGNALED status
          then Some (SupLogWarnx "%s terminated; signal %d"
                       [ArgStr (if bool_decide (pid = engine_pid)
                                then "engine" else "frontend");
                        ArgInt (WTERMSIG status)])
          else None) waits.

(** [imsg_compose] fails at its fourth call. *)
Definition fourth_fails (k : nat) : Z :=
  if bool_decide (k = 3%nat) then -1 else 1.

(** ** newd.c: starting the children *)

From Stdlib Require Import Ascii.

Definition CONF_FILE : string := "/etc/newd.conf".
Definition NEWD_SOCKET : string := "/var/run/newd.sock".
Definition OPT_VERBOSE : Z := 1.
Definition OPT_VERBOSE2 : Z := 2.
Definition OPT_NOACTION : Z := 4.

Inductive child_event :=
| ChClose (fd : Z)
| ChDup2 (oldd newd : Z)
| ChExecvp (file : string) (argv : list (option string)).

(** How [start_child] ends: it returns in the parent, it ends in
    [fatal] or [fatalx], or [execvp] has replaced the program. *)
Inductive child_result :=
| Returned (pid : Z)
| ChildFatal (msg : string)
| Replaced.

(** [start_child], given what [fork] and [dup2] return and whether
    [execvp] comes back.  [argv] is the array as the assignments fill
    it, entry by entry; [None] is [NULL]. *)
Definition start_child (p : process) (argv0 : string) (fd debug verbose : Z)
    (sockname : option string) (fork_ret dup2_ret : Z) (execvp_fails : bool)
    : child_result * list child_event :=
  let argv : list (option string) := [] in
  if bool_decide (fork_ret = -1) then (ChildFatal "cannot fork", [])
  else if bool_decide (fork_ret = 0) then
    if bool_decide (dup2_ret = -1)
    then (ChildFatal "cannot setup imsg fd", [ChDup2 fd 3])
    else
      let argv := argv ++ [Some argv0] in
      match
        match p with
        | PROC_MAIN => None
        | PROC_ENGINE => Some (argv ++ [Some "-E"%string])
        | PROC_FRONTEND => Some (argv ++ [Some "-F"%string])
        end
      with
      | None => (ChildFatal "Can not start main process", [ChDup2 fd 3])
      | Some argv =>
          let argv :=
            if bool_decide (debug ≠ 0) then argv ++ [Some "-d"%string]
            else argv in
          let argv :=
            if bool_decide (verbose ≠ 0) then argv ++ [Some "-v"%string]
            else argv in
          let argv :=
            match sockname with
            | Some s => argv ++ [Some "-s"%string] ++ [Some s]
            | None => argv
            end in
          let argv := argv ++ [None] in
          (if execvp_fails then ChildFatal "execvp" else Replaced,
           [ChDup2 fd 3; ChExecvp argv0 argv])
      end
  else (Returned fork_ret, [ChClose fd]).

(** [getopt] of the C library with the option string of [main], as
    POSIX describes it: the elements of the argument vector behind the
    program name are scanned in order; an element that begins with
    [-] and is longer than that is a group of option characters, [--]
    ends the options, and the first element that is neither ends them as
    well.  An option that takes an argument takes the rest of its
    element, or the next element when nothing is left of its own.  What
    [getopt] reports is [GetoptBad] for an unknown option or a missing
    argument. *)
Inductive getopt_result :=
| GetoptOpt (ch : Ascii.ascii) (optarg : option string)
| GetoptBad.

Definition optstring : string := "dEFf:ns:v".

(** Whether [c] is an option of the option string, and then whether it
    takes an argument. *)
Fixpoint find_opt (c : Ascii.ascii) (opts : string) : option bool :=
  match opts with
  | EmptyString => None
  | String o opts' =>
      if Ascii.eqb c o && negb (Ascii.eqb c ":"%char)
      then Some match opts' with
                | String o' _ => Ascii.eqb o' ":"%char
                | EmptyString => false
                end
      else find_opt c opts'
  end.

(** The options of one element, and whether the next element was used
    up as an argument. *)
Fixpoint getopt_element (chars : string) (next : option string)
    : list getopt_result * bool :=
  match chars with
  | EmptyString => ([], false)
  | String c rest =>
      match find_opt c optstring with
      | None => ([GetoptBad], false)
      | Some false =>
          let '(rs, used) := getopt_element rest next in
          (GetoptOpt c None :: rs, used)
      | Some true =>
          match rest with
          | EmptyString =>
              match next with
              | Some a => ([GetoptOpt c (Some a)], true)
              | None => ([GetoptBad], false)
              end
          | _ => ([GetoptOpt c (Some rest)], false)
          end
      end
  end.

(** The results of the successive calls of [getopt], and the elements
    left behind the options. *)
Fixpoint getopt (args : list string) : list getopt_result * list string :=
  match args with
  | [] => ([], [])
  | a :: rest =>
      match a with
      | String "-"%char (String c cs) =>
          if bool_decide (a = "--"%string) then ([], rest)
          else
            match rest with
            | [] => ((getopt_element (String c cs) None).1, [])
            | b :: rest' =>
                let '(rs, used) := getopt_element (String c cs) (Some b) in
                let '(rs', operands) :=
                  if used : bool then getopt rest' else getopt rest in
                (rs ++ rs', operands)
            end
      | _ => ([], args)
      end
  end.

(** The variables the option loop of [main] sets. *)
Record main_vars := {
  mv_debug : Z;
  mv_engine_flag : Z;
  mv_frontend_flag : Z;
  mv_opts : Z;
  mv_conffile : string;
  mv_sockname : string;
}.

Definition main_vars_init : main_vars :=
  {| mv_debug := 0; mv_engine_flag := 0; mv_frontend_flag := 0;
     mv_opts := 0; mv_conffile := CONF_FILE; mv_sockname := NEWD_SOCKET |}.

(** The [switch] of the loop; [None] is the call of [usage]. *)
Definition main_option (v : main_vars) (r : getopt_result)
    : option main_vars :=
  match r with
  | GetoptOpt "d"%char _ =>
      Some {| mv_debug := 1; mv_engine_flag := mv_engine_flag v;
              mv_frontend_flag := mv_frontend_flag v; mv_opts := mv_opts v;
              mv_conffile := mv_conffile v; mv_sockname := mv_sockname v |}
  | GetoptOpt "E"%char _ =>
      Some {| mv_debug := mv_debug v; mv_engine_flag := 1;
              mv_frontend_flag := mv_frontend_flag v; mv_opts := mv_opts v;
              mv_conffile := mv_conffile v; mv_sockname := mv_sockname v |}
  | GetoptOpt "F"%char _ =>
      Some {| mv_debug := mv_debug v; mv_engine_flag := mv_engine_flag v;
              mv_frontend_flag := 1; mv_opts := mv_opts v;
              mv_conffile := mv_conffile v; mv_sockname := mv_sockname v |}
  | GetoptOpt "f"%char (Some optarg) =>
      Some {| mv_debug := mv_debug v; mv_engine_flag := mv_engine_flag v;
              mv_frontend_flag := mv_frontend_flag v; mv_opts := mv_opts v;
              mv_conffile := optarg; mv_sockname := mv_sockname v |}
  | GetoptOpt "n"%char _ =>
      Some {| mv_debug := mv_debug v; mv_engine_flag := mv_engine_flag v;
              mv_frontend_flag := mv_frontend_flag v;
              mv_opts := Z.lor (mv_opts v) OPT_NOACTION;
              mv_conffile := mv_conffile v; mv_sockname := mv_sockname v |}
  | GetoptOpt "s"%char (Some optarg) =>
      Some {| mv_debug := mv_debug v; mv_engine_flag := mv_engine_flag v;
              mv_frontend_flag := mv_frontend_flag v; mv_opts := mv_opts v;
              mv_conffile := mv_conffile v; mv_sockname := optarg |}
  | GetoptOpt "v"%char _ =>
      let opts :=
        if bool_decide (Z.land (mv_opts v) OPT_VERBOSE ≠ 0)
        then Z.lor (mv_opts v) OPT_VERBOSE2 else mv_opts v in
      Some {| mv_debug := mv_debug v; mv_engine_flag := mv_engine_flag v;
              mv_frontend_flag := mv_frontend_flag v;
              mv_opts := Z.lor opts OPT_VERBOSE;
              mv_conffile := mv_conffile v; mv_sockname := mv_sockname v |}
  | _ => None
  end.

Fixpoint main_options (rs : list getopt_result) (v : main_vars)
    : option main_vars :=
  match rs with
  | [] => Some v
  | r :: rs' => v ← main_option v r; main_options rs' v
  end.

(** What [main] goes on as. *)
Inductive main_role :=
| Usage
| Engine (debug verbose : Z)
| Frontend (debug verbose : Z) (sockname : string)
| Supervisor (v : main_vars).

(** [main] from the option loop to the point where the process takes
    its role; [argv] begins with the program name. *)
Definition main (argv : list string) : main_role :=
  let '(rs, operands) := getopt (tail argv) in
  match main_options rs main_vars_init with
  | None => Usage
  | Some v =>
      if bool_decide (0 < length operands)%nat
         || (bool_decide (mv_engine_flag v ≠ 0)
             && bool_decide (mv_frontend_flag v ≠ 0))
      then Usage
      else if bool_decide (mv_engine_flag v ≠ 0)
      then Engine (mv_debug v) (Z.land (mv_opts v) OPT_VERBOSE)
      else if bool_decide (mv_frontend_flag v ≠ 0)
      then Frontend (mv_debug v) (Z.land (mv_opts v) OPT_VERBOSE)
             (mv_sockname v)
      else Supervisor v
  end.

(** The role [start_child] asks a child to take. *)
Definition role_of (p : process) (debug verbose : Z)
    (sockname : option string) : main_role :=
  let debug := if bool_decide (debug ≠ 0) then 1 else 0 in
  let verbose := if bool_decide (verbose ≠ 0) then OPT_VERBOSE else 0 in
  match p with
  | PROC_MAIN => Usage
  | PROC_ENGINE => Engine debug verbose
  | PROC_FRONTEND => Frontend debug verbose (default NEWD_SOCKET sockname)
  end.

(** ** newd.c: the links to the children and the signals *)

Definition SIGHUP : Z := 1.
Definition SIGINT : Z := 2.
Definition SIGTERM : Z := 15.

Module startup.
Section startup.
Variable imsg_compose_ret : nat → Z.

(** [main_imsg_send_ipc_sockets], given what [socketpair] returns and
    the two descriptors it stores. *)
Definition main_imsg_send_ipc_sockets (frontend_buf engine_buf : process)
    (socketpair_ret pipe0 pipe1 : Z) : Sup Z :=
  if bool_decide (socketpair_ret = -1) then mret (-1)
  else
    r ← supervisor.imsg_compose imsg_compose_ret frontend_buf
           IMSG_SOCKET_IPC 0 0 pipe0 NoData;
    if bool_decide (r = -1) then mret (-1)
    else
      r ← supervisor.imsg_compose imsg_compose_ret engine_buf
             IMSG_SOCKET_IPC 0 0 pipe1 NoData;
      if bool_decide (r = -1) then mret (-1) else mret 0.

(** The two calls of [main] that follow the registration of the
    channels: the links between the children are set up, and the
    configuration is sent, with a result that [main] does not look
    at. *)
Definition main_send_links (main_conf : ptr)
    (socketpair_ret pipe0 pipe1 : Z) : Sup Z :=
  r ← main_imsg_send_ipc_sockets PROC_FRONTEND PROC_ENGINE socketpair_ret
         pipe0 pipe1;
  if bool_decide (r ≠ 0)
  then supervisor.fatal (Some "could not establish imsg links"%string)
  else supervisor.main_imsg_send_config imsg_compose_ret main_conf.

(** [main_sig_handler], with what [main_reload] and [main_shutdown]
    take from their surroundings. *)
Definition main_sig_handler (sig : Z) (main_conf : ptr)
    (parse_config_ret : option ptr) (engine_pid : Z)
    (calloc_ret : option ptr) (waits : list (Z * Z * Z)) : Sup unit :=
  if bool_decide (sig = SIGTERM ∨ sig = SIGINT) then
    supervisor.main_shutdown main_conf engine_pid calloc_ret waits
  else if bool_decide (sig = SIGHUP) then
    r ← supervisor.main_reload imsg_compose_ret main_conf parse_config_ret;
    if bool_decide (r = -1)
    then supervisor.emit (SupLogWarnx "configuration reload failed" [])
    else supervisor.emit (SupLogDebug "configuration reloaded")
  else supervisor.fatal (Some "unexpected signal"%string).

End startup.
End startup.

(** ** config.c *)

Module config.
Section config.
(** What [proc.h], which is not among the sources, declares: the
    number of process ids, the ids of the parent and of the engine, and
    the two sets of configuration parts. *)
Variable PROC_MAX : nat.
Variable PROC_PARENT : nat.
Variable PROC_ENGINE : nat.
Variable CONFIG_ALL : Z.
Variable CONFIG_VMS : Z.

(** [ps->ps_what] is an array of [PROC_MAX] entries. *)
Definition config_init (ps_what : list Z) : Z * list Z :=
  let ps_what := <[PROC_PARENT := CONFIG_ALL]> ps_what in
  let ps_what := <[PROC_ENGINE := CONFIG_VMS]> ps_what in
  (0, ps_what).

(** The [for] loop of [config_setreset] from [id] on, with [todo]
    iterations to go; the result lists the processes [proc_compose] is
    called for, each with the value sent. *)
Fixpoint config_setreset_from (todo id : nat) (ps_what : list Z)
    (privsep_process : nat) (reset : Z) : list (nat * Z) :=
  match todo with
  | O => []
  | S todo' =>
      let rest :=
        config_setreset_from todo' (S id) ps_what privsep_process reset in
      if bool_decide (Z.land reset (default 0 (ps_what !! id)) = 0)
         || bool_decide (id = privsep_process)
      then rest
      else (id, reset) :: rest
  end.

Definition config_setreset (ps_what : list Z) (privsep_process : nat)
    (reset : Z) : Z * list (nat * Z) :=
  (0, config_setreset_from PROC_MAX 0 ps_what privsep_process reset).

End config.
End config.

(** ** newd.c: the handlers of the two imsg channels

    [main_dispatch_frontend] and [main_dispatch_engine], with
    [main_showinfo_ctl] and the functions of the supervisor they call.
    Here every call of [imsg_event_add] is followed into the calls of
    libevent it makes. *)

(** What the library calls of one run of a handler give.  [imsg_queue]
    lists the results of the successive calls of [imsg_get]; the call
    after the last one returns 0.  [w_queued iev k] is
    [iev->ibuf.w.queued] as [imsg_event_add] finds it when [k] calls of
    [imsg_compose] have been made.  [parse_config_ret k opts h] is the
    heap [parse_config(conffile, opts)] makes of [h], and what it
    returns, when it is called for message [k] of the queue. *)
Record channel_io := {
  imsg_read_ret : Z;
  imsg_read_errno : Z;
  msgbuf_write_ret : Z;
  msgbuf_write_errno : Z;
  imsg_queue : list imsg_get_result;
  w_queued : process → nat → Z;
  parse_config_ret : nat → Z → heap → heap * option ptr;
}.

(** The calls [imsg_event_add(iev)] makes; [queued] is
    [iev->ibuf.w.queued]. *)
Definition imsg_event_add_calls (iev : process) (queued : Z)
    : list sup_event :=
  let events := EV_READ in
  let events :=
    if bool_decide (queued ≠ 0) then Z.lor events EV_WRITE else events in
  [LibeventDel iev; LibeventSet iev events; LibeventAdd iev].

(** A trace of the supervisor in which every recorded call of
    [imsg_event_add] is replaced by the calls it makes; [k] calls of
    [imsg_compose] have been made when the trace begins. *)
Fixpoint spelled_out (queued : process → nat → Z) (k : nat)
    (t : list sup_event) : list sup_event :=
  match t with
  | [] => []
  | SupEventAdd iev :: t' =>
      imsg_event_add_calls iev (queued iev k) ++ spelled_out queued k t'
  | SupCompose iev type peerid pid fd data :: t' =>
      SupCompose iev type peerid pid fd data :: spelled_out queued (S k) t'
  | e :: t' => e :: spelled_out queued k t'
  end.

Module dispatch.
Section dispatch.
(** [sizeof(cmi.text)], from a header that is not among the sources. *)
Variable sizeof_cmi_text : nat.
(** What the successive calls of [imsg_compose] return. *)
Variable imsg_compose_ret : nat → Z.
(** The globals [main_conf] and [iev_frontend]; of the second, whether
    it is set, which it is from the time [main] sets the channels up,
    before a handler can run. *)
Variable main_conf : ptr.
Variable iev_frontend : bool.
Variable io : channel_io.

Definition imsg_event_add (iev : process) : Sup unit :=
  λ s, (Done () s, imsg_event_add_calls iev (w_queued io iev (composed s))).

(** A function of the supervisor, with the calls of [imsg_event_add] it
    records replaced by what they do. *)
Definition inlined {A} (c : Sup A) : Sup A :=
  λ s, let '(r, t) := c s in (r, spelled_out (w_queued io) (composed s) t).

Definition imsg_compose_event (iev : process) (type : imsg_type)
    (peerid pid fd : Z) (data : payload) : Sup Z :=
  ret ← supervisor.imsg_compose imsg_compose_ret iev type peerid pid fd data;
  (if bool_decide (ret ≠ -1) then imsg_event_add iev else mret ());;
  mret ret.

Definition main_imsg_compose_frontend (type : imsg_type) (pid : Z)
    (data : payload) : Sup unit :=
  if iev_frontend then
    imsg_compose_event PROC_FRONTEND type 0 pid (-1) data;;
    mret ()
  else mret ().

(** The call of [parse_config] for message [k]. *)
Definition parse_config (k : nat) (opts : Z) : Sup (option ptr) :=
  λ s,
    let '(h, r) := parse_config_ret io k opts (sup_heap s) in
    (Done r (with_heap h s), []).

(** The use of a pointer that is not set. *)
Definition undefined {A} : Sup A := λ _, (Undefined, []).

(** [main_reload], called for message [k].  [main_imsg_send_config]
    begins with a message for [iev_frontend], which it uses without the
    test [main_imsg_compose_frontend] makes. *)
Definition main_reload (k : nat) : Sup Z :=
  c ← supervisor.get_conf main_conf;
  xconf ← parse_config k (opts c);
  match xconf with
  | None => mret (-1)
  | Some xconf =>
      r ← (if iev_frontend then
             inlined (supervisor.main_imsg_send_config imsg_compose_ret xconf)
           else undefined);
      if bool_decide (r = -1) then mret (-1)
      else
        supervisor.merge_config main_conf xconf;;
        mret 0
  end.

Definition main_showinfo_ctl (type : imsg_type) (pid : Z) : Sup unit :=
  match type with
  | IMSG_CTL_SHOW_MAIN_INFO =>
      let say (s : string) : Sup unit :=
        let text := strlcpy (bytes_of_string s) sizeof_cmi_text in
        (if bool_decide (sizeof_cmi_text ≤ length (bytes_of_string s))%nat
         then supervisor.emit (SupLogDebug "main_showinfo_ctl: I was cut off!")
         else mret ());;
        main_imsg_compose_frontend IMSG_CTL_SHOW_MAIN_INFO pid
          (CtlData text) in
      say "I'm a little teapot.";;
      say "Full of sencha.";;
      main_imsg_compose_frontend IMSG_CTL_END pid NoData
  | _ =>
      supervisor.emit (SupLogDebug "main_showinfo_ctl: error handling imsg")
  end.







End dispatch.
End dispatch.

(** ** Notions used to state the properties of the handlers *)










(** The channel is registered again: for reading, and for writing as
    well exactly when output is queued. *)
Definition registered (bula : process) (queued : Z) : list sup_event :=
  [LibeventDel bula;
   LibeventSet bula
     (if bool_decide (queued ≠ 0) then Z.lor EV_READ EV_WRITE else EV_READ);
   LibeventAdd bula].



(** One message for the frontend as [main_imsg_compose_frontend] sends
    it: the call of [imsg_compose], number [k], and the registration
    that follows it when the call succeeds. *)
Definition reply (imsg_compose_ret : nat → Z) (queued : process → nat → Z)
    (k : nat) (type : imsg_type) (pid : Z) (data : payload)
    : list sup_event :=
  SupCompose PROC_FRONTEND type 0 pid (-1) data ::
  (if bool_decide (imsg_compose_ret k = -1) then []
   else registered PROC_FRONTEND (queued PROC_FRONTEND (S k))).

(** ** Sample runs of the handlers *)

(** A heap with the running configuration only. *)
Definition running_heap : heap :=
  {| confs := {[ 1%positive := sample_conf 0 [10; 11]%positive ]};
     groups := {[ 10%positive := sample_group 10;
                  11%positive := sample_group 11 ]} |}.

Definition running_sup : sup_state :=
  {| sup_heap := running_heap; composed := 0 |}.

(** [parse_config] finds no configuration. *)
Definition parse_fails (k : nat) (opts : Z) (h : heap)
    : heap * option ptr :=
  (h, None).




(** The read would block, and a request for the main info is
    waiting. *)
Definition would_block : channel_io :=
  {| imsg_read_ret := -1;
     imsg_read_errno := EAGAIN;
     msgbuf_write_ret := 0;
     msgbuf_write_errno := 0;
     imsg_queue := [ImsgGot IMSG_CTL_SHOW_MAIN_INFO 77 []];
     w_queued := λ _ k, Z.of_nat k;
     parse_config_ret := parse_fails |}.




(** [imsg_compose] fails at its second call. *)
Definition second_fails (k : nat) : Z :=
  if bool_decide (k = 1%nat) then -1 else 1.

(** ** Auxiliary facts

    *** Bytes and [ROUNDUP] *)
Lemma byte_val_range b : 0 ≤ byte_val b < 256.
Proof.
  unfold byte_val. pose proof (Byte.to_N_bounded b). lia.
Qed.

Lemma peek8_range m a : 0 ≤ peek8 m a < 256.
Proof. apply byte_val_range. Qed.

Lemma peek16_range be m a : 0 ≤ peek16 be m a < 65536.
Proof.
  unfold peek16.
  pose proof (peek8_range m a). pose proof (peek8_range m (a + 1)).
  destruct be; lia.
Qed.

Section roundup.
Context `{P : Platform}.
Hypothesis HP : PlatformOk P.

Lemma sizeof_long_ones :
  ∃ k, 0 ≤ k ∧ sizeof_long = 2 ^ k ∧ sizeof_long - 1 = Z.ones k.
Proof.
  destruct (long_size P HP) as [-> | ->]; [exists 2 | exists 3]; done.
Qed.

Lemma ROUNDUP_spec a :
  ROUNDUP a mod sizeof_long = 0 ∧ a ≤ ROUNDUP a < a + sizeof_long.
Proof.
  destruct sizeof_long_ones as (k & Hk & H2 & H1).
  unfold ROUNDUP. rewrite H1, Z.land_ones by done. rewrite H2.
  assert (0 < 2 ^ k) by (apply Z.pow_pos_nonneg; lia).
  pose proof (Z.mod_pos_bound a (2 ^ k) ltac:(lia)).
  case_bool_decide as Hm.
  - pose proof (Z.add_lor_land a (Z.ones k)) as Hl.
    rewrite Z.land_ones in Hl by done.
    rewrite Z.ones_equiv in *.
    assert (1 + Z.lor a (Z.pred (2 ^ k)) = 2 ^ k * (a / 2 ^ k + 1)) as ->.
    { pose proof (Z.div_mod a (2 ^ k)). lia. }
    split.
    + rewrite Z.mul_comm. apply Z.mod_mul. lia.
    + pose proof (Z.div_mod a (2 ^ k)). lia.
  - assert (a mod 2 ^ k = 0) by lia. lia.
Qed.
End roundup.

(** *** Running computations *)

Lemma only_loads_nil : only_loads [].
Proof. constructor. Qed.

Lemma only_loads_app t1 t2 : only_loads t1 → only_loads t2 → only_loads (t1 ++ t2).
Proof. apply Forall_app_2. Qed.

Lemma only_loads_fmap l : only_loads (EvLoad <$> l).
Proof. apply Forall_fmap, Forall_true. intros a. by exists a. Qed.

Lemma bind_run {A B} (c : M A) (k : A → M B) m :
  (c ≫= k) m =
  match c m with
  | (Ret a, t1) => let '(r, t2) := k a m in (r, t1 ++ t2)
  | (Exited, t1) => (Exited, t1)
  | (OutOfFuel, t1) => (OutOfFuel, t1)
  end.
Proof. reflexivity. Qed.

Lemma bind_run_ret {A B} (c : M A) (k : A → M B) m a t1 :
  c m = (Ret a, t1) →
  (c ≫= k) m = (fst (k a m), t1 ++ snd (k a m)).
Proof. intros H. rewrite bind_run, H. by destruct (k a m). Qed.

(** [addrs & (1 << i)] tests bit [i]. *)
Lemma land_shiftl_1 a i :
  0 ≤ i → Z.land a (Z.shiftl 1 i) ≠ 0 ↔ Z.testbit a i = true.
Proof.
  intros Hi. rewrite Z.shiftl_1_l.
  destruct (Z.testbit a i) eqn:Hb.
  - split; [done|]. intros _ H0.
    assert (Z.testbit (Z.land a (2 ^ i)) i = true) as Ht.
    { by rewrite Z.land_spec, Hb, Z.pow2_bits_true. }
    rewrite H0, Z.bits_0 in Ht. done.
  - split; [|done]. intros H. exfalso. apply H.
    apply Z.bits_inj'. intros n Hn.
    rewrite Z.land_spec, Z.bits_0.
    destruct (decide (n = i)) as [->|].
    + by rewrite Hb.
    + rewrite Z.pow2_bits_false by done. apply andb_false_r.
Qed.

(** *** [get_rtaddrs] *)

Section get_rtaddrs_facts.
Context `{P : Platform}.

Lemma get_rtaddrs_from_S todo i addrs sa v6 rti m :
  get_rtaddrs_from (S todo) i addrs sa v6 rti m =
  if Z.testbit addrs (Z.of_nat i) then
    let r :=
      get_rtaddrs_from todo (S i) addrs
        (sa + ROUNDUP (peek8 m (sa + sockaddr.sa_len)))
        (if bool_decide (peek8 m (sa + sockaddr.sa_family) = AF_INET)
         then 0 else v6)
        (<[i := Some sa]> rti) m in
    (r.1, [EvLoad (sa + sockaddr.sa_family); EvLoad (sa + sockaddr.sa_len)] ++ r.2)
  else get_rtaddrs_from todo (S i) addrs sa v6 (<[i := None]> rti) m.
Proof.
  cbn [get_rtaddrs_from].
  pose proof (land_shiftl_1 addrs (Z.of_nat i) ltac:(lia)) as Hb.
  case_bool_decide as Hd.
  - rewrite (proj1 Hb Hd).
    unfold mbind, M_bind, bind, load8. cbn.
    rewrite !Z.add_0_r.
    by destruct (get_rtaddrs_from _ _ _ _ _ _ _) as [[] ?].
  - destruct (Z.testbit addrs (Z.of_nat i)); [|done].
    by destruct (proj2 Hb eq_refl).
Qed.

Lemma get_rtaddrs_from_spec todo : ∀ i addrs sa v6 rti m,
  (i + todo ≤ length rti)%nat →
  ∃ v6' rti' t,
    get_rtaddrs_from todo i addrs sa v6 rti m = (Ret (v6', rti'), t)
    ∧ only_loads t
    ∧ length rti' = length rti
    ∧ (∀ j, (j < i ∨ i + todo ≤ j)%nat → rti' !! j = rti !! j)
    ∧ (∀ j, (i ≤ j < i + todo)%nat →
         if Z.testbit addrs (Z.of_nat j)
         then ∃ p, rti' !! j = Some (Some p)
         else rti' !! j = Some None)
    ∧ (∀ j q, (i ≤ j < i + todo)%nat → rti' !! j = Some (Some q) →
         (∀ k, (i ≤ k < j)%nat → rti' !! k = Some None) → q = sa)
    ∧ (∀ j1 j2 p q, (i ≤ j1 < j2)%nat → (j2 < i + todo)%nat →
         rti' !! j1 = Some (Some p) → rti' !! j2 = Some (Some q) →
         (∀ k, (j1 < k < j2)%nat → rti' !! k = Some None) →
         q = p + ROUNDUP (peek8 m (p + sockaddr.sa_len)))
    ∧ (v6' = 0 ↔
         v6 = 0 ∨ ∃ j p, (i ≤ j < i + todo)%nat ∧ rti' !! j = Some (Some p)
                          ∧ peek8 m (p + sockaddr.sa_family) = AF_INET)
    ∧ (v6' = 0 ∨ v6' = v6).
Proof.
  induction todo as [|todo IH]; intros i addrs sa v6 rti m Hfit.
  - exists v6, rti, []. split_and!; try done.
    + constructor.
    + intros; lia.
    + intros; lia.
    + intros; lia.
    + split; [by left|]. intros [?|(j & p & ? & _)]; [done|lia].
    + by right.
  - rewrite get_rtaddrs_from_S.
    destruct (Z.testbit addrs (Z.of_nat i)) eqn:Hbit.
    + edestruct (IH (S i) addrs (sa + ROUNDUP (peek8 m (sa + sockaddr.sa_len)))
        (if bool_decide (peek8 m (sa + sockaddr.sa_family) = AF_INET) then 0 else v6)
        (<[i:=Some sa]> rti) m)
        as (v6' & rti' & t & -> & Hl & Hlen & Hfr & Hpr & Hfirst & Hadv & Hv6 & Hmono).
      { rewrite length_insert. lia. }
      rewrite length_insert in *.
      assert (Hi : rti' !! i = Some (Some sa)).
      { rewrite Hfr by lia. apply list_lookup_insert_eq. lia. }
      eexists v6', rti', _. split_and!; try done.
      * apply only_loads_app; [|done]. apply (only_loads_fmap [_; _]).
      * intros j Hj. rewrite Hfr by lia. apply list_lookup_insert_ne. lia.
      * intros j Hj. destruct (decide (j = i)) as [->|].
        { rewrite Hbit. by exists sa. }
        apply Hpr; lia.
      * intros j q Hj Hq Hnone. destruct (decide (j = i)) as [->|].
        { by simplify_eq. }
        specialize (Hnone i ltac:(lia)). by simplify_eq.
      * intros j1 j2 p q Hj Hj2 Hp Hq Hnone.
        destruct (decide (j1 = i)) as [->|].
        { simplify_eq.
          apply (Hfirst j2); [lia|done|]. intros k Hk. apply Hnone. lia. }
        apply (Hadv j1 j2); try done; lia.
      * rewrite Hv6. split.
        { intros [H0|(j & p & Hj & Hp & Hf)].
          - case_bool_decide as Hfam; [|by left].
            right. exists i, sa. split; [lia|done].
          - right. exists j, p. split; [lia|done]. }
        { intros [->|(j & p & Hj & Hp & Hf)].
          - left. by case_bool_decide.
          - destruct (decide (j = i)) as [->|].
            + simplify_eq. left. by rewrite bool_decide_eq_true_2.
            + right. exists j, p. split; [lia|done]. }
      * destruct Hmono as [->| ->]; [by left|].
        case_bool_decide; [by left|by right].
    + edestruct (IH (S i) addrs sa v6 (<[i:=None]> rti) m)
        as (v6' & rti' & t & -> & Hl & Hlen & Hfr & Hpr & Hfirst & Hadv & Hv6 & Hmono).
      { rewrite length_insert. lia. }
      rewrite length_insert in *.
      assert (Hi : rti' !! i = Some None).
      { rewrite Hfr by lia. apply list_lookup_insert_eq. lia. }
      eexists v6', rti', _. split_and!; try done.
      * intros j Hj. rewrite Hfr by lia. apply list_lookup_insert_ne. lia.
      * intros j Hj. destruct (decide (j = i)) as [->|].
        { by rewrite Hbit. }
        apply Hpr; lia.
      * intros j q Hj Hq Hnone. destruct (decide (j = i)) as [->|].
        { by simplify_eq. }
        apply (Hfirst j); [lia|done|]. intros k Hk. apply Hnone. lia.
      * intros j1 j2 p q Hj Hj2 Hp Hq Hnone.
        destruct (decide (j1 = i)) as [->|].
        { by simplify_eq. }
        apply (Hadv j1 j2); try done; lia.
      * rewrite Hv6. split.
        { intros [H0|(j & p & Hj & Hp & Hf)]; [by left|].
          right. exists j, p. split; [lia|done]. }
        { intros [->|(j & p & Hj & Hp & Hf)]; [by left|].
          destruct (decide (j = i)) as [->|].
          - by simplify_eq.
          - right. exists j, p. split; [lia|done]. }
Qed.
End get_rtaddrs_facts.

Lemma only_loads_actions t : only_loads t → actions t = [].
Proof.
  induction 1 as [|e t [a ->] _ IH]; [done|]. done.
Qed.

Lemma actions_app t1 t2 : actions (t1 ++ t2) = actions t1 ++ actions t2.
Proof. apply omap_app. Qed.

Lemma reads_to_ret {A} (a : A) m (Q : A → Prop) : Q a → reads_to (mret a) m Q.
Proof. intros. exists a, []. split_and!; [done|constructor|done]. Qed.

Lemma reads_to_bind {A B} (c : M A) (k : A → M B) m (Q : A → Prop) (R : B → Prop) :
  reads_to c m Q → (∀ a, Q a → reads_to (k a) m R) → reads_to (c ≫= k) m R.
Proof.
  intros (a & t1 & Hc & Ht1 & Ha) Hk.
  destruct (Hk a Ha) as (b & t2 & Hb & Ht2 & HR).
  exists b, (t1 ++ t2). rewrite (bind_run_ret _ _ _ _ _ Hc), Hb.
  split_and!; [done|by apply only_loads_app|done].
Qed.

Lemma reads_to_weaken {A} (c : M A) m (Q R : A → Prop) :
  reads_to c m Q → (∀ a, Q a → R a) → reads_to c m R.
Proof. intros (a & t & ? & ? & ?) HQR. exists a, t. auto. Qed.

Lemma reads_to_load8 a m : reads_to (load8 a) m (λ v, v = peek8 m a).
Proof. eexists _, _. split_and!; [done|apply only_loads_fmap|done]. Qed.

(** *** Building a proposal *)

Section loads.
Context `{P : Platform}.

Lemma reads_to_load16 a m :
  reads_to (load16 a) m (λ v, v = peek16 big_endian m a).
Proof. eexists _, _. split_and!; [done|apply only_loads_fmap|done]. Qed.

Lemma reads_to_load32 a m :
  reads_to (load32 a) m (λ v, v = peek32 big_endian m a).
Proof. eexists _, _. split_and!; [done|apply only_loads_fmap|done]. Qed.

Lemma reads_to_load_int a m :
  reads_to (load_int a) m (λ v, v = signed 32 (peek32 big_endian m a)).
Proof.
  eapply reads_to_bind; [apply reads_to_load32|].
  intros ? ->. by apply reads_to_ret.
Qed.

Lemma reads_to_load_bytes a n m :
  reads_to (load_bytes a n) m (λ bs, bs = peek_bytes m a n).
Proof. eexists _, _. split_and!; [done|apply only_loads_fmap|done]. Qed.

Lemma reads_to_copy_slot rti i off size set p m (Q : imsg_v4proposal → Prop) :
  (rti_slot rti i = None → Q p) →
  (∀ sa bs, rti_slot rti i = Some sa → Q (set bs p)) →
  reads_to (copy_slot rti i off size set p) m Q.
Proof.
  intros HN HS. unfold copy_slot. destruct (rti_slot rti i) as [sa|] eqn:Hs.
  - eapply reads_to_bind; [apply reads_to_load_bytes|].
    intros bs _. apply reads_to_ret. by eapply HS.
  - apply reads_to_ret. auto.
Qed.

(** One [copy_slot] step of [build_proposal] under the invariant [R]. *)
Ltac slot_step R :=
  let p := fresh "p" in
  let Hh := fresh "Hh" in
  let Hm := fresh "Hm" in
  let Hz := fresh "Hz" in
  let sa := fresh "sa" in
  let bs := fresh "bs" in
  let Hsa := fresh "Hsa" in
  intros p (Hh & Hm & Hz);
  eapply (reads_to_bind _ _ _ R);
  [apply reads_to_copy_slot;
   [done
   |intros sa bs Hsa; split_and!; [done|done|];
    unfold absent_is_zero in *; cbn; intros;
    destruct_and!; split_and!; try done; intros; congruence]|].

Lemma reads_to_build_proposal addr_off rtm rti m :
  reads_to (build_proposal addr_off rtm rti) m
    (λ p, header_copied m rtm p
          ∧ (Z.land (p_inits p) RTV_MTU = 0 → p_mtu p = 0)
          ∧ absent_is_zero rti p).
Proof.
  unfold build_proposal.
  set (Q := λ p, header_copied m rtm p ∧ p_mtu p = 0 ∧ absent_is_zero rti p).
  set (R := λ p, header_copied m rtm p
          ∧ (Z.land (p_inits p) RTV_MTU = 0 → p_mtu p = 0)
          ∧ absent_is_zero rti p).
  eapply (reads_to_bind _ _ _ Q).
  { unfold copy_header.
    eapply reads_to_bind; [apply reads_to_load_int|]; intros ? ->.
    eapply reads_to_bind; [apply reads_to_load32|]; intros ? ->.
    eapply reads_to_bind; [apply reads_to_load_int|]; intros ? ->.
    eapply reads_to_bind; [apply reads_to_load_int|]; intros ? ->.
    eapply reads_to_bind; [apply reads_to_load16|]; intros ? ->.
    eapply reads_to_bind; [apply reads_to_load8|]; intros ? ->.
    apply reads_to_ret. by repeat split. }
  intros p0 Hp0.
  eapply (reads_to_bind _ _ _ R).
  { destruct Hp0 as (Hh & Hm & Hz). case_bool_decide as Hb.
    - eapply reads_to_bind; [apply reads_to_load32|]; intros ? ->.
      apply reads_to_ret. split_and!; [done| |done].
      intros Hc. by destruct Hb.
    - apply reads_to_ret. by split_and!. }
  clear p0 Hp0.
  slot_step R.
  intros q1 (Hq1 & Hq2 & Hq3).
  eapply (reads_to_bind _ _ _ R).
  { destruct (rti_slot rti RTAX_SEARCH) as [sa|] eqn:Hsa.
    - eapply reads_to_bind; [apply reads_to_load8|]; intros ? ->.
      eapply reads_to_bind; [apply reads_to_load_bytes|]; intros ? ->.
      apply reads_to_ret.
      unfold R, absent_is_zero in *. rewrite Hsa.
      destruct_and!. case_bool_decide; cbn; split_and!; try done.
    - apply reads_to_ret. done. }
  do 6 slot_step R.
  intros q2 (Hq4 & Hq5 & Hq6).
  apply reads_to_copy_slot; [done|].
  intros sa bs Hsa; split_and!; [done|done|].
  unfold absent_is_zero in *; cbn; intros.
  destruct_and!; split_and!; try done; intros; congruence.
Qed.
End loads.

Lemma runs_bind {A B} (c : M A) (k : A → M B) m a acts1 r acts2 :
  runs c m (Ret a) acts1 → runs (k a) m r acts2 →
  runs (c ≫= k) m r (acts1 ++ acts2).
Proof.
  intros (t1 & Hc & <-) (t2 & Hk & <-). exists (t1 ++ t2).
  rewrite (bind_run_ret _ _ _ _ _ Hc), Hk. by rewrite actions_app.
Qed.

Lemma runs_reads {A B} (c : M A) (k : A → M B) m (Q : A → Prop) r acts :
  reads_to c m Q → (∀ a, Q a → runs (k a) m r acts) →
  runs (c ≫= k) m r acts.
Proof.
  intros (a & t & Hc & Ht & Ha) Hk.
  change acts with ([] ++ acts). eapply runs_bind; [|by apply Hk].
  exists t. by rewrite only_loads_actions.
Qed.

Lemma runs_ret {A} (a : A) m : runs (mret a) m (Ret a) [].
Proof. by exists []. Qed.

Lemma runs_emit_bind {B} e (k : M B) m r acts :
  actions [e] = [e] → runs k m r acts → runs (emit e;; k) m r (e :: acts).
Proof.
  intros He Hk. change (e :: acts) with ([e] ++ acts).
  eapply runs_bind; [|done]. by exists [e].
Qed.

Lemma runs_emit e m : actions [e] = [e] → runs (emit e) m (Ret ()) [e].
Proof. intros He. by exists [e]. Qed.

(** *** One pass of [kr_dispatch_msg] *)

Section dispatch_one.
Context `{P : Platform}.

Lemma kr_dispatch_one_partial len offset rti m :
  partial_rtm m len offset = true →
  kr_dispatch_one len offset rti m =
    (Exited,
     (if bool_decide (len < size_add offset sizeof_u_short) then []
      else EvLoad <$> footprint (offset + rt_msghdr.rtm_msglen) 2)
     ++ [EvFatal "rtmsg_process: partial rtm in buffer"]).
Proof.
  unfold partial_rtm, kr_dispatch_one. intros Hp.
  case_bool_decide as H1.
  - done.
  - cbn in Hp. unfold mbind, M_bind, bind, load16, mret, M_ret, ret. cbn.
    by rewrite Hp.
Qed.

(** What a pass over a message that is not partial does. *)
Lemma kr_dispatch_one_ok len offset rti m :
  (RTAX_MAX ≤ length rti)%nat →
  partial_rtm m len offset = false →
  let version := peek8 m (offset + rt_msghdr.rtm_version) in
  let type := peek8 m (offset + rt_msghdr.rtm_type) in
  let priority := peek8 m (offset + rt_msghdr.rtm_priority) in
  let addrs := signed 32 (peek32 big_endian m (offset + rt_msghdr.rtm_addrs)) in
  let sa := offset + peek16 big_endian m (offset + rt_msghdr.rtm_hdrlen) in
  ∃ rti' acts,
    runs (kr_dispatch_one len offset rti) m (Ret rti') acts
    ∧ length rti' = length rti
    ∧ (version ≠ RTM_VERSION → rti' = rti ∧ acts = [])
    ∧ (version = RTM_VERSION →
       ∃ v6 t0,
         get_rtaddrs addrs sa rti m = (Ret (v6, rti'), t0)
         ∧ (type ≠ RTM_PROPOSAL → acts = [])
         ∧ (type = RTM_PROPOSAL →
            ∃ p,
              acts =
                [EvLogWarnx "I see a %s RTM_PROPOSAL from %d!"
                   [ArgStr (if bool_decide (v6 ≠ 0) then "IPv6" else "IPv4");
                    ArgInt priority];
                 EvComposeEngine
                   (if bool_decide (v6 ≠ 0)
                    then IMSG_SEND_V6PROPOSAL else IMSG_SEND_V4PROPOSAL)
                   0 p]
              ∧ header_copied m offset p
              ∧ (Z.land (p_inits p) RTV_MTU = 0 → p_mtu p = 0)
              ∧ absent_is_zero rti' p)).
Proof.
  intros Hlen Hp version type priority addrs sa.
  unfold partial_rtm in Hp. apply orb_false_iff in Hp as [Hp1 Hp2].
  unfold kr_dispatch_one.
  destruct (get_rtaddrs_from_spec RTAX_MAX 0 addrs sa 1 rti m Hlen)
    as (v6 & rti' & t0 & Hget & Ht0 & Hl' & _).
  destruct (decide (version = RTM_VERSION)) as [Hv|Hv].
  - destruct (decide (type = RTM_PROPOSAL)) as [Hty|Hty].
    + destruct (reads_to_build_proposal
                  (if bool_decide (v6 ≠ 0) then sockaddr.sin6_addr else sockaddr.sin_addr)
                  offset rti' m) as (p & tp & Hbp & Htp & Hh & Hm & Hz).
      exists rti',
        [EvLogWarnx "I see a %s RTM_PROPOSAL from %d!"
           [ArgStr (if bool_decide (v6 ≠ 0) then "IPv6" else "IPv4");
            ArgInt priority];
         EvComposeEngine
           (if bool_decide (v6 ≠ 0)
            then IMSG_SEND_V6PROPOSAL else IMSG_SEND_V4PROPOSAL) 0 p].
      split_and!; [|done|done|].
      2:{ intros _. exists v6, t0. split_and!; [done|done|].
          intros _. exists p. split_and!; done. }
      rewrite Hp1.
      eapply (runs_reads _ _ _ (λ b, b = false)).
      { eapply reads_to_bind; [apply reads_to_load16|].
        intros ? ->. by apply reads_to_ret. }
      intros ? ->.
      eapply runs_reads; [apply reads_to_load8|]. intros ? ->.
      fold version. rewrite bool_decide_eq_false_2 by (by intros []).
      eapply runs_reads; [apply reads_to_load16|]. intros ? ->.
      eapply runs_reads; [apply reads_to_load_int|]. intros ? ->.
      fold addrs sa.
      eapply (runs_reads _ _ _ (λ r, r = (v6, rti'))).
      { by exists (v6, rti'), t0. }
      intros ? ->.
      eapply runs_reads; [apply reads_to_load8|]. intros ? ->.
      fold type. rewrite bool_decide_eq_true_2 by done.
      eapply runs_reads; [apply reads_to_load8|]. intros ? ->.
      fold priority.
      apply runs_emit_bind; [done|].
      change [EvComposeEngine ?k 0 p] with ([EvComposeEngine k 0 p] ++ []).
      eapply runs_bind; [|apply runs_ret].
      case_bool_decide.
      * unfold forward_v6proposal. eapply (runs_reads _ _ _ (λ r, r = p)).
        { by exists p, tp. }
        intros ? ->. by apply runs_emit.
      * unfold forward_v4proposal. eapply (runs_reads _ _ _ (λ r, r = p)).
        { by exists p, tp. }
        intros ? ->. by apply runs_emit.
    + exists rti', []. split_and!; [|done|done|].
      2:{ intros _. exists v6, t0. split_and!; done. }
      rewrite Hp1.
      eapply (runs_reads _ _ _ (λ b, b = false)).
      { eapply reads_to_bind; [apply reads_to_load16|].
        intros ? ->. by apply reads_to_ret. }
      intros ? ->.
      eapply runs_reads; [apply reads_to_load8|]. intros ? ->.
      fold version. rewrite bool_decide_eq_false_2 by (by intros []).
      eapply runs_reads; [apply reads_to_load16|]. intros ? ->.
      eapply runs_reads; [apply reads_to_load_int|]. intros ? ->.
      fold addrs sa.
      eapply (runs_reads _ _ _ (λ r, r = (v6, rti'))).
      { by exists (v6, rti'), t0. }
      intros ? ->.
      eapply runs_reads; [apply reads_to_load8|]. intros ? ->.
      fold type. rewrite bool_decide_eq_false_2 by done.
      apply runs_ret.
  - exists rti, []. split_and!; [|done|done|done].
    rewrite Hp1.
    eapply (runs_reads _ _ _ (λ b, b = false)).
    { eapply reads_to_bind; [apply reads_to_load16|].
      intros ? ->. by apply reads_to_ret. }
    intros ? ->.
    eapply runs_reads; [apply reads_to_load8|]. intros ? ->.
    fold version. rewrite bool_decide_eq_true_2 by done.
    apply runs_ret.
Qed.
End dispatch_one.

Lemma runs_exited {A B} (c : M A) (k : A → M B) m acts :
  runs c m Exited acts → runs (c ≫= k) m Exited acts.
Proof.
  intros (t & Hc & <-). exists t. by rewrite bind_run, Hc.
Qed.

Lemma bind_outcome {A B} (c : M A) (k : A → M B) m a t :
  c m = (Ret a, t) → ((c ≫= k) m).1 = (k a m).1.
Proof. intros Hc. by rewrite (bind_run_ret _ _ _ _ _ Hc). Qed.

(** *** The loop of [kr_dispatch_msg] *)

Section dispatch_loop.
Context `{P : Platform}.
Hypothesis HP : PlatformOk P.

Lemma size_bits : 32 ≤ 8 * sizeof_long.
Proof. destruct (long_size P HP) as [-> | ->]; lia. Qed.

Lemma SSIZE_MAX_bound :
  2 ^ 31 - 1 ≤ SSIZE_MAX ∧ 2 * SSIZE_MAX + 2 = 2 ^ (8 * sizeof_long).
Proof.
  unfold SSIZE_MAX. destruct (long_size P HP) as [-> | ->]; cbn; lia.
Qed.

Lemma size_add_small a b :
  0 ≤ a ≤ SSIZE_MAX → 0 ≤ b < 65536 → size_add a b = a + b.
Proof.
  intros Ha Hb. unfold size_add, wrap.
  pose proof SSIZE_MAX_bound. apply Z.mod_small. lia.
Qed.

Lemma size_add_nonneg a b : 0 ≤ size_add a b.
Proof.
  unfold size_add, wrap. pose proof size_bits.
  apply Z.mod_pos_bound. apply Z.pow_pos_nonneg; lia.
Qed.

Lemma visited_nonneg m len offset : visited m len offset → 0 ≤ offset.
Proof. destruct 1; [done|apply size_add_nonneg]. Qed.

Lemma partial_rtm_spec m len offset :
  0 ≤ offset < len → len ≤ SSIZE_MAX →
  partial_rtm m len offset = true ↔
  len - offset < sizeof_u_short
  ∨ len < offset + peek16 big_endian m (offset + rt_msghdr.rtm_msglen).
Proof.
  intros Ho Hl. unfold partial_rtm.
  pose proof (peek16_range big_endian m (offset + rt_msghdr.rtm_msglen)).
  rewrite !size_add_small by (unfold sizeof_u_short; lia).
  rewrite orb_true_iff, !bool_decide_eq_true. lia.
Qed.

Lemma kr_dispatch_loop_S fuel len offset rti m :
  offset < len →
  kr_dispatch_loop (S fuel) len offset rti m =
  (rti ← kr_dispatch_one len offset rti;
   msglen ← load16 (offset + rt_msghdr.rtm_msglen);
   kr_dispatch_loop fuel len (size_add offset msglen) rti) m.
Proof. intros Hlt. cbn [kr_dispatch_loop]. by rewrite bool_decide_eq_true_2. Qed.

Lemma kr_dispatch_loop_done fuel len offset rti m :
  ¬ offset < len →
  kr_dispatch_loop (S fuel) len offset rti m = (Ret (), []).
Proof. intros Hlt. cbn [kr_dispatch_loop]. by rewrite bool_decide_eq_false_2. Qed.

(** When a visited message is partial the loop ends in [fatalx], at
    once. *)
Lemma kr_dispatch_loop_partial fuel len offset rti m :
  offset < len →
  partial_rtm m len offset = true →
  kr_dispatch_loop (S fuel) len offset rti m =
  (Exited, (kr_dispatch_one len offset rti m).2).
Proof.
  intros Hlt Hp. rewrite kr_dispatch_loop_S by done.
  rewrite bind_run, kr_dispatch_one_partial by done. done.
Qed.

Lemma kr_dispatch_loop_terminates m len fuel : ∀ offset rti,
  len ≤ SSIZE_MAX →
  (RTAX_MAX ≤ length rti)%nat →
  visited m len offset →
  (∀ o, visited m len o → o < len → partial_rtm m len o = false →
        0 < peek16 big_endian m (o + rt_msghdr.rtm_msglen)) →
  (Z.to_nat (len - offset) < fuel)%nat →
  (kr_dispatch_loop fuel len offset rti m).1 ≠ OutOfFuel.
Proof.
  induction fuel as [|fuel IH]; intros offset rti Hmax Hrti Hvis Hpos Hfuel;
    [lia|].
  destruct (decide (offset < len)) as [Hlt|Hge].
  - destruct (partial_rtm m len offset) eqn:Hp.
    + by rewrite kr_dispatch_loop_partial.
    + destruct (kr_dispatch_one_ok len offset rti m Hrti Hp)
        as (rti' & acts1 & (t1 & Hone & _) & Hlen' & _).
      pose proof (visited_nonneg _ _ _ Hvis).
      pose proof (Hpos _ Hvis Hlt Hp) as Hmsg.
      pose proof (peek16_range big_endian m (offset + rt_msghdr.rtm_msglen)).
      rewrite kr_dispatch_loop_S by done.
      rewrite (bind_outcome _ _ _ _ _ Hone).
      rewrite (bind_outcome _ _ _ _ _ eq_refl).
      apply IH; [done|lia|by apply visited_next|done|].
      rewrite size_add_small by lia. lia.
  - by rewrite kr_dispatch_loop_done.
Qed.

(** A visited message that declares the length 0 holds the loop for
    ever. *)
Lemma kr_dispatch_loop_stuck m len offset fuel : ∀ rti,
  (RTAX_MAX ≤ length rti)%nat →
  0 ≤ offset < len → len ≤ SSIZE_MAX →
  partial_rtm m len offset = false →
  peek16 big_endian m (offset + rt_msghdr.rtm_msglen) = 0 →
  (kr_dispatch_loop fuel len offset rti m).1 = OutOfFuel.
Proof.
  induction fuel as [|fuel IH]; intros rti Hrti Ho Hmax Hp H0; [done|].
  destruct (kr_dispatch_one_ok len offset rti m Hrti Hp)
    as (rti' & acts1 & (t1 & Hone & _) & Hlen' & _).
  rewrite kr_dispatch_loop_S by lia.
  rewrite (bind_outcome _ _ _ _ _ Hone).
  rewrite (bind_outcome _ _ _ _ _ eq_refl).
  rewrite H0, size_add_small by lia. rewrite Z.add_0_r.
  apply IH; [lia|done..].
Qed.

Lemma kr_dispatch_loop_reach m len offset :
  visited m len offset →
  (∀ fuel rti, (RTAX_MAX ≤ length rti)%nat →
     (kr_dispatch_loop fuel len offset rti m).1 = OutOfFuel) →
  ∀ fuel rti, (RTAX_MAX ≤ length rti)%nat →
    (kr_dispatch_loop fuel len 0 rti m).1 = OutOfFuel.
Proof.
  induction 1 as [|offset Hvis IH Hlt Hp]; [done|].
  intros Hstuck. apply IH. intros [|fuel] rti Hrti; [done|].
  destruct (kr_dispatch_one_ok len offset rti m Hrti Hp)
    as (rti' & acts1 & (t1 & Hone & _) & Hlen' & _).
  rewrite kr_dispatch_loop_S by lia.
  rewrite (bind_outcome _ _ _ _ _ Hone).
  rewrite (bind_outcome _ _ _ _ _ eq_refl).
  apply Hstuck. lia.
Qed.
End dispatch_loop.

Lemma loads_fmap (l : list Z) : loads (EvLoad <$> l) = l.
Proof. induction l as [|a l IH]; [done|]. cbn. f_equal. exact IH. Qed.

Lemma elem_of_actions e t : e ∈ t → actions [e] = [e] → e ∈ actions t.
Proof.
  intros He Ha. unfold actions in *. apply list_elem_of_omap.
  exists e. split; [done|]. by destruct e.
Qed.

Lemma only_loads_no_compose t type pid p :
  only_loads t → EvComposeEngine type pid p ∉ t.
Proof.
  intros Ht Hin. unfold only_loads in Ht. rewrite Forall_forall in Ht.
  by destruct (Ht _ Hin).
Qed.

(** *** The proposals passed on *)

Section proposals.
Context `{P : Platform}.
Hypothesis HP : PlatformOk P.

Lemma get_rtaddrs_absent addrs sa rti m v6 rti' t i :
  (RTAX_MAX ≤ length rti)%nat →
  get_rtaddrs addrs sa rti m = (Ret (v6, rti'), t) →
  (i < RTAX_MAX)%nat →
  Z.testbit addrs (Z.of_nat i) = false →
  rti_slot rti' i = None.
Proof.
  intros Hlen Hget Hi Hbit.
  destruct (get_rtaddrs_from_spec RTAX_MAX 0 addrs sa 1 rti m Hlen)
    as (v6' & rti'' & t' & Hget' & _ & _ & _ & Hpr & _).
  unfold get_rtaddrs in Hget. rewrite Hget in Hget'. simplify_eq.
  specialize (Hpr i ltac:(lia)). rewrite Hbit in Hpr.
  unfold rti_slot. by rewrite Hpr.
Qed.

Lemma kr_dispatch_one_composed len offset rti m r t type pid p :
  (RTAX_MAX ≤ length rti)%nat →
  kr_dispatch_one len offset rti m = (r, t) →
  EvComposeEngine type pid p ∈ t →
  header_copied m offset p ∧ unset_is_zero p.
Proof.
  intros Hlen Hone Hin.
  destruct (partial_rtm m len offset) eqn:Hp.
  { rewrite kr_dispatch_one_partial in Hone by done. simplify_eq.
    apply elem_of_app in Hin as [Hin|Hin].
    - case_bool_decide; [by apply elem_of_nil in Hin|].
      exfalso. eapply only_loads_no_compose; [|exact Hin].
      apply (only_loads_fmap (footprint _ 2)).
    - apply list_elem_of_singleton in Hin. done. }
  destruct (kr_dispatch_one_ok len offset rti m Hlen Hp)
    as (rti' & acts & (t' & Hone' & Hacts) & Hlen' & Hskip & Hdo).
  rewrite Hone in Hone'. simplify_eq.
  apply elem_of_actions in Hin; [|done].
  destruct (decide (peek8 m (offset + rt_msghdr.rtm_version) = RTM_VERSION))
    as [Hv|Hv].
  2:{ destruct (Hskip Hv) as [_ Hnil]. rewrite Hnil in Hin.
      by apply elem_of_nil in Hin. }
  destruct (Hdo Hv) as (v6 & t0 & Hget & Hother & Hprop).
  destruct (decide (peek8 m (offset + rt_msghdr.rtm_type) = RTM_PROPOSAL))
    as [Hty|Hty].
  2:{ rewrite (Hother Hty) in Hin. by apply elem_of_nil in Hin. }
  destruct (Hprop Hty) as (p0 & Hacts & Hh & Hm & Hz).
  rewrite Hacts in Hin.
  apply elem_of_cons in Hin as [?|Hin]; [done|].
  apply list_elem_of_singleton in Hin. simplify_eq.
  split; [done|].
  destruct Hh as [Haddrs _].
  pose proof (RTAX_IFA_lt P HP). unfold RTAX_IFA in *.
  pose proof (RTAX_STATIC_lt P HP). pose proof (RTAX_SEARCH_lt P HP).
  pose proof (RTAX_DNS1_lt P HP). pose proof (RTAX_DNS2_lt P HP).
  pose proof (RTAX_DNS3_lt P HP). pose proof (RTAX_DNS4_lt P HP).
  unfold unset_is_zero, absent_is_zero in *. rewrite Haddrs.
  destruct Hz as (? & ? & ? & ? & ? & ? & ? & ? & ?).
  split_and!; try done; intros Hbit;
    match goal with H : _ → ?f ?q = _ |- ?f ?q = _ => apply H end;
    (eapply get_rtaddrs_absent; [exact Hlen|exact Hget| |exact Hbit]);
    unfold RTAX_GATEWAY, RTAX_NETMASK, RTAX_IFA; lia.
Qed.

Lemma kr_dispatch_loop_composed m len type pid p fuel : ∀ offset rti r t,
  (RTAX_MAX ≤ length rti)%nat →
  kr_dispatch_loop fuel len offset rti m = (r, t) →
  EvComposeEngine type pid p ∈ t →
  ∃ o, header_copied m o p ∧ unset_is_zero p.
Proof.
  induction fuel as [|fuel IH]; intros offset rti r t Hlen Hloop Hin.
  { injection Hloop as <- <-. by apply elem_of_nil in Hin. }
  destruct (decide (offset < len)) as [Hlt|Hge].
  2:{ rewrite kr_dispatch_loop_done in Hloop by done. simplify_eq.
      by apply elem_of_nil in Hin. }
  destruct (partial_rtm m len offset) eqn:Hp.
  { rewrite kr_dispatch_loop_partial in Hloop by done. simplify_eq.
    exists offset.
    destruct (kr_dispatch_one len offset rti m) as [r1 t1] eqn:Hone.
    by eapply kr_dispatch_one_composed. }
  destruct (kr_dispatch_one_ok len offset rti m Hlen Hp)
    as (rti' & acts & (t1 & Hone & _) & Hlen' & _).
  rewrite kr_dispatch_loop_S in Hloop by done.
  rewrite (bind_run_ret _ _ _ _ _ Hone) in Hloop.
  rewrite (bind_run_ret _ _ _ _ _ eq_refl) in Hloop.
  cbn [fst snd] in Hloop. simplify_eq.
  apply elem_of_app in Hin as [Hin|Hin].
  { exists offset. by eapply kr_dispatch_one_composed. }
  apply elem_of_cons in Hin as [?|Hin]; [done|].
  apply elem_of_cons in Hin as [?|Hin]; [done|].
  eapply (IH _ rti'); [lia| |done]. apply surjective_pairing.
Qed.
End proposals.

(** *** Stores into an object and what is read back *)

Lemma byte_val_of_Z v : byte_val (byte_of_Z v) = wrap 8 v.
Proof.
  unfold byte_val, byte_of_Z.
  assert (0 ≤ wrap 8 v < 256) as Hr by (apply Z.mod_pos_bound; lia).
  destruct (Byte.of_N (Z.to_N (wrap 8 v))) as [b|] eqn:Hb.
  - apply Byte.to_of_N in Hb. rewrite Hb. lia.
  - pose proof (Byte.to_of_N_option_map (Z.to_N (wrap 8 v))) as Hm.
    rewrite Hb in Hm. cbn in Hm.
    destruct (N.leb_spec (Z.to_N (wrap 8 v)) 255); [done|lia].
Qed.

Lemma mem_of_bytes_store8 off v obj a :
  0 ≤ off →
  mem_of_bytes (store8 off v obj) a =
  if bool_decide (a = off ∧ off < Z.of_nat (length obj))
  then byte_of_Z v else mem_of_bytes obj a.
Proof.
  intros Hoff. unfold mem_of_bytes, store8.
  destruct (Z.ltb_spec a 0).
  { rewrite bool_decide_eq_false_2 by lia. done. }
  case_bool_decide as Ha.
  - destruct Ha as [-> Hl]. rewrite list_lookup_insert_eq by lia. done.
  - destruct (decide (a = off)) as [->|Hne].
    + rewrite !lookup_ge_None_2; [done|lia|rewrite length_insert; lia].
    + rewrite list_lookup_insert_ne by lia. done.
Qed.

Lemma length_store8 off v obj : length (store8 off v obj) = length obj.
Proof. apply length_insert. Qed.

Section stores.
Context `{P : Platform}.

Lemma length_store16 off v obj : length (store16 off v obj) = length obj.
Proof. unfold store16. destruct big_endian; by rewrite !length_store8. Qed.

Lemma length_store32 off v obj : length (store32 off v obj) = length obj.
Proof. unfold store32. destruct big_endian; by rewrite !length_store16. Qed.

Lemma fetch16_store8_ne x off v obj :
  0 ≤ off → off ≠ x → off ≠ x + 1 →
  fetch16 x (store8 off v obj) = fetch16 x obj.
Proof.
  intros. unfold fetch16, peek16, peek8.
  rewrite !mem_of_bytes_store8 by done.
  rewrite !bool_decide_eq_false_2 by lia. done.
Qed.

Lemma fetch16_store16_ne x off v obj :
  0 ≤ off → off + 1 < x ∨ x + 1 < off →
  fetch16 x (store16 off v obj) = fetch16 x obj.
Proof.
  intros. unfold store16.
  destruct big_endian; rewrite !fetch16_store8_ne by lia; done.
Qed.

Lemma fetch16_store32_ne x off v obj :
  0 ≤ off → off + 3 < x ∨ x + 1 < off →
  fetch16 x (store32 off v obj) = fetch16 x obj.
Proof.
  intros. unfold store32.
  destruct big_endian; rewrite !fetch16_store16_ne by lia; done.
Qed.

Lemma fetch16_store16 off v obj :
  0 ≤ off → off + 1 < Z.of_nat (length obj) →
  fetch16 off (store16 off v obj) = wrap 16 v.
Proof.
  intros. unfold fetch16, store16, peek16, peek8.
  destruct big_endian; rewrite !mem_of_bytes_store8 by lia;
    rewrite ?length_store8;
    repeat (case_bool_decide; try lia);
    rewrite !byte_val_of_Z; unfold wrap;
    change (2 ^ 8) with 256; change (2 ^ 16) with (256 * 256).
  - rewrite Z.rem_mul_r by lia. lia.
  - rewrite Z.rem_mul_r by lia. lia.
Qed.

Lemma fetch16_app off obj rest :
  0 ≤ off → off + 1 < Z.of_nat (length obj) →
  peek16 big_endian (mem_of_bytes (obj ++ rest)) off = fetch16 off obj.
Proof.
  intros. unfold fetch16, peek16, peek8, mem_of_bytes.
  destruct (Z.ltb_spec off 0); [lia|].
  destruct (Z.ltb_spec (off + 1) 0); [lia|].
  rewrite !lookup_app_l by lia. done.
Qed.

Lemma rtm_msglen_add_spec n rtm k :
  length rtm = rt_msghdr.size →
  fetch16 rt_msghdr.rtm_msglen rtm = k →
  length (rtm_msglen_add n rtm) = rt_msghdr.size
  ∧ fetch16 rt_msghdr.rtm_msglen (rtm_msglen_add n rtm)
    = wrap 16 (k + Z.of_nat n).
Proof.
  intros Hlen Hk. unfold rtm_msglen_add.
  rewrite length_store16, fetch16_store16, Hk.
  - unfold u_short_add, wrap. by rewrite Z.mod_mod.
  - done.
  - rewrite Hlen. done.
Qed.
End stores.

(** *** The header of a route request *)

Create HintDb rt_offsets.
#[global] Hint Unfold rt_msghdr.rtm_msglen rt_msghdr.rtm_version
  rt_msghdr.rtm_type rt_msghdr.rtm_hdrlen rt_msghdr.rtm_index
  rt_msghdr.rtm_tableid rt_msghdr.rtm_priority rt_msghdr.rtm_addrs
  rt_msghdr.rtm_flags rt_msghdr.rtm_seq rt_msghdr.rtm_inits
  rt_msghdr.rmx_mtu rt_msghdr.size : rt_offsets.

(** Side conditions on the offsets of header members. *)
Ltac offsets := autounfold with rt_offsets; lia.

Section routes.
Context `{P : Platform}.

Lemma wrap_small bits x : 0 ≤ x < 2 ^ bits → wrap bits x = x.
Proof. intros. by apply Z.mod_small. Qed.

Lemma wrap_add_l bits x y : wrap bits (wrap bits x + y) = wrap bits (x + y).
Proof. unfold wrap. by rewrite Zplus_mod_idemp_l. Qed.

Lemma length_concat_sum (ls : list (list byte)) :
  length (concat ls) = sum_list (length <$> ls).
Proof.
  induction ls as [|l ls IH]; [done|].
  cbn. by rewrite length_app, IH.
Qed.

Lemma take_all (l : list byte) : take (length l) l = l.
Proof. by apply take_ge. Qed.

(** The header [netcfgd_add_v4route] hands to [writev] and the entries
    of [iov] behind it. *)
Lemma add_v4route_build_spec av4 rtm iov :
  add_v4route_build av4 = (rtm, iov) →
  length rtm = rt_msghdr.size
  ∧ fetch16 rt_msghdr.rtm_msglen rtm
    = wrap 16 (Z.of_nat rt_msghdr.size
               + Z.of_nat (sum_list (length <$> add_v4route_payloads av4)))
  ∧ ∀ deref,
      deref Lrtm = rtm → deref Ldest = av4_dest av4 →
      deref Lgateway = av4_gateway av4 → deref Lnetmask = av4_netmask av4 →
      deref Lifa = av4_ifa av4 →
      writev_data deref iov = rtm ++ concat (add_v4route_payloads av4).
Proof.
  unfold add_v4route_build, add_v4route_payloads, selected.
  set (base := store32 rt_msghdr.rtm_flags _ _).
  assert (length base = rt_msghdr.size) as Hbl.
  { unfold base.
    by rewrite !length_store32, !length_store16, !length_store8,
      length_replicate. }
  assert (fetch16 rt_msghdr.rtm_msglen base = Z.of_nat rt_msghdr.size) as Hbf.
  { unfold base.
    rewrite !fetch16_store32_ne, fetch16_store16_ne by offsets.
    rewrite fetch16_store16; [done|done|].
    rewrite !length_store8, length_replicate. offsets. }
  repeat case_bool_decide; intros [= <- <-];
    repeat match goal with
    | |- context [rtm_msglen_add ?n ?r] =>
        lazymatch goal with
        | _ : length (rtm_msglen_add n r) = _ |- _ => fail
        | _ =>
            let Hl := fresh "Hl" in
            let Hf := fresh "Hf" in
            destruct (rtm_msglen_add_spec n r _ ltac:(assumption) eq_refl)
              as [Hl Hf]
        end
    end.
  all: split; [assumption|]; split.
  all: try (intros deref Hr Hd Hg Hn Hi; unfold writev_data; cbn;
            rewrite Hr, ?Hd, ?Hg, ?Hn, ?Hi, ?take_all, ?app_nil_r;
            rewrite take_ge by (apply Nat.eq_le_incl; assumption);
            reflexivity).
  all: repeat match goal with
       | H : fetch16 _ _ = _ |- _ => rewrite H; clear H
       end;
       repeat (rewrite wrap_add_l || rewrite <- Z.add_assoc);
       f_equal; cbn; lia.
Qed.
End routes.

(** ** The properties *)

Lemma openbsd_amd64_ok : PlatformOk openbsd_amd64.
Proof. split; vm_compute; lia. Qed.

(** *** Framing errors *)

(** C1: when the message at an offset the loop has reached declares a
    length that goes beyond the bytes read, or fewer bytes are left than
    the length field takes, the pass over that message ends the process
    in [fatalx], and so does the loop; up to that point the pass has
    done nothing but read, and every byte it has read lies inside the
    bytes that were read from the socket. *)
Theorem partial_message_is_fatal `{P : Platform} (m : memory)
    (len offset : Z) (rti_info : list (option Z)) (fuel : nat) :
  PlatformOk P →
  0 ≤ offset < len →
  len ≤ SSIZE_MAX →
  len - offset < sizeof_u_short
  ∨ len < offset + peek16 big_endian m (offset + rt_msghdr.rtm_msglen) →
  ∃ t,
    kr_dispatch_one len offset rti_info m
      = (Exited, t ++ [EvFatal "rtmsg_process: partial rtm in buffer"])
    ∧ kr_dispatch_loop (S fuel) len offset rti_info m
      = (Exited, t ++ [EvFatal "rtmsg_process: partial rtm in buffer"])
    ∧ only_loads t
    ∧ ∀ a, a ∈ loads t → 0 ≤ a < len.
Proof.
  intros HP Ho Hmax Hbad.
  apply (partial_rtm_spec HP m) in Hbad; [|done..].
  pose proof (kr_dispatch_one_partial len offset rti_info m Hbad) as Hone.
  eexists. split; [exact Hone|].
  split.
  { rewrite kr_dispatch_loop_partial; [|lia|done]. by rewrite Hone. }
  case_bool_decide as Hshort.
  - split; [constructor|]. intros a Ha. by apply elem_of_nil in Ha.
  - split; [apply (only_loads_fmap (footprint _ 2))|].
    intros a Ha. rewrite loads_fmap in Ha.
    rewrite (size_add_small HP) in Hshort by (unfold sizeof_u_short; lia).
    unfold sizeof_u_short, rt_msghdr.rtm_msglen in *.
    cbn in Ha. apply elem_of_cons in Ha as [->|Ha]; [lia|].
    apply list_elem_of_singleton in Ha as ->. lia.
Qed.

Lemma partial_message_is_fatal_witness :
  ∃ t,
    kr_dispatch_one (P := openbsd_amd64) 120 0 [] (mem_of_list sample_proposal)
      = (Exited, t ++ [EvFatal "rtmsg_process: partial rtm in buffer"])
    ∧ kr_dispatch_loop (P := openbsd_amd64) 1 120 0 []
        (mem_of_list sample_proposal)
      = (Exited, t ++ [EvFatal "rtmsg_process: partial rtm in buffer"])
    ∧ only_loads t
    ∧ ∀ a, a ∈ loads t → 0 ≤ a < 120.
Proof.
  apply (partial_message_is_fatal (P := openbsd_amd64)).
  - exact openbsd_amd64_ok.
  - lia.
  - vm_compute. discriminate.
  - right. vm_compute. reflexivity.
Defined.

(** *** Termination of the message loop *)

(** C10: on a read of [n] bytes that leaves in the buffer only messages
    with a declared length above zero, [kr_dispatch_msg] comes to an end
    (it returns or exits in [fatalx]) once it is given enough steps;
    when one of the messages the loop reaches declares the length zero,
    the offset stays where it is and no number of steps is enough. *)
Theorem kr_dispatch_msg_termination `{P : Platform} (m : memory)
    (n errno : Z) :
  PlatformOk P →
  0 < n ≤ SSIZE_MAX →
  ((∀ offset, visited m n offset → offset < n →
      partial_rtm m n offset = false →
      0 < peek16 big_endian m (offset + rt_msghdr.rtm_msglen)) →
   ∃ fuel, (kr_dispatch_msg fuel n errno m).1 ≠ OutOfFuel)
  ∧ (∀ offset, visited m n offset → offset < n →
       partial_rtm m n offset = false →
       peek16 big_endian m (offset + rt_msghdr.rtm_msglen) = 0 →
       size_add offset (peek16 big_endian m (offset + rt_msghdr.rtm_msglen))
         = offset
       ∧ ∀ fuel, (kr_dispatch_msg fuel n errno m).1 = OutOfFuel).
Proof.
  intros HP Hn.
  assert (Hmsg : ∀ fuel, kr_dispatch_msg fuel n errno m
                 = kr_dispatch_loop fuel n 0 (replicate RTAX_MAX None) m).
  { intros fuel. unfold kr_dispatch_msg.
    by rewrite !bool_decide_eq_false_2 by lia. }
  split.
  - intros Hpos. exists (S (Z.to_nat n)). rewrite Hmsg.
    apply kr_dispatch_loop_terminates; try done; try lia.
    + by rewrite length_replicate.
    + constructor.
  - intros offset Hvis Hlt Hp H0.
    pose proof (visited_nonneg HP _ _ _ Hvis).
    split.
    { rewrite H0, (size_add_small HP) by lia. lia. }
    intros fuel. rewrite Hmsg.
    apply (kr_dispatch_loop_reach m n offset Hvis);
      [|by rewrite length_replicate].
    intros fuel' rti Hrti.
    apply kr_dispatch_loop_stuck; try done; lia.
Qed.

Lemma kr_dispatch_msg_termination_witness :
  (∃ fuel,
     (kr_dispatch_msg (P := openbsd_amd64) fuel 128 0
        (mem_of_list sample_proposal)).1 ≠ OutOfFuel)
  ∧ ∀ fuel,
      (kr_dispatch_msg (P := openbsd_amd64) fuel 4 0
         (mem_of_list [0; 0; 0; 0])).1 = OutOfFuel.
Proof.
  split.
  - refine (proj1 (kr_dispatch_msg_termination (P := openbsd_amd64)
             (mem_of_list sample_proposal) 128 0 openbsd_amd64_ok _) _).
    + vm_compute. split; [reflexivity|discriminate].
    + assert (Hinv : ∀ o, visited (P := openbsd_amd64)
                            (mem_of_list sample_proposal) 128 o →
                          o = 0 ∨ o = 128).
      { induction 1 as [|o Hvis IH Hlt Hp]; [by left|].
        destruct IH as [-> | ->]; [right; vm_compute; reflexivity|].
        vm_compute in Hlt. discriminate Hlt. }
      intros offset Hvis Hlt Hp.
      destruct (Hinv _ Hvis) as [-> | ->]; [vm_compute; reflexivity|].
      vm_compute in Hlt. discriminate Hlt.
  - refine (proj2 (proj2 (kr_dispatch_msg_termination (P := openbsd_amd64)
             (mem_of_list [0; 0; 0; 0]) 4 0 openbsd_amd64_ok _) 0 _ _ _ _)).
    + vm_compute. split; [reflexivity|discriminate].
    + constructor.
    + reflexivity.
    + vm_compute. reflexivity.
    + vm_compute. reflexivity.
Defined.

(** *** Address records *)

(** C4: [get_rtaddrs] returns, and in the slot array it fills a slot is
    present exactly when its bit is set in the bitmap; the first present
    record lies where the cursor started, and every present record is
    followed by the next present one at the distance [ROUNDUP(sa_len)],
    where [ROUNDUP] gives its argument when that is a multiple of
    [sizeof(long)] and the next multiple otherwise. *)
Theorem get_rtaddrs_advance `{P : Platform} (m : memory) (addrs sa : Z)
    (rti_info : list (option Z)) :
  PlatformOk P →
  (RTAX_MAX ≤ length rti_info)%nat →
  ∃ v6 rti_info' t,
    get_rtaddrs addrs sa rti_info m = (Ret (v6, rti_info'), t)
    ∧ (∀ j, (j < RTAX_MAX)%nat →
         if Z.testbit addrs (Z.of_nat j)
         then ∃ p, rti_info' !! j = Some (Some p)
         else rti_info' !! j = Some None)
    ∧ (∀ j q, (j < RTAX_MAX)%nat →
         rti_info' !! j = Some (Some q) →
         (∀ k, (k < j)%nat → rti_info' !! k = Some None) →
         q = sa)
    ∧ ∀ i j p q,
        (i < j < RTAX_MAX)%nat →
        rti_info' !! i = Some (Some p) →
        rti_info' !! j = Some (Some q) →
        (∀ k, (i < k < j)%nat → rti_info' !! k = Some None) →
        let len := peek8 m (p + sockaddr.sa_len) in
        q = p + ROUNDUP len
        ∧ ROUNDUP len mod sizeof_long = 0
        ∧ len ≤ ROUNDUP len < len + sizeof_long
        ∧ (len mod sizeof_long = 0 → ROUNDUP len = len).
Proof.
  intros HP Hlen.
  destruct (get_rtaddrs_from_spec RTAX_MAX 0 addrs sa 1 rti_info m Hlen)
    as (v6 & rti' & t & Hget & _ & _ & _ & Hpres & Hfirst & Hadv & _).
  exists v6, rti', t. split; [done|]. split.
  { intros j Hj. apply Hpres. lia. }
  split.
  { intros j q Hj Hq Hnone. apply (Hfirst j); [lia|done|].
    intros k Hk. apply Hnone. lia. }
  intros i j p q Hij Hp Hq Hnone len.
  destruct (ROUNDUP_spec HP len) as [Hmod Hrange].
  split; [|split; [done|split; [done|]]].
  - apply (Hadv i j); try done; lia.
  - intros Hlenmod.
    destruct (long_size P HP) as [Hl|Hl]; rewrite Hl in *;
      apply Z.mod_divide in Hmod, Hlenmod; try lia;
      destruct Hmod as [a Ha], Hlenmod as [b Hb]; lia.
Qed.

Lemma get_rtaddrs_advance_witness :
  ∃ v6 rti_info' t,
    get_rtaddrs (P := openbsd_amd64) 34 96 (replicate 17 None)
        (mem_of_list sample_proposal)
      = (Ret (v6, rti_info'), t)
    ∧ (∀ j, (j < 17)%nat →
         if Z.testbit 34 (Z.of_nat j)
         then ∃ p, rti_info' !! j = Some (Some p)
         else rti_info' !! j = Some None)
    ∧ (∀ j q, (j < 17)%nat →
         rti_info' !! j = Some (Some q) →
         (∀ k, (k < j)%nat → rti_info' !! k = Some None) →
         q = 96)
    ∧ ∀ i j p q,
        (i < j < 17)%nat →
        rti_info' !! i = Some (Some p) →
        rti_info' !! j = Some (Some q) →
        (∀ k, (i < k < j)%nat → rti_info' !! k = Some None) →
        let len := peek8 (mem_of_list sample_proposal) (p + sockaddr.sa_len) in
        q = p + ROUNDUP (P := openbsd_amd64) len
        ∧ ROUNDUP (P := openbsd_amd64) len mod 8 = 0
        ∧ len ≤ ROUNDUP (P := openbsd_amd64) len < len + 8
        ∧ (len mod 8 = 0 → ROUNDUP (P := openbsd_amd64) len = len).
Proof.
  apply (get_rtaddrs_advance (P := openbsd_amd64)).
  - exact openbsd_amd64_ok.
  - vm_compute. lia.
Defined.

(** *** Address family *)

(** C2: for a message of the right version [get_rtaddrs] answers 1
    (IPv6) unless a slot whose bit is set in the presence bitmap holds
    a record of family [AF_INET], in which case it answers 0; a slot
    holds a record exactly when its bit is set.  When the message is of
    type [RTM_PROPOSAL] it is then logged and passed on once, as
    [IMSG_SEND_V6PROPOSAL] when the answer was 1 and as
    [IMSG_SEND_V4PROPOSAL] when it was 0; a message of another type is
    not passed on. *)
Theorem family_classification `{P : Platform} (m : memory) (len offset : Z)
    (rti_info : list (option Z)) :
  (RTAX_MAX ≤ length rti_info)%nat →
  partial_rtm m len offset = false →
  peek8 m (offset + rt_msghdr.rtm_version) = RTM_VERSION →
  let type := peek8 m (offset + rt_msghdr.rtm_type) in
  let addrs :=
    signed 32 (peek32 big_endian m (offset + rt_msghdr.rtm_addrs)) in
  let sa := offset + peek16 big_endian m (offset + rt_msghdr.rtm_hdrlen) in
  ∃ v6 rti_info' t,
    get_rtaddrs addrs sa rti_info m = (Ret (v6, rti_info'), t)
    ∧ (v6 = 0 ∨ v6 = 1)
    ∧ (∀ i, (i < RTAX_MAX)%nat →
         if Z.testbit addrs (Z.of_nat i)
         then ∃ sa_i, rti_info' !! i = Some (Some sa_i)
         else rti_info' !! i = Some None)
    ∧ (v6 = 0 ↔
       ∃ i sa_i, (i < RTAX_MAX)%nat
         ∧ Z.testbit addrs (Z.of_nat i) = true
         ∧ rti_info' !! i = Some (Some sa_i)
         ∧ peek8 m (sa_i + sockaddr.sa_family) = AF_INET)
    ∧ (type = RTM_PROPOSAL →
       ∃ log p,
         runs (kr_dispatch_one len offset rti_info) m (Ret rti_info')
           [EvLogWarnx "I see a %s RTM_PROPOSAL from %d!" log;
            EvComposeEngine
              (if bool_decide (v6 = 0)
               then IMSG_SEND_V4PROPOSAL else IMSG_SEND_V6PROPOSAL) 0 p])
    ∧ (type ≠ RTM_PROPOSAL →
       runs (kr_dispatch_one len offset rti_info) m (Ret rti_info') []).
Proof.
  intros Hlen Hp Hv type addrs sa.
  destruct (kr_dispatch_one_ok len offset rti_info m Hlen Hp)
    as (rti' & acts & Hrun & _ & _ & Hdo).
  destruct (Hdo Hv) as (v6 & t0 & Hget & Hother & Hprop).
  destruct (get_rtaddrs_from_spec RTAX_MAX 0 addrs sa 1 rti_info m Hlen)
    as (v6' & rti'' & t' & Hget' & _ & _ & _ & Hpr & _ & _ & Hv6 & Hmono).
  unfold get_rtaddrs in Hget. fold addrs sa in Hget.
  rewrite Hget in Hget'. simplify_eq.
  exists v6', rti'', t'.
  split_and!.
  - done.
  - destruct Hmono; auto.
  - intros i Hi. apply Hpr. lia.
  - rewrite Hv6. split.
    + intros [?|(i & sa_i & Hi & Hsa & Hfam)]; [done|].
      exists i, sa_i. split; [lia|]. split; [|done].
      specialize (Hpr i Hi).
      destruct (Z.testbit addrs (Z.of_nat i)); [done|congruence].
    + intros (i & sa_i & Hi & _ & Hsa & Hfam). right.
      exists i, sa_i. split; [lia|done].
  - intros Hty. destruct (Hprop Hty) as (p & -> & _).
    exists [ArgStr (if bool_decide (v6' ≠ 0) then "IPv6" else "IPv4");
            ArgInt (peek8 m (offset + rt_msghdr.rtm_priority))], p.
    destruct Hmono as [-> | ->]; exact Hrun.
  - intros Hty. by rewrite (Hother Hty) in Hrun.
Qed.

Lemma family_classification_witness :
  let m := mem_of_list sample_proposal in
  ∃ v6 rti_info' t,
    get_rtaddrs (P := openbsd_amd64) 34 96 (replicate 17 None) m
      = (Ret (v6, rti_info'), t)
    ∧ (v6 = 0 ∨ v6 = 1)
    ∧ (∀ i, (i < 17)%nat →
         if Z.testbit 34 (Z.of_nat i)
         then ∃ sa_i, rti_info' !! i = Some (Some sa_i)
         else rti_info' !! i = Some None)
    ∧ (v6 = 0 ↔
       ∃ i sa_i, (i < 17)%nat
         ∧ Z.testbit 34 (Z.of_nat i) = true
         ∧ rti_info' !! i = Some (Some sa_i)
         ∧ peek8 m (sa_i + sockaddr.sa_family) = AF_INET)
    ∧ (peek8 m rt_msghdr.rtm_type = @RTM_PROPOSAL openbsd_amd64 →
       ∃ log p,
         runs (kr_dispatch_one (P := openbsd_amd64) 128 0 (replicate 17 None))
           m (Ret rti_info')
           [EvLogWarnx "I see a %s RTM_PROPOSAL from %d!" log;
            EvComposeEngine
              (if bool_decide (v6 = 0)
               then IMSG_SEND_V4PROPOSAL else IMSG_SEND_V6PROPOSAL) 0 p])
    ∧ (peek8 m rt_msghdr.rtm_type ≠ @RTM_PROPOSAL openbsd_amd64 →
       runs (kr_dispatch_one (P := openbsd_amd64) 128 0 (replicate 17 None))
         m (Ret rti_info') []).
Proof.
  apply (family_classification (P := openbsd_amd64)
           (mem_of_list sample_proposal) 128 0 (replicate 17 None)).
  - vm_compute. lia.
  - vm_compute. reflexivity.
  - vm_compute. reflexivity.
Defined.

(** *** Proposals *)

(** C3: every proposal [kr_dispatch_msg] passes on carries the presence
    bitmap and the init flags of one message of the buffer; its members
    filled from a slot (static routes, search domains, gateway,
    interface address, netmask, the four DNS servers) are all zero when
    the bit of the slot is clear in that bitmap, and its MTU is zero
    when the MTU bit of the init flags is clear. *)
Theorem proposal_unset_is_zero `{P : Platform} (m : memory) (fuel : nat)
    (n errno : Z) (r : outcome ()) (t : trace) (type : imsg_type) (pid : Z)
    (p : imsg_v4proposal) :
  PlatformOk P →
  kr_dispatch_msg fuel n errno m = (r, t) →
  EvComposeEngine type pid p ∈ t →
  ∃ offset, header_copied m offset p ∧ unset_is_zero p.
Proof.
  intros HP Hrun Hin. unfold kr_dispatch_msg in Hrun.
  repeat case_bool_decide.
  - injection Hrun as <- <-. by apply elem_of_nil in Hin.
  - injection Hrun as <- <-. cbn in Hin.
    apply elem_of_cons in Hin as [?|Hin]; [done|].
    by apply list_elem_of_singleton in Hin.
  - injection Hrun as <- <-. cbn in Hin.
    apply elem_of_cons in Hin as [?|Hin]; [done|].
    by apply list_elem_of_singleton in Hin.
  - eapply (kr_dispatch_loop_composed HP); [|done..].
    by rewrite length_replicate.
Qed.

Lemma proposal_unset_is_zero_witness :
  ∃ offset,
    header_copied (P := openbsd_amd64) (mem_of_list sample_proposal) offset
      sample_decoded
    ∧ unset_is_zero (P := openbsd_amd64) sample_decoded.
Proof.
  pose (run := kr_dispatch_msg (P := openbsd_amd64) 2 128 0
                 (mem_of_list sample_proposal)).
  apply (proposal_unset_is_zero (P := openbsd_amd64)
           (mem_of_list sample_proposal) 2 128 0 run.1 run.2
           IMSG_SEND_V4PROPOSAL 0 sample_decoded).
  - exact openbsd_amd64_ok.
  - vm_compute. reflexivity.
  - apply (list_elem_of_lookup_2 _ (length run.2 - 3)).
    vm_compute. reflexivity.
Defined.

(** *** Route requests *)

(** C5: for an add-route request [netcfgd_add_v4route] hands to [writev]
    the header followed by exactly the payloads selected by the presence
    bitmap, in the order destination, gateway, netmask, interface
    address; the length the header declares in these bytes is the size
    of the header plus the sizes of the payloads attached, which is the
    number of bytes handed over. *)
Theorem add_v4route_encoding `{P : Platform} (av4 : imsg_add_v4route)
    (writev_ret : Z) :
  let payloads := add_v4route_payloads av4 in
  Z.of_nat rt_msghdr.size + Z.of_nat (sum_list (length <$> payloads))
    < 2 ^ 16 →
  ∃ rtm,
    written (netcfgd_add_v4route av4 writev_ret) = [rtm ++ concat payloads]
    ∧ length rtm = rt_msghdr.size
    ∧ peek16 big_endian (mem_of_bytes (rtm ++ concat payloads))
        rt_msghdr.rtm_msglen
      = Z.of_nat rt_msghdr.size + Z.of_nat (sum_list (length <$> payloads))
    ∧ peek16 big_endian (mem_of_bytes (rtm ++ concat payloads))
        rt_msghdr.rtm_msglen
      = Z.of_nat (length (rtm ++ concat payloads)).
Proof.
  intros payloads Hsmall. unfold netcfgd_add_v4route.
  destruct (add_v4route_build av4) as [rtm iov] eqn:Hbuild.
  destruct (add_v4route_build_spec av4 rtm iov Hbuild) as (Hlen & Hfetch & Hdata).
  exists rtm. fold payloads in Hfetch, Hdata.
  assert (peek16 big_endian (mem_of_bytes (rtm ++ concat payloads))
            rt_msghdr.rtm_msglen
          = Z.of_nat rt_msghdr.size
            + Z.of_nat (sum_list (length <$> payloads))) as Hdecl.
  { rewrite fetch16_app, Hfetch; [|done|rewrite Hlen; offsets].
    apply wrap_small. lia. }
  split_and!; [|done|done|].
  - cbn [written omap]. rewrite Hdata by done. by case_bool_decide.
  - rewrite Hdecl, length_app, Hlen, length_concat_sum. lia.
Qed.

Lemma add_v4route_encoding_witness :
  let payloads := add_v4route_payloads sample_add_v4route in
  ∃ rtm,
    written (netcfgd_add_v4route (P := openbsd_amd64) sample_add_v4route 0)
      = [rtm ++ concat payloads]
    ∧ length rtm = rt_msghdr.size
    ∧ peek16 false (mem_of_bytes (rtm ++ concat payloads))
        rt_msghdr.rtm_msglen
      = Z.of_nat rt_msghdr.size + Z.of_nat (sum_list (length <$> payloads))
    ∧ peek16 false (mem_of_bytes (rtm ++ concat payloads))
        rt_msghdr.rtm_msglen
      = Z.of_nat (length (rtm ++ concat payloads)).
Proof.
  apply (add_v4route_encoding (P := openbsd_amd64) sample_add_v4route 0).
  vm_compute. reflexivity.
Defined.

(** What [netcfgd_delete_v4route] hands to [writev]: the header, then
    destination, gateway and netmask; the length the header declares is
    the sum of the sizes of the three payloads, as the header starts
    from zero and its own size is never added. *)
Lemma delete_v4route_encoding `{P : Platform} (dv4 : imsg_delete_v4route)
    (seqno writev_ret : Z) :
  let payloads := [dv4_dest dv4; dv4_gateway dv4; dv4_netmask dv4] in
  Z.of_nat (sum_list (length <$> payloads)) < 2 ^ 16 →
  ∃ rtm,
    written (netcfgd_delete_v4route dv4 seqno writev_ret).2
      = [rtm ++ concat payloads]
    ∧ length rtm = rt_msghdr.size
    ∧ peek16 big_endian (mem_of_bytes (rtm ++ concat payloads))
        rt_msghdr.rtm_msglen
      = Z.of_nat (sum_list (length <$> payloads))
    ∧ Z.of_nat (length (rtm ++ concat payloads))
      = Z.of_nat rt_msghdr.size
        + peek16 big_endian (mem_of_bytes (rtm ++ concat payloads))
            rt_msghdr.rtm_msglen.
Proof.
  intros payloads Hsmall. unfold netcfgd_delete_v4route.
  set (base := store16 rt_msghdr.rtm_tableid _ _).
  assert (length base = rt_msghdr.size) as Hbl.
  { unfold base.
    by rewrite !length_store16, !length_store32, !length_store8,
      length_replicate. }
  assert (fetch16 rt_msghdr.rtm_msglen base = 0) as Hbf.
  { unfold base.
    rewrite !fetch16_store16_ne, !fetch16_store32_ne, !fetch16_store8_ne
      by offsets.
    unfold fetch16, peek16, peek8, mem_of_bytes. by destruct big_endian. }
  destruct (rtm_msglen_add_spec (length (dv4_dest dv4)) base _ Hbl eq_refl)
    as [Hl1 Hf1].
  destruct (rtm_msglen_add_spec (length (dv4_gateway dv4)) _ _ Hl1 eq_refl)
    as [Hl2 Hf2].
  destruct (rtm_msglen_add_spec (length (dv4_netmask dv4)) _ _ Hl2 eq_refl)
    as [Hl3 Hf3].
  eexists. cbn [snd written omap].
  assert (∀ x y : list byte, x = y → [x] = [y]) as Hsingle by (by intros ?? ->).
  split.
  { match goal with |- context [if ?b then _ else _] => destruct b end;
      cbn [written omap]; apply Hsingle; unfold writev_data; cbn;
      rewrite !take_all, take_ge by (apply Nat.eq_le_incl; exact Hl3);
      reflexivity. }
  assert (peek16 big_endian
            (mem_of_bytes
               (rtm_msglen_add (length (dv4_netmask dv4))
                  (rtm_msglen_add (length (dv4_gateway dv4))
                     (rtm_msglen_add (length (dv4_dest dv4)) base))
                ++ concat payloads)) rt_msghdr.rtm_msglen
          = Z.of_nat (sum_list (length <$> payloads))) as Hdecl.
  { rewrite fetch16_app; [|done|rewrite Hl3; offsets].
    rewrite Hf3, Hf2, Hf1, Hbf.
    repeat (rewrite wrap_add_l || rewrite <- Z.add_assoc).
    rewrite wrap_small; cbn in *; lia. }
  split_and!; [done|done|].
  rewrite Hdecl, length_app, Hl3, length_concat_sum. lia.
Qed.

(** C6, on a request: the bytes handed to [writev] are the header and
    the three payloads, 144 bytes, while the header declares 48. *)
Lemma delete_v4route_declares_payloads_only :
  ∃ data,
    written (netcfgd_delete_v4route (P := openbsd_amd64)
               sample_delete_v4route 0 0).2 = [data]
    ∧ length data = 144%nat
    ∧ peek16 false (mem_of_bytes data) rt_msghdr.rtm_msglen = 48.
Proof. eexists. vm_compute. done. Qed.

(** C7: [netcfgd_add_v4route] logs when [writev] returns something
    other than -1 and is silent when it returns -1; deleting a route and
    adding or deleting an address log when the kernel call returns -1
    and are silent otherwise. *)
Theorem add_v4route_logs_on_success `{P : Platform}
    (av4 : imsg_add_v4route) (dv4 : imsg_delete_v4route)
    (av4a : imsg_add_v4address) (dv4a : imsg_delete_v4address)
    (seqno ret : Z) :
  (logged (netcfgd_add_v4route av4 ret)
   = if bool_decide (ret ≠ -1) then [EvLogWarn "v4_add_route" []] else [])
  ∧ (logged (netcfgd_delete_v4route dv4 seqno ret).2
     = if bool_decide (ret = -1) then [EvLogWarn "v4_delete_route" []]
       else [])
  ∧ (logged (netcfgd_add_v4address av4a ret)
     = if bool_decide (ret = -1)
       then [EvLogWarn "v4_add_address %s"
               [ArgAddr (sin_addr_of (av4a_addr av4a))]]
       else [])
  ∧ (logged (netcfgd_delete_v4address dv4a ret)
     = if bool_decide (ret = -1)
       then [EvLogWarn "v4_delete_address %s"
               [ArgAddr
                  (sin_addr_of
                     (memcpy (replicate sizeof_sockaddr x00)
                        (dv4a_addr dv4a) sizeof_sockaddr_in))]]
       else []).
Proof.
  split_and!.
  - unfold netcfgd_add_v4route. destruct (add_v4route_build av4).
    by case_bool_decide.
  - unfold netcfgd_delete_v4route. cbn [snd]. by case_bool_decide.
  - unfold netcfgd_add_v4address. by case_bool_decide.
  - unfold netcfgd_delete_v4address. by case_bool_decide.
Qed.

(** *** Configuration merge *)

Lemma adopt_groups_rev xl cl : adopt_groups xl cl = rev xl ++ cl.
Proof.
  revert cl. induction xl as [|g xl IH]; intros cl; [done|].
  cbn. rewrite IH, <- app_assoc. done.
Qed.

Lemma discard_groups_lookup l gs g :
  discard_groups l gs !! g = if bool_decide (g ∈ l) then None else gs !! g.
Proof.
  revert gs. induction l as [|g' l IH]; intros gs; [done|].
  cbn. rewrite IH. destruct (decide (g = g')) as [->|Hne].
  - rewrite lookup_delete_eq, (bool_decide_eq_true_2 (g' ∈ g' :: l)).
    + by case_bool_decide.
    + apply list_elem_of_here.
  - rewrite lookup_delete_ne by done.
    case_bool_decide as Hin.
    + rewrite bool_decide_eq_true_2; [done|by apply list_elem_of_further].
    + rewrite bool_decide_eq_false_2; [done|].
      intros [?|?]%elem_of_cons; done.
Qed.

(** What [merge_config] does to two distinct configurations: of the
    scalar members it takes over [opts], [yesno], [integer] and
    [global_text] and leaves the others as they were; every group of
    the old list is freed, the groups of the new list are taken over as
    they are, in reverse order, and the new configuration is freed. *)
Lemma merge_config_spec conf xconf h c x :
  conf ≠ xconf →
  confs h !! conf = Some c →
  confs h !! xconf = Some x →
  ∃ h',
    merge_config conf xconf h = Some h'
    ∧ confs h' !! conf
      = Some (set_group_list (rev (group_list x)) (merge_scalars c x))
    ∧ confs h' !! xconf = None
    ∧ (∀ g, g ∈ group_list c → groups h' !! g = None)
    ∧ (∀ g, g ∉ group_list c → groups h' !! g = groups h !! g).
Proof.
  intros Hne Hc Hx. unfold merge_config.
  rewrite Hc, Hx. cbn [mbind option_bind].
  rewrite lookup_insert_eq. cbn [mbind option_bind].
  rewrite !(lookup_insert_ne _ conf xconf), Hx by exact Hne.
  cbn [mbind option_bind].
  rewrite lookup_insert_eq. cbn [mbind option_bind].
  rewrite (lookup_insert_ne _ xconf conf) by (by intros ->).
  rewrite lookup_insert_eq. cbn [mbind option_bind].
  eexists. split; [reflexivity|]. cbn [confs groups].
  split_and!.
  - rewrite lookup_delete_ne, lookup_insert_eq by done.
    by rewrite adopt_groups_rev, app_nil_r.
  - apply lookup_delete_eq.
  - intros g Hg. rewrite discard_groups_lookup.
    by rewrite bool_decide_eq_true_2.
  - intros g Hg. rewrite discard_groups_lookup.
    by rewrite bool_decide_eq_false_2.
Qed.

(** C9, on a reload: the retained configuration has all its scalar
    members at 0 and the new one has them at 1.  After [merge_config]
    the retained configuration holds the groups of the new one and the
    old groups are freed, but of the scalar members only [opts],
    [yesno], [integer] and [global_text] are those of the new
    configuration; [global_yesno], among others, still is 0. *)
Lemma merge_config_keeps_old_scalars :
  ∃ h' c',
    merge_config 1%positive 2%positive sample_heap = Some h'
    ∧ confs h' !! 1%positive = Some c'
    ∧ group_list c' = [21; 20]%positive
    ∧ groups h' !! 10%positive = None
    ∧ groups h' !! 11%positive = None
    ∧ groups h' !! 20%positive = Some (sample_group 20)
    ∧ groups h' !! 21%positive = Some (sample_group 21)
    ∧ opts c' = 1 ∧ yesno c' = 1 ∧ integer c' = 1
    ∧ global_text c' = global_text (sample_conf 1 [])
    ∧ global_yesno c' = 0 ∧ global_yesno (sample_conf 1 []) = 1
    ∧ global_integer c' = 0
    ∧ v4_bits c' = 0
    ∧ text c' = text (sample_conf 0 []).
Proof.
  destruct (merge_config_spec 1%positive 2%positive sample_heap
              (sample_conf 0 [10; 11]%positive)
              (sample_conf 1 [20; 21]%positive))
    as (h' & Hm & Hc & _ & Hfree & Hkeep); [done..|].
  exists h', (set_group_list (rev [20; 21]%positive)
                (merge_scalars (sample_conf 0 [10; 11]%positive)
                   (sample_conf 1 [20; 21]%positive))).
  split_and!; try done.
  - apply Hfree. apply list_elem_of_here.
  - apply Hfree. apply list_elem_of_further, list_elem_of_here.
  - rewrite Hkeep; [done|]. intros Hin.
    repeat (apply elem_of_cons in Hin as [?|Hin]; [done|]).
    by apply elem_of_nil in Hin.
  - rewrite Hkeep; [done|]. intros Hin.
    repeat (apply elem_of_cons in Hin as [?|Hin]; [done|]).
    by apply elem_of_nil in Hin.
Qed.

(** ** Further properties of the decoder *)

Section more_get_rtaddrs.
Context `{P : Platform}.

(** The loop of [get_rtaddrs] writes every entry it passes, and looks at
    no bit of the bitmap but those of the entries it passes. *)
Lemma get_rtaddrs_from_indep todo : ∀ i addrs addrs' sa v6 rti1 rti2 m,
  length rti1 = length rti2 →
  (∀ j, (j < i ∨ i + todo ≤ j)%nat → rti1 !! j = rti2 !! j) →
  (∀ j, (i ≤ j < i + todo)%nat →
     Z.testbit addrs (Z.of_nat j) = Z.testbit addrs' (Z.of_nat j)) →
  get_rtaddrs_from todo i addrs sa v6 rti1 m
  = get_rtaddrs_from todo i addrs' sa v6 rti2 m.
Proof.
  induction todo as [|todo IH]; intros i addrs addrs' sa v6 rti1 rti2 m
    Hlen Hout Hbits.
  - cbn. assert (rti1 = rti2) as ->; [|done].
    apply list_eq. intros j. apply Hout. lia.
  - rewrite !get_rtaddrs_from_S.
    rewrite <- (Hbits i) by lia.
    assert (Hins : ∀ x j, (j < S i ∨ S i + todo ≤ j)%nat →
              <[i := x]> rti1 !! j = <[i := x]> rti2 !! j).
    { intros x j Hj. destruct (decide (j = i)) as [->|Hne].
      - destruct (decide (i < length rti1)%nat) as [Hi|Hi].
        + rewrite !list_lookup_insert_eq by lia. done.
        + rewrite !lookup_ge_None_2; [done| |];
            rewrite length_insert; lia.
      - rewrite !list_lookup_insert_ne by done. apply Hout. lia. }
    destruct (Z.testbit addrs (Z.of_nat i)).
    + cbn zeta.
      rewrite (IH (S i) addrs addrs' _ _ (<[i := Some sa]> rti1)
                 (<[i := Some sa]> rti2) m); [done| | |].
      * by rewrite !length_insert.
      * apply Hins.
      * intros j Hj. apply Hbits. lia.
    + apply IH.
      * by rewrite !length_insert.
      * apply Hins.
      * intros j Hj. apply Hbits. lia.
Qed.

Lemma get_rtaddrs_indep addrs addrs' sa rti1 rti2 m :
  length rti1 = RTAX_MAX → length rti2 = RTAX_MAX →
  (∀ i, (i < RTAX_MAX)%nat →
     Z.testbit addrs (Z.of_nat i) = Z.testbit addrs' (Z.of_nat i)) →
  get_rtaddrs addrs sa rti1 m = get_rtaddrs addrs' sa rti2 m.
Proof.
  intros H1 H2 Hbits. unfold get_rtaddrs.
  apply get_rtaddrs_from_indep.
  - congruence.
  - intros j [Hj|Hj]; [lia|].
    rewrite !lookup_ge_None_2; [done|lia|lia].
  - intros j Hj. apply Hbits. lia.
Qed.

End more_get_rtaddrs.

Section more_proposals.
Context `{P : Platform}.

Lemma slot_copied_frame {B} (f : imsg_v4proposal → B) m rti i off size
    set p :
  (∀ bs q, f (set bs q) = f q) →
  f (slot_copied m rti i off size set p) = f p.
Proof. intros Hf. unfold slot_copied. by destruct (rti_slot rti i). Qed.

Lemma search_of_frame {B} (f : imsg_v4proposal → B) m rti p :
  (∀ bs q, f (set_p_rtsearch bs q) = f q) →
  (∀ v q, f (set_p_rtsearch_encoded v q) = f q) →
  f (search_of m rti p) = f p.
Proof.
  intros H1 H2. unfold search_of. destruct (rti_slot rti RTAX_SEARCH); [|done].
  rewrite H1. by case_bool_decide.
Qed.

Lemma mtu_of_frame {B} (f : imsg_v4proposal → B) m rtm p :
  (∀ v q, f (set_p_mtu v q) = f q) → f (mtu_of m rtm p) = f p.
Proof. intros Hf. unfold mtu_of. by case_bool_decide. Qed.

Lemma reads_to_copy_slot_eq rti i off size set p m :
  reads_to (copy_slot rti i off size set p) m
    (λ q, q = slot_copied m rti i off size set p).
Proof.
  unfold copy_slot, slot_copied. destruct (rti_slot rti i) as [sa|].
  - eapply reads_to_bind; [apply reads_to_load_bytes|].
    intros bs ->. by apply reads_to_ret.
  - by apply reads_to_ret.
Qed.

(** [build_proposal] reads memory and nothing else, and arrives at
    [proposal_of]. *)
Lemma reads_to_proposal_of addr_off rtm rti m :
  reads_to (build_proposal addr_off rtm rti) m
    (λ p, p = proposal_of addr_off m rtm rti).
Proof.
  unfold build_proposal, proposal_of.
  eapply (reads_to_bind _ _ _ (λ p, p = header_of m rtm)).
  { unfold copy_header, header_of.
    eapply reads_to_bind; [apply reads_to_load_int|]; intros ? ->.
    eapply reads_to_bind; [apply reads_to_load32|]; intros ? ->.
    eapply reads_to_bind; [apply reads_to_load_int|]; intros ? ->.
    eapply reads_to_bind; [apply reads_to_load_int|]; intros ? ->.
    eapply reads_to_bind; [apply reads_to_load16|]; intros ? ->.
    eapply reads_to_bind; [apply reads_to_load8|]; intros ? ->.
    by apply reads_to_ret. }
  intros ? ->.
  eapply (reads_to_bind _ _ _ (λ p, p = mtu_of m rtm (header_of m rtm))).
  { unfold mtu_of. case_bool_decide.
    - eapply reads_to_bind; [apply reads_to_load32|]; intros ? ->.
      by apply reads_to_ret.
    - by apply reads_to_ret. }
  intros ? ->.
  eapply reads_to_bind; [apply reads_to_copy_slot_eq|]. intros ? ->.
  eapply (reads_to_bind _ _ _ (λ p, p = search_of m rti _)).
  { unfold search_of. destruct (rti_slot rti RTAX_SEARCH) as [sa|].
    - eapply reads_to_bind; [apply reads_to_load8|]; intros ? ->.
      eapply reads_to_bind; [apply reads_to_load_bytes|]; intros ? ->.
      by apply reads_to_ret.
    - by apply reads_to_ret. }
  intros ? ->.
  do 6 (eapply reads_to_bind; [apply reads_to_copy_slot_eq|]; intros ? ->).
  apply reads_to_copy_slot_eq.
Qed.

Ltac through_slots f :=
  repeat first
    [ rewrite (slot_copied_frame f) by done
    | rewrite (search_of_frame f) by done
    | rewrite (mtu_of_frame f) by done ].

Lemma proposal_of_header addr_off m rtm rti :
  header_copied m rtm (proposal_of addr_off m rtm rti).
Proof.
  unfold header_copied, proposal_of. cbv zeta.
  split; [by through_slots p_addrs|by through_slots p_inits].
Qed.

Lemma proposal_of_scalars addr_off m rtm rti :
  scalars_copied m rtm (proposal_of addr_off m rtm rti).
Proof.
  unfold scalars_copied, proposal_of. cbv zeta.
  split_and!.
  - by through_slots p_flags.
  - by through_slots p_xid.
  - by through_slots p_index.
  - by through_slots p_source.
  - through_slots p_inits. intros Hmtu.
    do 7 (rewrite (slot_copied_frame p_mtu) by done).
    rewrite (search_of_frame p_mtu) by done.
    rewrite (slot_copied_frame p_mtu) by done.
    unfold mtu_of. by rewrite bool_decide_eq_true_2.
Qed.

Lemma slot_copied_here (f : imsg_v4proposal → list byte) m rti i off
    size set p sa :
  (∀ bs q, f (set bs q) = bs) →
  rti_slot rti i = Some sa →
  f (slot_copied m rti i off size set p) = peek_bytes m (sa + off) size.
Proof. intros Hf Hsa. unfold slot_copied. by rewrite Hsa. Qed.

Lemma proposal_of_present addr_off m rtm rti :
  present_is_copied addr_off m rti (proposal_of addr_off m rtm rti).
Proof.
  unfold present_is_copied, proposal_of. cbv zeta.
  split_and!; try (intros sa Hsa).
  - do 7 (rewrite (slot_copied_frame p_rtstatic) by done).
    rewrite (search_of_frame p_rtstatic) by done.
    by apply (slot_copied_here p_rtstatic).
  - do 7 (rewrite (slot_copied_frame p_rtsearch) by done).
    unfold search_of. by rewrite Hsa.
  - do 6 (rewrite (slot_copied_frame p_gateway) by done).
    by apply (slot_copied_here p_gateway).
  - do 5 (rewrite (slot_copied_frame p_ifa) by done).
    by apply (slot_copied_here p_ifa).
  - do 4 (rewrite (slot_copied_frame p_netmask) by done).
    by apply (slot_copied_here p_netmask).
  - do 3 (rewrite (slot_copied_frame p_dns1) by done).
    by apply (slot_copied_here p_dns1).
  - do 2 (rewrite (slot_copied_frame p_dns2) by done).
    by apply (slot_copied_here p_dns2).
  - do 1 (rewrite (slot_copied_frame p_dns3) by done).
    by apply (slot_copied_here p_dns3).
  - by apply (slot_copied_here p_dns4).
  - do 7 (rewrite (slot_copied_frame p_rtsearch_encoded) by done).
    unfold search_of. destruct (rti_slot rti RTAX_SEARCH) as [sa|].
    + case_bool_decide; [done|]. cbn.
      rewrite (slot_copied_frame p_rtsearch_encoded) by done.
      by rewrite (mtu_of_frame p_rtsearch_encoded).
    + rewrite (slot_copied_frame p_rtsearch_encoded) by done.
      by rewrite (mtu_of_frame p_rtsearch_encoded).
Qed.

(** What a pass over a message that is not partial does, with the
    proposal it forwards. *)
Lemma kr_dispatch_one_full len offset rti m :
  (RTAX_MAX ≤ length rti)%nat →
  partial_rtm m len offset = false →
  let version := peek8 m (offset + rt_msghdr.rtm_version) in
  let priority := peek8 m (offset + rt_msghdr.rtm_priority) in
  let addrs := signed 32 (peek32 big_endian m (offset + rt_msghdr.rtm_addrs)) in
  let sa := offset + peek16 big_endian m (offset + rt_msghdr.rtm_hdrlen) in
  ∃ v6 rti' t0,
    get_rtaddrs addrs sa rti m = (Ret (v6, rti'), t0)
    ∧ length rti' = length rti
    ∧ runs (kr_dispatch_one len offset rti) m
        (Ret (if bool_decide (version = RTM_VERSION) then rti' else rti))
        (if is_proposal m offset then
           [EvLogWarnx "I see a %s RTM_PROPOSAL from %d!"
              [ArgStr (if bool_decide (v6 ≠ 0) then "IPv6" else "IPv4");
               ArgInt priority];
            EvComposeEngine
              (if bool_decide (v6 ≠ 0)
               then IMSG_SEND_V6PROPOSAL else IMSG_SEND_V4PROPOSAL)
              0
              (proposal_of
                 (if bool_decide (v6 ≠ 0)
                  then sockaddr.sin6_addr else sockaddr.sin_addr)
                 m offset rti')]
         else []).
Proof.
  intros Hlen Hp version priority addrs sa.
  unfold partial_rtm in Hp. apply orb_false_iff in Hp as [Hp1 Hp2].
  unfold kr_dispatch_one, is_proposal.
  destruct (get_rtaddrs_from_spec RTAX_MAX 0 addrs sa 1 rti m Hlen)
    as (v6 & rti' & t0 & Hget & Ht0 & Hl' & _).
  exists v6, rti', t0. split_and!; [done|done|].
  rewrite Hp1.
  eapply (runs_reads _ _ _ (λ b, b = false)).
  { eapply reads_to_bind; [apply reads_to_load16|].
    intros ? ->. by apply reads_to_ret. }
  intros ? ->.
  eapply runs_reads; [apply reads_to_load8|]. intros ? ->.
  fold version.
  destruct (decide (version = RTM_VERSION)) as [Hv|Hv].
  2:{ rewrite (bool_decide_eq_true_2 (version ≠ RTM_VERSION)) by done.
      rewrite (bool_decide_eq_false_2 (version = RTM_VERSION)) by done.
      apply runs_ret. }
  rewrite (bool_decide_eq_false_2 (version ≠ RTM_VERSION)) by (by intros []).
  rewrite (bool_decide_eq_true_2 (version = RTM_VERSION)) by done.
  eapply runs_reads; [apply reads_to_load16|]. intros ? ->.
  eapply runs_reads; [apply reads_to_load_int|]. intros ? ->.
  fold addrs sa.
  eapply (runs_reads _ _ _ (λ r, r = (v6, rti'))).
  { by exists (v6, rti'), t0. }
  intros ? ->.
  eapply runs_reads; [apply reads_to_load8|]. intros ? ->.
  destruct (decide (peek8 m (offset + rt_msghdr.rtm_type) = RTM_PROPOSAL))
    as [Hty|Hty].
  2:{ rewrite !(bool_decide_eq_false_2 _ Hty). apply runs_ret. }
  rewrite !(bool_decide_eq_true_2 _ Hty). cbn [andb].
  eapply runs_reads; [apply reads_to_load8|]. intros ? ->.
  fold priority.
  apply runs_emit_bind; [done|].
  change [EvComposeEngine ?k 0 ?p] with ([EvComposeEngine k 0 p] ++ []).
  eapply runs_bind; [|apply runs_ret].
  clear Hp1 Hp2. case_bool_decide.
  - unfold forward_v6proposal.
    eapply runs_reads; [apply reads_to_proposal_of|].
    intros ? ->. by apply runs_emit.
  - unfold forward_v4proposal.
    eapply runs_reads; [apply reads_to_proposal_of|].
    intros ? ->. by apply runs_emit.
Qed.

End more_proposals.

Lemma forwarded_app t1 t2 : forwarded (t1 ++ t2) = forwarded t1 ++ forwarded t2.
Proof. apply omap_app. Qed.

Lemma forwarded_actions t : forwarded (actions t) = forwarded t.
Proof.
  unfold forwarded, actions. induction t as [|e t IH]; [done|].
  destruct e; cbn; rewrite ?IH; done.
Qed.

Lemma forwarded_loads (l : list Z) : forwarded (EvLoad <$> l) = [].
Proof. induction l as [|a l IH]; [done|]. by cbn. Qed.

Section more_dispatch.
Context `{P : Platform}.
Hypothesis HP : PlatformOk P.

(** Over a buffer of whole messages the loop forwards the proposals in
    the order of the buffer. *)
Lemma kr_dispatch_loop_forwards m len fuel : ∀ offset rti,
  len ≤ SSIZE_MAX →
  (RTAX_MAX ≤ length rti)%nat →
  visited m len offset →
  (∀ o, visited m len o → o < len →
        partial_rtm m len o = false
        ∧ 0 < peek16 big_endian m (o + rt_msghdr.rtm_msglen)) →
  (Z.to_nat (len - offset) < fuel)%nat →
  ∃ t, kr_dispatch_loop fuel len offset rti m = (Ret (), t)
       ∧ (λ x, p_xid x.2) <$> forwarded t
         = seq_at m <$> filter (λ o, is_proposal m o = true)
                          (message_offsets fuel m len offset).
Proof.
  induction fuel as [|fuel IH]; intros offset rti Hmax Hrti Hvis Hwf Hfuel;
    [lia|].
  destruct (decide (offset < len)) as [Hlt|Hge].
  2:{ rewrite kr_dispatch_loop_done by done. exists []. split; [done|].
      cbn [message_offsets]. by rewrite bool_decide_eq_false_2. }
  destruct (Hwf _ Hvis Hlt) as [Hp Hmsg].
  destruct (kr_dispatch_one_full len offset rti m Hrti Hp)
    as (v6 & rti' & t0 & Hget & Hlen' & t1 & Hone & Hacts).
  pose proof (visited_nonneg HP _ _ _ Hvis).
  pose proof (peek16_range big_endian m (offset + rt_msghdr.rtm_msglen)).
  edestruct (IH (size_add offset
                   (peek16 big_endian m (offset + rt_msghdr.rtm_msglen)))
               (if bool_decide
                     (peek8 m (offset + rt_msghdr.rtm_version) = RTM_VERSION)
                then rti' else rti))
    as (t2 & Hrest & Hxids); [done| |by apply visited_next|done| |].
  { destruct (bool_decide (peek8 _ _ = RTM_VERSION)); lia. }
  { rewrite (size_add_small HP) by lia. lia. }
  eexists. split.
  { rewrite kr_dispatch_loop_S by done.
    rewrite (bind_run_ret _ _ _ _ _ Hone).
    rewrite (bind_run_ret _ _ _ _ _ eq_refl).
    rewrite Hrest. cbn [fst snd]. reflexivity. }
  rewrite !forwarded_app, (forwarded_loads (footprint _ 2)), app_nil_l.
  rewrite fmap_app, Hxids.
  cbn [message_offsets]. rewrite bool_decide_eq_true_2 by done.
  rewrite filter_cons.
  rewrite <- forwarded_actions, Hacts.
  destruct (is_proposal m offset) eqn:Hprop.
  - rewrite decide_True by done. cbn.
    f_equal. unfold seq_at.
    by destruct (proposal_of_scalars
                   (if bool_decide (v6 ≠ 0)
                    then sockaddr.sin6_addr else sockaddr.sin_addr)
                   m offset rti') as (_ & -> & _).
  - rewrite decide_False by done. done.
Qed.

(** Every proposal the loop forwards is [proposal_of] a message the
    loop has reached. *)
Lemma kr_dispatch_loop_carries m len type pid p fuel : ∀ offset rti r t,
  length rti = RTAX_MAX →
  visited m len offset →
  kr_dispatch_loop fuel len offset rti m = (r, t) →
  EvComposeEngine type pid p ∈ t →
  ∃ o v6 rti' t0,
    visited m len o ∧ o < len ∧ is_proposal m o = true
    ∧ get_rtaddrs
        (signed 32 (peek32 big_endian m (o + rt_msghdr.rtm_addrs)))
        (o + peek16 big_endian m (o + rt_msghdr.rtm_hdrlen))
        (replicate RTAX_MAX None) m = (Ret (v6, rti'), t0)
    ∧ type = (if bool_decide (v6 ≠ 0)
              then IMSG_SEND_V6PROPOSAL else IMSG_SEND_V4PROPOSAL)
    ∧ pid = 0
    ∧ p = proposal_of
            (if bool_decide (v6 ≠ 0)
             then sockaddr.sin6_addr else sockaddr.sin_addr) m o rti'.
Proof.
  induction fuel as [|fuel IH]; intros offset rti r t Hrti Hvis Hloop Hin.
  { injection Hloop as <- <-. by apply elem_of_nil in Hin. }
  destruct (decide (offset < len)) as [Hlt|Hge].
  2:{ rewrite kr_dispatch_loop_done in Hloop by done. simplify_eq.
      by apply elem_of_nil in Hin. }
  destruct (partial_rtm m len offset) eqn:Hp.
  { rewrite kr_dispatch_loop_partial in Hloop by done.
    rewrite kr_dispatch_one_partial in Hloop by done. simplify_eq.
    apply elem_of_app in Hin as [Hin|Hin].
    - case_bool_decide; [by apply elem_of_nil in Hin|].
      exfalso. eapply only_loads_no_compose; [|exact Hin].
      apply (only_loads_fmap (footprint _ 2)).
    - by apply list_elem_of_singleton in Hin. }
  destruct (kr_dispatch_one_full len offset rti m ltac:(lia) Hp)
    as (v6 & rti' & t0 & Hget & Hlen' & t1 & Hone & Hacts).
  rewrite kr_dispatch_loop_S in Hloop by done.
  rewrite (bind_run_ret _ _ _ _ _ Hone) in Hloop.
  rewrite (bind_run_ret _ _ _ _ _ eq_refl) in Hloop.
  cbn [fst snd] in Hloop. simplify_eq.
  apply elem_of_app in Hin as [Hin|Hin].
  { apply elem_of_actions in Hin; [|done]. rewrite Hacts in Hin.
    destruct (is_proposal m offset) eqn:Hprop;
      [|by apply elem_of_nil in Hin].
    apply elem_of_cons in Hin as [?|Hin]; [done|].
    apply list_elem_of_singleton in Hin. simplify_eq.
    exists offset, v6, rti', t0. split_and!; try done.
    rewrite <- Hget. apply get_rtaddrs_indep; [|done|done].
    by rewrite length_replicate. }
  apply elem_of_cons in Hin as [?|Hin]; [done|].
  apply elem_of_cons in Hin as [?|Hin]; [done|].
  eapply (IH _ (if bool_decide
                     (peek8 m (offset + rt_msghdr.rtm_version) = RTM_VERSION)
                then rti' else rti)); [| | |done].
  - destruct (bool_decide (peek8 _ _ = RTM_VERSION)); lia.
  - by apply visited_next.
  - apply surjective_pairing.
Qed.

End more_dispatch.

(** X1: what [get_rtaddrs] returns, the slot array and the family flag,
    depends on the bitmap only through the bits of the [RTAX_MAX] slots
    and not at all on what the array held before: every entry is
    written, and the bits above the last slot are not looked at. *)
Theorem get_rtaddrs_overwrites_every_slot `{P : Platform} (m : memory)
    (addrs addrs' sa : Z) (rti1 rti2 : list (option Z)) :
  length rti1 = RTAX_MAX →
  length rti2 = RTAX_MAX →
  (∀ i, (i < RTAX_MAX)%nat →
     Z.testbit addrs (Z.of_nat i) = Z.testbit addrs' (Z.of_nat i)) →
  get_rtaddrs addrs sa rti1 m = get_rtaddrs addrs' sa rti2 m.
Proof. apply get_rtaddrs_indep. Qed.

Lemma get_rtaddrs_overwrites_every_slot_witness :
  get_rtaddrs (P := openbsd_amd64) 34 96 (replicate 17 None)
    (mem_of_list sample_proposal)
  = get_rtaddrs (P := openbsd_amd64) (34 + 2 ^ 20) 96 (replicate 17 (Some 7))
      (mem_of_list sample_proposal).
Proof.
  apply (get_rtaddrs_overwrites_every_slot (P := openbsd_amd64)).
  - reflexivity.
  - reflexivity.
  - intros i Hi.
    do 17 (destruct i as [|i]; [reflexivity|]).
    cbn in Hi. lia.
Defined.

(** X2: a proposal [kr_dispatch_msg] forwards belongs to a message the
    loop has reached, of the current version and of type
    [RTM_PROPOSAL].  It is sent as an IPv6 proposal exactly when
    [get_rtaddrs] reports that no present address has the family
    [AF_INET], and with the process id 0.  Its flags, transaction id,
    interface index and source are those of the header, and its MTU
    when the MTU bit is set; every member whose slot is present holds
    the bytes found at the slot, taken at the offset of [sin_addr] for
    an IPv4 proposal and of [sin6_addr] for an IPv6 one. *)
Theorem forwarded_proposal_carries_message `{P : Platform} (m : memory)
    (fuel : nat) (n errno : Z) (type : imsg_type) (pid : Z)
    (p : imsg_v4proposal) :
  EvComposeEngine type pid p ∈ (kr_dispatch_msg fuel n errno m).2 →
  ∃ offset v6 rti_info t0,
    visited m n offset ∧ offset < n ∧ is_proposal m offset = true
    ∧ get_rtaddrs
        (signed 32 (peek32 big_endian m (offset + rt_msghdr.rtm_addrs)))
        (offset + peek16 big_endian m (offset + rt_msghdr.rtm_hdrlen))
        (replicate RTAX_MAX None) m = (Ret (v6, rti_info), t0)
    ∧ type = (if bool_decide (v6 ≠ 0)
              then IMSG_SEND_V6PROPOSAL else IMSG_SEND_V4PROPOSAL)
    ∧ pid = 0
    ∧ scalars_copied m offset p
    ∧ present_is_copied
        (if bool_decide (v6 ≠ 0)
         then sockaddr.sin6_addr else sockaddr.sin_addr) m rti_info p.
Proof.
  intros Hin. unfold kr_dispatch_msg in Hin.
  repeat case_bool_decide.
  - by apply elem_of_nil in Hin.
  - cbn in Hin.
    apply elem_of_cons in Hin as [?|Hin]; [done|].
    by apply list_elem_of_singleton in Hin.
  - cbn in Hin.
    apply elem_of_cons in Hin as [?|Hin]; [done|].
    by apply list_elem_of_singleton in Hin.
  - destruct (kr_dispatch_loop_carries m n type pid p fuel 0
                (replicate RTAX_MAX None) _ _
                ltac:(by rewrite length_replicate)
                (visited_first m n)
                (surjective_pairing _) Hin)
      as (o & v6 & rti' & t0 & Hvis & Hlt & Hprop & Hget & -> & -> & ->).
    exists o, v6, rti', t0. split_and!; try done.
    + apply proposal_of_scalars.
    + apply proposal_of_present.
Qed.

Lemma forwarded_proposal_carries_message_witness :
  ∃ offset v6 rti_info t0,
    visited (P := openbsd_amd64) (mem_of_list sample_proposal) 128 offset
    ∧ offset < 128
    ∧ is_proposal (P := openbsd_amd64) (mem_of_list sample_proposal) offset
      = true
    ∧ get_rtaddrs (P := openbsd_amd64)
        (signed 32
           (peek32 false (mem_of_list sample_proposal)
              (offset + rt_msghdr.rtm_addrs)))
        (offset
         + peek16 false (mem_of_list sample_proposal)
             (offset + rt_msghdr.rtm_hdrlen))
        (replicate 17 None) (mem_of_list sample_proposal)
      = (Ret (v6, rti_info), t0)
    ∧ IMSG_SEND_V4PROPOSAL
      = (if bool_decide (v6 ≠ 0)
         then IMSG_SEND_V6PROPOSAL else IMSG_SEND_V4PROPOSAL)
    ∧ 0 = 0
    ∧ scalars_copied (P := openbsd_amd64) (mem_of_list sample_proposal)
        offset sample_decoded
    ∧ present_is_copied (P := openbsd_amd64)
        (if bool_decide (v6 ≠ 0)
         then sockaddr.sin6_addr else sockaddr.sin_addr)
        (mem_of_list sample_proposal) rti_info sample_decoded.
Proof.
  pose (run := kr_dispatch_msg (P := openbsd_amd64) 2 128 0
                 (mem_of_list sample_proposal)).
  apply (forwarded_proposal_carries_message (P := openbsd_amd64)
           (mem_of_list sample_proposal) 2 128 0
           IMSG_SEND_V4PROPOSAL 0 sample_decoded).
  apply (list_elem_of_lookup_2 _ (length run.2 - 3)).
  vm_compute. reflexivity.
Defined.

(** X3: when the [n] bytes read hold whole messages, each with a
    declared length above zero, [kr_dispatch_msg] returns, and it has
    forwarded one proposal for each message of the current version and
    of type [RTM_PROPOSAL], in the order of the buffer and each with the
    sequence number of its message as transaction id; the other messages
    are passed over. *)
Theorem proposals_forwarded_in_order `{P : Platform} (m : memory)
    (n errno : Z) (fuel : nat) :
  PlatformOk P →
  0 < n ≤ SSIZE_MAX →
  (∀ offset, visited m n offset → offset < n →
     partial_rtm m n offset = false
     ∧ 0 < peek16 big_endian m (offset + rt_msghdr.rtm_msglen)) →
  (Z.to_nat n < fuel)%nat →
  ∃ t, kr_dispatch_msg fuel n errno m = (Ret (), t)
       ∧ (λ x, p_xid x.2) <$> forwarded t
         = seq_at m <$> filter (λ o, is_proposal m o = true)
                          (message_offsets fuel m n 0).
Proof.
  intros HP Hn Hwf Hfuel. unfold kr_dispatch_msg.
  rewrite !bool_decide_eq_false_2 by lia.
  apply (kr_dispatch_loop_forwards HP); try done; try lia.
  - by rewrite length_replicate.
  - constructor.
Qed.

Lemma proposals_forwarded_in_order_witness :
  ∃ t, kr_dispatch_msg (P := openbsd_amd64) 400 352 0
         (mem_of_list sample_buffer) = (Ret (), t)
       ∧ (λ x, p_xid x.2) <$> forwarded t = [42; 43].
Proof.
  destruct (proposals_forwarded_in_order (P := openbsd_amd64)
              (mem_of_list sample_buffer) 352 0 400 openbsd_amd64_ok)
    as (t & Hrun & Hxids).
  - vm_compute. split; [reflexivity|discriminate].
  - assert (Hinv : ∀ o, visited (P := openbsd_amd64)
                          (mem_of_list sample_buffer) 352 o →
                        o = 0 ∨ o = 128 ∨ o = 224 ∨ o = 352).
    { induction 1 as [|o Hvis IH Hlt Hp]; [by left|].
      destruct IH as [-> | [-> | [-> | ->]]].
      - right; left. vm_compute. reflexivity.
      - right; right; left. vm_compute. reflexivity.
      - right; right; right. vm_compute. reflexivity.
      - vm_compute in Hlt. discriminate Hlt. }
    intros offset Hvis Hlt.
    destruct (Hinv _ Hvis) as [-> | [-> | [-> | ->]]].
    + vm_compute. split; reflexivity.
    + vm_compute. split; reflexivity.
    + vm_compute. split; reflexivity.
    + vm_compute in Hlt. discriminate Hlt.
  - lia.
  - exists t. split; [exact Hrun|]. rewrite Hxids. vm_compute. reflexivity.
Defined.

(** *** kr_init *)

Lemma rcvbuf_sizes_app t1 t2 :
  rcvbuf_sizes (t1 ++ t2) = rcvbuf_sizes t1 ++ rcvbuf_sizes t2.
Proof. apply omap_app. Qed.

Lemma log2_half a : 2 ≤ a → Z.log2 (a `quot` 2) = Z.log2 a - 1.
Proof.
  intros Ha. rewrite Z.quot_div_nonneg by lia.
  change 2 with (2 ^ 1) at 1. rewrite <- Z.shiftr_div_pow2 by lia.
  rewrite Z.log2_shiftr by lia.
  assert (1 ≤ Z.log2 a)
    by (apply Z.log2_le_pow2; [lia|change (2 ^ 1) with 2; lia]).
  lia.
Qed.

(** The loop ends when the size the kernel reports is not negative, and
    it asks for sizes above that one only, each half the one before. *)
Lemma grow_rcvbuf_spec io fuel : ∀ rcvbuf,
  0 ≤ default_rcvbuf io →
  (rcvbuf ≤ 0 ∧ (1 ≤ fuel)%nat)
  ∨ (0 < rcvbuf ∧ (Z.to_nat (Z.log2 rcvbuf) + 2 ≤ fuel)%nat) →
  ∃ t, grow_rcvbuf fuel io rcvbuf = Some t
       ∧ (∀ e, e ∈ t → ∃ s, e = KrSetsockopt (SO_RCVBUF s))
       ∧ ∀ k s, rcvbuf_sizes t !! k = Some s →
           s = rcvbuf `quot` 2 ^ Z.of_nat k
           ∧ default_rcvbuf io < s
           ∧ ∀ j, (j < k)%nat →
               rcvbuf_ret io (rcvbuf `quot` 2 ^ Z.of_nat j) = -1
               ∧ rcvbuf_errno io (rcvbuf `quot` 2 ^ Z.of_nat j) = ENOBUFS.
Proof.
  induction fuel as [|fuel IH]; intros rcvbuf Hdef Hfuel; [lia|].
  pose proof (Z.log2_nonneg rcvbuf) as Hlog.
  cbn [grow_rcvbuf]. case_bool_decide as Hgt.
  2:{ exists []. split; [done|]. split; [by intros e ?%elem_of_nil|].
      intros k s Hk. done. }
  destruct (bool_decide (rcvbuf_ret io rcvbuf = -1)
            && bool_decide (rcvbuf_errno io rcvbuf = ENOBUFS)) eqn:Hfail.
  2:{ exists [KrSetsockopt (SO_RCVBUF rcvbuf)]. split; [done|].
      split.
      { intros e ->%list_elem_of_singleton. by eexists. }
      intros [|k] s Hk; [|done]. cbn in Hk. simplify_eq.
      rewrite Z.quot_1_r. split_and!; [done|lia|]. intros j Hj. lia. }
  apply andb_true_iff in Hfail as [Hret Herr].
  apply bool_decide_eq_true_1 in Hret, Herr.
  destruct (IH (rcvbuf `quot` 2) Hdef) as (t & -> & Hev & Hsizes).
  { destruct (decide (rcvbuf = 1)) as [->|Hne].
    { left. change (1 `quot` 2) with 0. lia. }
    right. rewrite log2_half by lia.
    assert (1 ≤ Z.log2 rcvbuf)
      by (apply Z.log2_le_pow2; [lia|change (2 ^ 1) with 2; lia]).
    split; [|lia].
    rewrite Z.quot_div_nonneg by lia. apply Z.div_str_pos. lia. }
  exists (KrSetsockopt (SO_RCVBUF rcvbuf) :: t). split; [done|]. split.
  { intros e [->|He]%elem_of_cons; [by eexists|by apply Hev]. }
  intros [|k] s Hk.
  - cbn in Hk. simplify_eq.
    rewrite Z.quot_1_r. split_and!; [done|lia|]. intros j Hj. lia.
  - cbn in Hk. destruct (Hsizes k s Hk) as (-> & Hlt & Hprev).
    assert (Hpow : ∀ i : nat, (rcvbuf `quot` 2) `quot` 2 ^ Z.of_nat i
                              = rcvbuf `quot` 2 ^ Z.of_nat (S i)).
    { intros i. rewrite Z.quot_quot by lia.
      f_equal. rewrite Nat2Z.inj_succ, Z.pow_succ_r by lia. done. }
    split_and!; [apply Hpow|done|].
    intros [|j] Hj.
    + by rewrite Z.quot_1_r.
    + rewrite <- Hpow. apply Hprev. lia.
Qed.

(** X4: when the kernel reports a default receive buffer that is not
    negative, [kr_init] ends.  It returns -1 exactly when [socket] or
    the installation of the message filter fails, and 0 otherwise,
    whatever becomes of the other calls; the read event is registered
    in the second case and not in the first.  The sizes it asks for are
    the maximum, then half of it, and so on: each is above the default,
    and each but the one asked for last was refused with [ENOBUFS]. *)
Theorem kr_init_grows_buffer `{P : Platform} (NETCFGD_MAX_RTSOCK_BUF : Z)
    (io : kr_init_io) (fuel : nat) :
  0 ≤ default_rcvbuf io →
  (Z.to_nat (Z.log2 NETCFGD_MAX_RTSOCK_BUF) + 2 ≤ fuel)%nat →
  ∃ r t,
    kr_init NETCFGD_MAX_RTSOCK_BUF fuel io = Some (r, t)
    ∧ (r = -1 ↔ socket_ret io = -1 ∨ msgfilter_ret io = -1)
    ∧ (r ≠ -1 →
       r = 0
       ∧ ∃ t', t = t' ++ [KrGetpid; KrEventSet (Z.lor EV_READ EV_PERSIST);
                          KrEventAdd])
    ∧ (r = -1 → (KrEventAdd ∉ t) ∧ rcvbuf_sizes t = [])
    ∧ ∀ k s, rcvbuf_sizes t !! k = Some s →
        s = NETCFGD_MAX_RTSOCK_BUF `quot` 2 ^ Z.of_nat k
        ∧ default_rcvbuf io < s
        ∧ ∀ j, (j < k)%nat →
            rcvbuf_ret io (NETCFGD_MAX_RTSOCK_BUF `quot` 2 ^ Z.of_nat j) = -1
            ∧ rcvbuf_errno io (NETCFGD_MAX_RTSOCK_BUF `quot` 2 ^ Z.of_nat j)
              = ENOBUFS.
Proof.
  intros Hdef Hfuel. unfold kr_init.
  case_bool_decide as Hsock.
  { eexists _, _. split; [done|]. split_and!.
    - split; [by left|done].
    - done.
    - intros _. split; [|done].
      intros [?|[?|?%elem_of_nil]%elem_of_cons]%elem_of_cons; done.
    - intros k s Hk. done. }
  set (t1 := (if bool_decide (loopback_ret io = -1)
              then [KrSocket; KrSetsockopt (SO_USELOOPBACK 0)]
                   ++ [KrLogWarn "kr_init: setsockopt"]
              else [KrSocket; KrSetsockopt (SO_USELOOPBACK 0)])
             ++ [KrSetsockopt (ROUTE_MSGFILTER (ROUTE_FILTER RTM_PROPOSAL))]).
  assert (Ht1 : rcvbuf_sizes t1 = []).
  { unfold t1. by case_bool_decide. }
  assert (Ht1' : KrEventAdd ∉ t1).
  { unfold t1. rewrite elem_of_app. intros [Hin|Hin].
    - case_bool_decide; cbn in Hin;
        repeat (apply elem_of_cons in Hin as [?|Hin]; [done|]);
        by apply elem_of_nil in Hin.
    - by apply list_elem_of_singleton in Hin. }
  case_bool_decide as Hfilter.
  { eexists _, _. split; [done|]. split_and!.
    - split; [by right|done].
    - done.
    - intros _. split.
      + rewrite elem_of_app. intros [?|?%list_elem_of_singleton]; done.
      + by rewrite rcvbuf_sizes_app, Ht1.
    - intros k s. by rewrite rcvbuf_sizes_app, Ht1. }
  assert (Hgrown : ∃ grown,
    (if bool_decide (getsockopt_ret io = -1)
     then Some [KrLogWarn "kr_init getsockopt SOL_SOCKET SO_RCVBUF"]
     else grow_rcvbuf fuel io NETCFGD_MAX_RTSOCK_BUF) = Some grown
    ∧ ∀ k s, rcvbuf_sizes grown !! k = Some s →
        s = NETCFGD_MAX_RTSOCK_BUF `quot` 2 ^ Z.of_nat k
        ∧ default_rcvbuf io < s
        ∧ ∀ j, (j < k)%nat →
            rcvbuf_ret io (NETCFGD_MAX_RTSOCK_BUF `quot` 2 ^ Z.of_nat j) = -1
            ∧ rcvbuf_errno io (NETCFGD_MAX_RTSOCK_BUF `quot` 2 ^ Z.of_nat j)
              = ENOBUFS).
  { case_bool_decide.
    - eexists. split; [done|]. intros k s Hk. done.
    - destruct (grow_rcvbuf_spec io fuel NETCFGD_MAX_RTSOCK_BUF Hdef)
        as (t & Ht & _ & Hsizes).
      { destruct (decide (NETCFGD_MAX_RTSOCK_BUF ≤ 0)); [left|right]; lia. }
      by exists t. }
  destruct Hgrown as (grown & -> & Hsizes).
  eexists _, _. split; [done|]. split_and!.
  - split; [done|]. intros [?|?]; done.
  - intros _. split; [done|].
    exists ((t1 ++ [KrGetsockopt]) ++ grown). by rewrite <- !app_assoc.
  - done.
  - intros k s.
    rewrite !rcvbuf_sizes_app, Ht1. cbn. rewrite app_nil_r. apply Hsizes.
Qed.

Lemma kr_init_grows_buffer_witness :
  ∃ r t,
    kr_init (P := openbsd_amd64) 2097152 23 sample_kr_init_io = Some (r, t)
    ∧ r = 0
    ∧ rcvbuf_sizes t = [2097152; 1048576; 524288; 262144].
Proof.
  destruct (kr_init_grows_buffer (P := openbsd_amd64) 2097152
              sample_kr_init_io 23) as (r & t & Hrun & _).
  - discriminate.
  - vm_compute. lia.
  - exists r, t. split; [exact Hrun|].
    vm_compute in Hrun. injection Hrun as <- <-. split; reflexivity.
Defined.

(** ** Further properties of the requests to the kernel *)

Lemma fetch8_store8_ne x off v obj :
  0 ≤ off → off ≠ x → fetch8 x (store8 off v obj) = fetch8 x obj.
Proof.
  intros. unfold fetch8, peek8. rewrite mem_of_bytes_store8 by done.
  by rewrite bool_decide_eq_false_2 by lia.
Qed.

Lemma fetch8_store8 off v obj :
  0 ≤ off < Z.of_nat (length obj) →
  fetch8 off (store8 off v obj) = wrap 8 v.
Proof.
  intros. unfold fetch8, peek8. rewrite mem_of_bytes_store8 by lia.
  rewrite bool_decide_eq_true_2 by lia. apply byte_val_of_Z.
Qed.

Lemma fetch8_replicate x n : fetch8 x (replicate n x00) = 0.
Proof.
  unfold fetch8, peek8, mem_of_bytes. destruct (x <? 0); [done|].
  destruct (replicate n x00 !! Z.to_nat x) as [b|] eqn:Hb; [|done].
  apply lookup_replicate in Hb as [-> _]. done.
Qed.

Lemma fetch8_app x obj rest :
  0 ≤ x < Z.of_nat (length obj) → fetch8 x (obj ++ rest) = fetch8 x obj.
Proof.
  intros. unfold fetch8, peek8, mem_of_bytes.
  destruct (Z.ltb_spec x 0); [lia|]. by rewrite lookup_app_l by lia.
Qed.

Lemma wrap_signed bits x : 0 < bits → wrap bits (signed bits x) = wrap bits x.
Proof.
  intros Hb. unfold signed, wrap. destruct (_ <? _).
  - apply Z.mod_mod. apply Z.pow_nonzero; lia.
  - rewrite <- (Z.add_0_r (x mod 2 ^ bits)) at 2.
    rewrite <- (Z.mod_mod x (2 ^ bits)) at 2 by (apply Z.pow_nonzero; lia).
    replace (x mod 2 ^ bits - 2 ^ bits)
      with (x mod 2 ^ bits + (-1) * 2 ^ bits) by lia.
    rewrite Z.mod_add by (apply Z.pow_nonzero; lia).
    rewrite Z.add_0_r. done.
Qed.

Lemma signed_wrap bits x y :
  wrap bits x = wrap bits y → signed bits x = signed bits y.
Proof. unfold signed. by intros ->. Qed.

Lemma signed_add_l bits x y :
  0 < bits → signed bits (signed bits x + y) = signed bits (x + y).
Proof.
  intros Hb. apply signed_wrap. unfold wrap.
  rewrite Zplus_mod. fold (wrap bits (signed bits x)).
  rewrite wrap_signed by done. unfold wrap. by rewrite <- Zplus_mod.
Qed.

Lemma strncpy_cstring src : ∀ n,
  strncpy src n
  = take n (cstring src) ++ replicate (n - length (cstring src)) x00.
Proof.
  induction src as [|b src IH]; intros [|n]; try done.
  cbn. destruct (Byte.eqb b x00); [done|]. cbn. by rewrite IH.
Qed.

Lemma cstring_no_nul src : x00 ∉ cstring src.
Proof.
  induction src as [|b src IH]; cbn; [by intros ?%elem_of_nil|].
  destruct (Byte.eqb b x00) eqn:Hb; [by intros ?%elem_of_nil|].
  intros [Heq|Hin]%elem_of_cons; [by subst b|by apply IH].
Qed.

Lemma strncpy_terminated src n :
  x00 ∈ strncpy src n ↔ (length (cstring src) < n)%nat.
Proof.
  rewrite strncpy_cstring, elem_of_app. split.
  - intros [Hin|Hin].
    + apply elem_of_take in Hin as (i & Hi & _).
      apply list_elem_of_lookup_2 in Hi. by apply cstring_no_nul in Hi.
    + apply elem_of_replicate in Hin as [_ Hn]. lia.
  - intros Hlt. right. apply elem_of_replicate. split; [done|lia].
Qed.

Lemma length_strncpy src n : length (strncpy src n) = n.
Proof.
  rewrite strncpy_cstring, length_app, length_take, length_replicate. lia.
Qed.

Lemma memcpy_all old src n :
  length src = n → length old = n → memcpy old src n = src.
Proof.
  intros Hs Ho. unfold memcpy.
  rewrite take_ge, drop_ge, app_nil_r by lia. done.
Qed.

Section more_stores.
Context `{P : Platform}.

Lemma fetch16_fetch8 x obj :
  fetch16 x obj
  = if big_endian then fetch8 x obj * 256 + fetch8 (x + 1) obj
    else fetch8 x obj + fetch8 (x + 1) obj * 256.
Proof. reflexivity. Qed.

Lemma fetch32_fetch16 x obj :
  fetch32 x obj
  = if big_endian then fetch16 x obj * 65536 + fetch16 (x + 2) obj
    else fetch16 x obj + fetch16 (x + 2) obj * 65536.
Proof. unfold fetch32, fetch16, peek32. by destruct big_endian. Qed.

Lemma fetch8_store16_ne x off v obj :
  0 ≤ off → x < off ∨ off + 1 < x →
  fetch8 x (store16 off v obj) = fetch8 x obj.
Proof.
  intros. unfold store16.
  destruct big_endian; rewrite !fetch8_store8_ne by lia; done.
Qed.

Lemma fetch8_store32_ne x off v obj :
  0 ≤ off → x < off ∨ off + 3 < x →
  fetch8 x (store32 off v obj) = fetch8 x obj.
Proof.
  intros. unfold store32.
  destruct big_endian; rewrite !fetch8_store16_ne by lia; done.
Qed.

Lemma fetch32_store8_ne x off v obj :
  0 ≤ off → off < x ∨ x + 3 < off →
  fetch32 x (store8 off v obj) = fetch32 x obj.
Proof.
  intros. rewrite !fetch32_fetch16.
  by rewrite !fetch16_store8_ne by lia.
Qed.

Lemma fetch32_store16_ne x off v obj :
  0 ≤ off → off + 1 < x ∨ x + 3 < off →
  fetch32 x (store16 off v obj) = fetch32 x obj.
Proof.
  intros. rewrite !fetch32_fetch16.
  by rewrite !fetch16_store16_ne by lia.
Qed.

Lemma fetch32_store32_ne x off v obj :
  0 ≤ off → off + 3 < x ∨ x + 3 < off →
  fetch32 x (store32 off v obj) = fetch32 x obj.
Proof.
  intros. rewrite !fetch32_fetch16.
  by rewrite !fetch16_store32_ne by lia.
Qed.

Lemma fetch32_store32 off v obj :
  0 ≤ off → off + 3 < Z.of_nat (length obj) →
  fetch32 off (store32 off v obj) = wrap 32 v.
Proof.
  intros. rewrite fetch32_fetch16. unfold store32.
  assert (Hsplit : wrap 32 v = wrap 16 v + wrap 16 (v / 65536) * 65536).
  { unfold wrap. change (2 ^ 32) with (65536 * 65536).
    change (2 ^ 16) with 65536. rewrite Z.rem_mul_r by lia. lia. }
  destruct big_endian.
  - rewrite fetch16_store16 by (rewrite ?length_store16; lia).
    rewrite fetch16_store16_ne by lia.
    rewrite fetch16_store16 by lia. lia.
  - rewrite fetch16_store16 by (rewrite ?length_store16; lia).
    rewrite fetch16_store16_ne by lia.
    rewrite fetch16_store16 by lia. lia.
Qed.

Lemma fetch32_replicate x n : fetch32 x (replicate n x00) = 0.
Proof.
  rewrite fetch32_fetch16, !fetch16_fetch8, !fetch8_replicate.
  by destruct big_endian.
Qed.

Lemma fetch16_replicate x n : fetch16 x (replicate n x00) = 0.
Proof.
  rewrite fetch16_fetch8, !fetch8_replicate. by destruct big_endian.
Qed.

(** Adding to the length leaves the rest of the header alone. *)
Lemma fetch8_rtm_msglen_add x n rtm :
  2 ≤ x → fetch8 x (rtm_msglen_add n rtm) = fetch8 x rtm.
Proof.
  intros. unfold rtm_msglen_add. apply fetch8_store16_ne; offsets.
Qed.

Lemma fetch16_rtm_msglen_add x n rtm :
  2 ≤ x → fetch16 x (rtm_msglen_add n rtm) = fetch16 x rtm.
Proof.
  intros. rewrite !fetch16_fetch8.
  by rewrite !fetch8_rtm_msglen_add by lia.
Qed.

Lemma fetch32_rtm_msglen_add x n rtm :
  2 ≤ x → fetch32 x (rtm_msglen_add n rtm) = fetch32 x rtm.
Proof.
  intros. rewrite !fetch32_fetch16.
  by rewrite !fetch16_rtm_msglen_add by lia.
Qed.

Lemma length_rtm_msglen_add n rtm :
  length (rtm_msglen_add n rtm) = length rtm.
Proof. unfold rtm_msglen_add. apply length_store16. Qed.

(** The header [netcfgd_add_v4route] hands over is
    [add_v4route_header] up to the length. *)
Lemma add_v4route_build_header av4 :
  ∃ ns, (add_v4route_build av4).1
        = foldr rtm_msglen_add (add_v4route_header av4) ns.
Proof.
  unfold add_v4route_build, add_v4route_header.
  repeat case_bool_decide; cbn [fst].
  all: match goal with
       | |- ∃ ns, ?t = _ =>
           let rec go t acc :=
             lazymatch t with
             | rtm_msglen_add ?n ?r => go r (acc ++ [n])
             | _ => exists acc
             end in go t (@nil nat)
       end; reflexivity.
Qed.

Lemma foldr_rtm_msglen_add_frame {B} (f : list byte → B) ns rtm :
  (∀ n r, f (rtm_msglen_add n r) = f r) →
  f (foldr rtm_msglen_add rtm ns) = f rtm.
Proof.
  intros Hf. induction ns as [|n ns IH]; [done|]. cbn. by rewrite Hf.
Qed.

Lemma length_add_v4route_header av4 :
  length (add_v4route_header av4) = rt_msghdr.size.
Proof.
  unfold add_v4route_header.
  by rewrite !length_store32, !length_store16, !length_store8,
    length_replicate.
Qed.

Lemma length_delete_v4route_header dv4 seqno :
  length (delete_v4route_header dv4 seqno) = rt_msghdr.size.
Proof.
  unfold delete_v4route_header.
  by rewrite !length_store16, !length_store32, !length_store8,
    length_replicate.
Qed.

End more_stores.

Section more_routes.
Context `{P : Platform}.

Lemma rtm_of_app rtm rest :
  length rtm = rt_msghdr.size → rtm_of (rtm ++ rest) = rtm.
Proof.
  intros Hlen. unfold rtm_of. rewrite <- Hlen.
  by rewrite take_app_length.
Qed.

Ltac header_frames :=
  repeat
    (progress
       rewrite ?fetch8_store32_ne, ?fetch8_store16_ne, ?fetch8_store8_ne,
         ?fetch16_store32_ne, ?fetch16_store16_ne, ?fetch16_store8_ne,
         ?fetch32_store32_ne, ?fetch32_store16_ne, ?fetch32_store8_ne
         by (autounfold with rt_offsets in *; lia)).

Lemma add_v4route_header_spec av4 :
  let rtm := add_v4route_header av4 in
  fetch8 rt_msghdr.rtm_version rtm = RTM_VERSION
  ∧ fetch8 rt_msghdr.rtm_type rtm = RTM_ADD
  ∧ fetch16 rt_msghdr.rtm_tableid rtm = wrap 16 (av4_rdomain av4)
  ∧ fetch32 rt_msghdr.rtm_addrs rtm = wrap 32 (av4_addrs av4)
  ∧ fetch32 rt_msghdr.rtm_flags rtm = wrap 32 (av4_flags av4)
  ∧ ∀ a, 4 ≤ a < 8 ∨ 10 ≤ a < 12 ∨ 20 ≤ a < 96 → fetch8 a rtm = 0.
Proof.
  cbv zeta. unfold add_v4route_header. split_and!.
  - header_frames.
    rewrite fetch8_store8; [done|].
    rewrite length_replicate. offsets.
  - header_frames.
    rewrite fetch8_store8; [done|].
    rewrite !length_store8, length_replicate. offsets.
  - header_frames.
    rewrite fetch16_store16; [done|offsets|].
    rewrite !length_store16, !length_store8, length_replicate. offsets.
  - header_frames.
    rewrite fetch32_store32; [done|offsets|].
    rewrite !length_store16, !length_store8, length_replicate. offsets.
  - rewrite fetch32_store32; [done|offsets|].
    rewrite !length_store32, !length_store16, !length_store8,
      length_replicate. offsets.
  - intros a Ha.
    destruct (decide (a = rt_msghdr.rtm_priority)) as [->|Hne].
    + header_frames.
      rewrite fetch8_store8; [done|].
      rewrite !length_store8, length_replicate. offsets.
    + header_frames. apply fetch8_replicate.
Qed.

Lemma delete_v4route_header_spec dv4 seqno :
  let rtm := delete_v4route_header dv4 seqno in
  fetch8 rt_msghdr.rtm_version rtm = RTM_VERSION
  ∧ fetch8 rt_msghdr.rtm_type rtm = RTM_DELETE
  ∧ fetch32 rt_msghdr.rtm_addrs rtm
    = Z.lor (Z.lor RTA_DST RTA_GATEWAY) RTA_NETMASK
  ∧ fetch32 rt_msghdr.rtm_seq rtm = wrap 32 seqno
  ∧ fetch16 rt_msghdr.rtm_index rtm = wrap 16 (dv4_index dv4)
  ∧ fetch16 rt_msghdr.rtm_tableid rtm = wrap 16 (dv4_rdomain dv4)
  ∧ ∀ a, 4 ≤ a < 6 ∨ 10 ≤ a < 12 ∨ 16 ≤ a < 28 ∨ 32 ≤ a < 96 →
      fetch8 a rtm = 0.
Proof.
  cbv zeta. unfold delete_v4route_header. split_and!.
  - header_frames.
    rewrite fetch8_store8; [done|].
    rewrite length_replicate. offsets.
  - header_frames.
    rewrite fetch8_store8; [done|].
    rewrite !length_store8, length_replicate. offsets.
  - header_frames.
    rewrite fetch32_store32; [done|offsets|].
    rewrite !length_store8, length_replicate. offsets.
  - header_frames.
    rewrite fetch32_store32; [done|offsets|].
    rewrite !length_store32, !length_store8, length_replicate. offsets.
  - header_frames.
    rewrite fetch16_store16; [done|offsets|].
    rewrite !length_store32, !length_store8, length_replicate. offsets.
  - rewrite fetch16_store16; [done|offsets|].
    rewrite !length_store16, !length_store32, !length_store8,
      length_replicate. offsets.
  - intros a Ha. header_frames. apply fetch8_replicate.
Qed.

(** One call of [netcfgd_delete_v4route]. *)
Lemma delete_v4route_run dv4 seqno writev_ret :
  netcfgd_delete_v4route dv4 seqno writev_ret
  = (signed 32 (seqno + 1),
     EvWritev
       (foldr rtm_msglen_add (delete_v4route_header dv4 seqno)
          [length (dv4_netmask dv4); length (dv4_gateway dv4);
           length (dv4_dest dv4)]
        ++ dv4_dest dv4 ++ dv4_gateway dv4 ++ dv4_netmask dv4)
     :: (if bool_decide (writev_ret = -1)
         then [EvLogWarn "v4_delete_route" []] else [])).
Proof.
  unfold netcfgd_delete_v4route. f_equal. f_equal. f_equal.
  unfold writev_data. cbn.
  rewrite !take_all, app_nil_r.
  rewrite take_ge; [done|].
  rewrite !length_rtm_msglen_add.
  by rewrite !length_store16, !length_store32, !length_store8.
Qed.

Lemma length_foldr_rtm_msglen_add ns rtm :
  length (foldr rtm_msglen_add rtm ns) = length rtm.
Proof.
  apply (foldr_rtm_msglen_add_frame length). apply length_rtm_msglen_add.
Qed.

Lemma written_app t1 t2 : written (t1 ++ t2) = written t1 ++ written t2.
Proof. apply omap_app. Qed.

Lemma delete_v4routes_spec calls : ∀ seqno,
  (delete_v4routes calls seqno).1
  = signed 32 (seqno + Z.of_nat (length calls))
    ∨ (calls = [] ∧ (delete_v4routes calls seqno).1 = seqno).
Proof.
  induction calls as [|[dv4 ret] calls IH]; intros seqno; [by right|].
  left. cbn [delete_v4routes]. rewrite delete_v4route_run.
  destruct (delete_v4routes calls (signed 32 (seqno + 1))) as [s t] eqn:Hrest.
  cbn [fst]. specialize (IH (signed 32 (seqno + 1))).
  rewrite Hrest in IH. cbn [fst] in IH.
  destruct IH as [-> | [-> ->]].
  - rewrite signed_add_l by lia. f_equal; cbn [length]; lia.
  - f_equal; cbn; lia.
Qed.

Lemma delete_v4routes_written calls : ∀ seqno k dv4 ret,
  calls !! k = Some (dv4, ret) →
  ∃ seqno' rest,
    written (delete_v4routes calls seqno).2 !! k
    = Some (foldr rtm_msglen_add (delete_v4route_header dv4 seqno')
              [length (dv4_netmask dv4); length (dv4_gateway dv4);
               length (dv4_dest dv4)] ++ rest)
    ∧ wrap 32 seqno' = wrap 32 (seqno + Z.of_nat k).
Proof.
  induction calls as [|[dv4' ret'] calls IH]; intros seqno k dv4 ret Hk;
    [done|].
  cbn [delete_v4routes]. rewrite delete_v4route_run.
  destruct (delete_v4routes calls (signed 32 (seqno + 1))) as [s t] eqn:Hrest.
  cbn [snd]. rewrite written_app.
  assert (Hone : ∀ data,
            written (EvWritev data
                     :: (if bool_decide (ret' = -1)
                         then [EvLogWarn "v4_delete_route" []] else []))
            = [data]) by (intros; by case_bool_decide).
  destruct k as [|k].
  - cbn in Hk. simplify_eq. eexists seqno, _.
    rewrite Hone. cbn. split; [done|]. f_equal. lia.
  - cbn in Hk.
    destruct (IH (signed 32 (seqno + 1)) k dv4 ret Hk)
      as (seqno' & rest & Hdata & Hseq).
    rewrite Hrest in Hdata. cbn [snd] in Hdata.
    exists seqno', rest. rewrite Hone. cbn. split; [done|].
    rewrite Hseq. unfold wrap. rewrite Zplus_mod.
    fold (wrap 32 (signed 32 (seqno + 1))). rewrite wrap_signed by lia.
    unfold wrap. rewrite <- Zplus_mod. f_equal. lia.
Qed.

Lemma length_written_delete_v4routes calls : ∀ seqno,
  length (written (delete_v4routes calls seqno).2) = length calls.
Proof.
  induction calls as [|[dv4 ret] calls IH]; intros seqno; [done|].
  cbn [delete_v4routes]. rewrite delete_v4route_run.
  specialize (IH (signed 32 (seqno + 1))).
  destruct (delete_v4routes calls (signed 32 (seqno + 1))) as [s t].
  cbn [snd] in *. rewrite written_app, length_app, IH.
  by case_bool_decide.
Qed.

End more_routes.

(** X5: the header [netcfgd_add_v4route] hands to [writev] carries the
    version of the routing socket, the type [RTM_ADD], and the routing
    domain, the presence bitmap and the flags of the request, cut to the
    width of their members; every byte of it outside these members and
    the length is zero, the sequence number, the interface index and the
    length of the header among them. *)
Theorem add_v4route_header_fields `{P : Platform} (av4 : imsg_add_v4route)
    (writev_ret : Z) :
  ∃ data,
    written (netcfgd_add_v4route av4 writev_ret) = [data]
    ∧ length (rtm_of data) = rt_msghdr.size
    ∧ fetch8 rt_msghdr.rtm_version (rtm_of data) = RTM_VERSION
    ∧ fetch8 rt_msghdr.rtm_type (rtm_of data) = RTM_ADD
    ∧ fetch16 rt_msghdr.rtm_tableid (rtm_of data)
      = wrap 16 (av4_rdomain av4)
    ∧ fetch32 rt_msghdr.rtm_addrs (rtm_of data) = wrap 32 (av4_addrs av4)
    ∧ fetch32 rt_msghdr.rtm_flags (rtm_of data) = wrap 32 (av4_flags av4)
    ∧ ∀ a, 4 ≤ a < 8 ∨ 10 ≤ a < 12 ∨ 20 ≤ a < 96 →
        fetch8 a (rtm_of data) = 0.
Proof.
  unfold netcfgd_add_v4route.
  destruct (add_v4route_build_header av4) as [ns Hhdr].
  destruct (add_v4route_build av4) as [rtm iov] eqn:Hbuild.
  destruct (add_v4route_build_spec av4 rtm iov Hbuild) as (Hlen & _ & Hdata).
  cbn [fst] in Hhdr.
  exists (rtm ++ concat (add_v4route_payloads av4)).
  split.
  { cbn [written omap]. rewrite Hdata by done. by case_bool_decide. }
  rewrite rtm_of_app by done. split; [done|]. subst rtm.
  destruct (add_v4route_header_spec av4) as (Hv & Ht & Htab & Ha & Hf & Hz).
  split_and!.
  - rewrite (foldr_rtm_msglen_add_frame (fetch8 _)); [done|].
    intros. apply fetch8_rtm_msglen_add. offsets.
  - rewrite (foldr_rtm_msglen_add_frame (fetch8 _)); [done|].
    intros. apply fetch8_rtm_msglen_add. offsets.
  - rewrite (foldr_rtm_msglen_add_frame (fetch16 _)); [done|].
    intros. apply fetch16_rtm_msglen_add. offsets.
  - rewrite (foldr_rtm_msglen_add_frame (fetch32 _)); [done|].
    intros. apply fetch32_rtm_msglen_add. offsets.
  - rewrite (foldr_rtm_msglen_add_frame (fetch32 _)); [done|].
    intros. apply fetch32_rtm_msglen_add. offsets.
  - intros a Ha'.
    rewrite (foldr_rtm_msglen_add_frame (fetch8 _)); [by apply Hz|].
    intros. apply fetch8_rtm_msglen_add. lia.
Qed.

(** X6: successive calls of [netcfgd_delete_v4route] hand one message
    each to [writev], and the message of call [k], counted from 0,
    carries as sequence number the value the counter had at the first
    call plus [k], cut to 32 bits; after the calls the counter has
    advanced by their number.  The header of each message carries the
    version of the routing socket, the type [RTM_DELETE], the bitmap of
    destination, gateway and netmask, and the interface index and the
    routing domain of its request; every byte of it outside these
    members and the length is zero. *)
Theorem delete_v4route_sequence `{P : Platform}
    (calls : list (imsg_delete_v4route * Z)) (seqno : Z) (k : nat)
    (dv4 : imsg_delete_v4route) (writev_ret : Z) :
  calls !! k = Some (dv4, writev_ret) →
  (delete_v4routes calls seqno).1
  = signed 32 (seqno + Z.of_nat (length calls))
  ∧ length (written (delete_v4routes calls seqno).2) = length calls
  ∧ ∃ data,
      written (delete_v4routes calls seqno).2 !! k = Some data
      ∧ length (rtm_of data) = rt_msghdr.size
      ∧ fetch32 rt_msghdr.rtm_seq (rtm_of data)
        = wrap 32 (seqno + Z.of_nat k)
      ∧ fetch8 rt_msghdr.rtm_version (rtm_of data) = RTM_VERSION
      ∧ fetch8 rt_msghdr.rtm_type (rtm_of data) = RTM_DELETE
      ∧ fetch32 rt_msghdr.rtm_addrs (rtm_of data)
        = Z.lor (Z.lor RTA_DST RTA_GATEWAY) RTA_NETMASK
      ∧ fetch16 rt_msghdr.rtm_index (rtm_of data) = wrap 16 (dv4_index dv4)
      ∧ fetch16 rt_msghdr.rtm_tableid (rtm_of data)
        = wrap 16 (dv4_rdomain dv4)
      ∧ ∀ a, 4 ≤ a < 6 ∨ 10 ≤ a < 12 ∨ 16 ≤ a < 28 ∨ 32 ≤ a < 96 →
          fetch8 a (rtm_of data) = 0.
Proof.
  intros Hk. split_and!.
  - destruct (delete_v4routes_spec calls seqno) as [?|[-> _]]; done.
  - apply length_written_delete_v4routes.
  - destruct (delete_v4routes_written calls seqno k dv4 writev_ret Hk)
      as (seqno' & rest & Hdata & Hseq).
    eexists. split; [exact Hdata|].
    rewrite rtm_of_app
      by (by rewrite length_foldr_rtm_msglen_add,
            length_delete_v4route_header).
    destruct (delete_v4route_header_spec dv4 seqno')
      as (Hv & Ht & Ha & Hs & Hi & Htab & Hz).
    split_and!.
    + by rewrite length_foldr_rtm_msglen_add, length_delete_v4route_header.
    + rewrite (foldr_rtm_msglen_add_frame (fetch32 _)); [by rewrite Hs|].
      intros. apply fetch32_rtm_msglen_add. offsets.
    + rewrite (foldr_rtm_msglen_add_frame (fetch8 _)); [done|].
      intros. apply fetch8_rtm_msglen_add. offsets.
    + rewrite (foldr_rtm_msglen_add_frame (fetch8 _)); [done|].
      intros. apply fetch8_rtm_msglen_add. offsets.
    + rewrite (foldr_rtm_msglen_add_frame (fetch32 _)); [done|].
      intros. apply fetch32_rtm_msglen_add. offsets.
    + rewrite (foldr_rtm_msglen_add_frame (fetch16 _)); [done|].
      intros. apply fetch16_rtm_msglen_add. offsets.
    + rewrite (foldr_rtm_msglen_add_frame (fetch16 _)); [done|].
      intros. apply fetch16_rtm_msglen_add. offsets.
    + intros a Ha'.
      rewrite (foldr_rtm_msglen_add_frame (fetch8 _)); [by apply Hz|].
      intros. apply fetch8_rtm_msglen_add. lia.
Qed.

Lemma delete_v4route_sequence_witness :
  ∃ data,
    written
      (delete_v4routes (P := openbsd_amd64)
         [(sample_delete_v4route, 0); (sample_delete_v4route, -1);
          (sample_delete_v4route, 0)] 0).2 !! 2%nat = Some data
    ∧ fetch32 (P := openbsd_amd64) rt_msghdr.rtm_seq (rtm_of data) = 2.
Proof.
  destruct (delete_v4route_sequence (P := openbsd_amd64)
              [(sample_delete_v4route, 0); (sample_delete_v4route, -1);
               (sample_delete_v4route, 0)] 0 2
              sample_delete_v4route 0 eq_refl)
    as (_ & _ & data & Hdata & _ & Hseq & _).
  exists data. split; [exact Hdata|exact Hseq].
Defined.

(** X7: each of the two address functions issues one [ioctl].  Its
    request names the interface by the name of the message cut to
    [IFNAMSIZ] bytes and padded with NUL, which leaves it without a
    terminator exactly when the name fills the array; it carries the
    address of the message, and the netmask when an address is added,
    and its other members are zero: the destination always, and the
    netmask when an address is deleted.  A warning is logged exactly
    when [ioctl] returns -1. *)
Theorem v4address_requests (dv4 : imsg_delete_v4address)
    (av4 : imsg_add_v4address) (ioctl_ret : Z) :
  length (dv4a_addr dv4) = sizeof_sockaddr_in →
  length (av4a_addr av4) = sizeof_sockaddr_in →
  length (av4a_mask av4) = sizeof_sockaddr_in →
  (∃ req,
     netcfgd_delete_v4address dv4 ioctl_ret
     = EvIoctl SIOCDIFADDR req
       :: (if bool_decide (ioctl_ret = -1)
           then [EvLogWarn "v4_delete_address %s"
                   [ArgAddr (sin_addr_of (dv4a_addr dv4))]]
           else [])
     ∧ ifra_name req
       = take IFNAMSIZ (cstring (dv4a_name dv4))
         ++ replicate (IFNAMSIZ - length (cstring (dv4a_name dv4))) x00
     ∧ (x00 ∈ ifra_name req
        ↔ (length (cstring (dv4a_name dv4)) < IFNAMSIZ)%nat)
     ∧ ifra_addr req = dv4a_addr dv4
     ∧ ifra_dstaddr req = replicate sizeof_sockaddr x00
     ∧ ifra_mask req = replicate sizeof_sockaddr x00)
  ∧ (∃ req,
       netcfgd_add_v4address av4 ioctl_ret
       = EvIoctl SIOCAIFADDR req
         :: (if bool_decide (ioctl_ret = -1)
             then [EvLogWarn "v4_add_address %s"
                     [ArgAddr (sin_addr_of (av4a_addr av4))]]
             else [])
       ∧ ifra_name req
         = take IFNAMSIZ (cstring (av4a_name av4))
           ++ replicate (IFNAMSIZ - length (cstring (av4a_name av4))) x00
       ∧ (x00 ∈ ifra_name req
          ↔ (length (cstring (av4a_name av4)) < IFNAMSIZ)%nat)
       ∧ ifra_addr req = av4a_addr av4
       ∧ ifra_dstaddr req = replicate sizeof_sockaddr x00
       ∧ ifra_mask req = av4a_mask av4).
Proof.
  intros Hd Ha Hm. split.
  - eexists. unfold netcfgd_delete_v4address. cbn [ifra_name ifra_addr
      ifra_dstaddr ifra_mask].
    split; [|split_and!].
    + rewrite (memcpy_all _ (dv4a_addr dv4)) by done. reflexivity.
    + apply strncpy_cstring.
    + apply strncpy_terminated.
    + done.
    + done.
    + done.
  - eexists. unfold netcfgd_add_v4address. cbn [ifra_name ifra_addr
      ifra_dstaddr ifra_mask].
    split; [reflexivity|split_and!].
    + apply strncpy_cstring.
    + apply strncpy_terminated.
    + by apply memcpy_all.
    + done.
    + by apply memcpy_all.
Qed.

Lemma v4address_requests_witness :
  ∃ req,
    netcfgd_add_v4address sample_add_v4address (-1)
    = [EvIoctl SIOCAIFADDR req;
       EvLogWarn "v4_add_address %s"
         [ArgAddr (byte_of_Z <$> [192; 168; 1; 2])]]
    ∧ ifra_name req = sample_ifname
    ∧ ifra_mask req = sample_sin 255 255 255 0.
Proof.
  destruct (v4address_requests sample_delete_v4address sample_add_v4address
              (-1) eq_refl eq_refl eq_refl)
    as (_ & req & Hrun & Hname & _ & _ & _ & Hmask).
  exists req. split; [exact Hrun|]. split; [exact Hname|exact Hmask].
Defined.

(** ** Properties of the supervisor *)

Lemma sup_bind_done {A B} (c : Sup A) (k : A → Sup B) s a s' t1 :
  c s = (Done a s', t1) →
  (c ≫= k) s = ((k a s').1, t1 ++ (k a s').2).
Proof.
  intros Hc. unfold mbind, Sup_bind, sup_bind. rewrite Hc.
  by destruct (k a s').
Qed.

Lemma composes_app t1 t2 : composes (t1 ++ t2) = composes t1 ++ composes t2.
Proof. apply omap_app. Qed.

Section sending.
Variable ret : nat → Z.

Lemma first_failure_app k n1 n2 :
  first_failure ret k (n1 + n2)
  = match first_failure ret k n1 with
    | Some i => Some i
    | None => (λ i, n1 + i)%nat <$> first_failure ret (k + n1) n2
    end.
Proof.
  revert k. induction n1 as [|n1 IH]; intros k.
  - cbn. rewrite Nat.add_0_r. by destruct (first_failure ret k n2).
  - cbn. case_bool_decide; [done|]. rewrite IH.
    destruct (first_failure ret (S k) n1); [done|].
    replace (S k + n1)%nat with (k + S n1)%nat by lia.
    by destruct (first_failure ret (k + S n1) n2).
Qed.

Lemma sent_app k l1 l2 :
  sent ret k (l1 ++ l2)
  = match first_failure ret k (length l1) with
    | Some _ => sent ret k l1
    | None => sent ret k l1 ++ sent ret (k + length l1) l2
    end.
Proof.
  revert k. induction l1 as [|[[iev ty] d] l1 IH]; intros k.
  - cbn. by rewrite Nat.add_0_r.
  - cbn. case_bool_decide; [done|]. rewrite IH.
    destruct (first_failure ret (S k) (length l1)); cbn; [done|].
    by replace (k + S (length l1))%nat with (S (k + length l1))%nat by lia.
Qed.

Lemma composes_sent k msgs :
  composes (sent ret k msgs)
  = match first_failure ret k (length msgs) with
    | Some i => take (S i) msgs
    | None => msgs
    end.
Proof.
  revert k. induction msgs as [|[[iev ty] d] msgs IH]; intros k; [done|].
  cbn. case_bool_decide; cbn; [by rewrite take_0|]. rewrite IH.
  by destruct (first_failure ret (S k) (length msgs)).
Qed.

(** [main_sendboth] sends to the frontend and then to the engine, and
    gives up at the first failure. *)
Lemma main_sendboth_spec type buf s :
  ∃ r s',
    supervisor.main_sendboth ret type buf s
    = (Done r s', sent ret (composed s) (both type buf))
    ∧ sup_heap s' = sup_heap s
    ∧ match first_failure ret (composed s) 2 with
      | Some _ => r = -1
      | None => r = 0 ∧ composed s' = (composed s + 2)%nat
      end.
Proof.
  unfold supervisor.main_sendboth, supervisor.imsg_compose_event,
    supervisor.imsg_compose, supervisor.imsg_event_add, supervisor.emit.
  unfold mbind, Sup_bind, sup_bind, mret, Sup_ret, sup_ret. cbn.
  destruct (decide (ret (composed s) = -1)) as [H1|H1].
  { rewrite (bool_decide_eq_false_2 (ret (composed s) ≠ -1)) by tauto.
    rewrite !(bool_decide_eq_true_2 _ H1). cbn. by eexists _, _. }
  rewrite (bool_decide_eq_true_2 (ret (composed s) ≠ -1)) by done.
  rewrite !(bool_decide_eq_false_2 _ H1). cbn.
  destruct (decide (ret (S (composed s)) = -1)) as [H2|H2].
  { rewrite (bool_decide_eq_false_2 (ret (S (composed s)) ≠ -1)) by tauto.
    rewrite !(bool_decide_eq_true_2 _ H2). cbn. by eexists _, _. }
  rewrite (bool_decide_eq_true_2 (ret (S (composed s)) ≠ -1)) by done.
  rewrite !(bool_decide_eq_false_2 _ H2). cbn.
  eexists _, _. split_and!; try done. cbn. lia.
Qed.

Lemma send_groups_spec l : ∀ gs s,
  Forall2 (λ p g, groups (sup_heap s) !! p = Some g) l gs →
  let msgs := gs ≫= λ g, both IMSG_RECONF_GROUP (GroupData g) in
  ∃ r s',
    supervisor.send_groups ret l s = (Done r s', sent ret (composed s) msgs)
    ∧ sup_heap s' = sup_heap s
    ∧ match first_failure ret (composed s) (length msgs) with
      | Some _ => r = -1
      | None => r = 0 ∧ composed s' = (composed s + length msgs)%nat
      end.
Proof.
  induction l as [|p l IH]; intros gs s Hgs msgs.
  { apply Forall2_nil_inv_l in Hgs as ->. exists 0, s.
    split_and!; try done; cbn; lia. }
  apply Forall2_cons_inv_l in Hgs as (g & gs' & Hg & Hgs' & ->).
  subst msgs. cbn [mbind list_bind]. fold (@mbind list _).
  cbn [supervisor.send_groups].
  assert (Hget : supervisor.get_group p s = (Done g s, [])).
  { unfold supervisor.get_group. by rewrite Hg. }
  rewrite (sup_bind_done _ _ _ _ _ _ Hget), app_nil_l.
  destruct (main_sendboth_spec IMSG_RECONF_GROUP (GroupData g) s)
    as (r1 & s1 & Hrun1 & Hh1 & Hr1).
  rewrite (sup_bind_done _ _ _ _ _ _ Hrun1).
  rewrite sent_app, length_app, first_failure_app.
  change (length (both IMSG_RECONF_GROUP (GroupData g))) with 2%nat.
  destruct (first_failure ret (composed s) 2) as [i|] eqn:Hff.
  { subst r1. rewrite bool_decide_eq_true_2 by done.
    exists (-1), s1. by rewrite app_nil_r. }
  destruct Hr1 as [-> Hc1].
  rewrite bool_decide_eq_false_2 by done.
  destruct (IH gs' s1) as (r2 & s2 & Hrun2 & Hh2 & Hr2).
  { by rewrite Hh1. }
  rewrite Hrun2, Hc1. cbn [fst snd].
  exists r2, s2. split_and!; [done|congruence|].
  rewrite Hc1 in Hr2.
  destruct (first_failure ret (composed s + 2) _); cbn; [done|].
  destruct Hr2 as [-> ->]. split; [done|].
  rewrite <- Nat.add_assoc. by f_equal.
Qed.

Lemma main_imsg_send_config_spec xconf x gs s :
  confs (sup_heap s) !! xconf = Some x →
  Forall2 (λ p g, groups (sup_heap s) !! p = Some g) (group_list x) gs →
  let msgs := config_messages x gs in
  ∃ r s',
    supervisor.main_imsg_send_config ret xconf s
    = (Done r s', sent ret (composed s) msgs)
    ∧ sup_heap s' = sup_heap s
    ∧ match first_failure ret (composed s) (length msgs) with
      | Some _ => r = -1
      | None => r = 0
      end.
Proof.
  intros Hx Hgs msgs. subst msgs. unfold config_messages.
  unfold supervisor.main_imsg_send_config.
  assert (Hget : supervisor.get_conf xconf s = (Done x s, [])).
  { unfold supervisor.get_conf. by rewrite Hx. }
  rewrite (sup_bind_done _ _ _ _ _ _ Hget), app_nil_l.
  destruct (main_sendboth_spec IMSG_RECONF_CONF (ConfData x) s)
    as (r1 & s1 & Hrun1 & Hh1 & Hr1).
  rewrite (sup_bind_done _ _ _ _ _ _ Hrun1).
  rewrite sent_app, length_app, first_failure_app.
  change (length (both IMSG_RECONF_CONF (ConfData x))) with 2%nat.
  destruct (first_failure ret (composed s) 2) as [i|] eqn:Hff.
  { subst r1. rewrite bool_decide_eq_true_2 by done.
    exists (-1), s1. by rewrite app_nil_r. }
  destruct Hr1 as [-> Hc1].
  rewrite bool_decide_eq_false_2 by done.
  destruct (send_groups_spec (group_list x) gs s1) as (r2 & s2 & Hrun2 & Hh2 & Hr2).
  { by rewrite Hh1. }
  rewrite (sup_bind_done _ _ _ _ _ _ Hrun2).
  rewrite Hc1 in Hr2. rewrite Hc1.
  rewrite sent_app, length_app, first_failure_app.
  destruct (first_failure ret (composed s + 2) _) as [j|] eqn:Hff2.
  { subst r2. rewrite bool_decide_eq_true_2 by done.
    exists (-1), s2. cbn [fst snd]. rewrite app_nil_r.
    split_and!; [done|congruence|done]. }
  destruct Hr2 as [-> Hc2].
  rewrite bool_decide_eq_false_2 by done.
  destruct (main_sendboth_spec IMSG_RECONF_END NoData s2)
    as (r3 & s3 & Hrun3 & Hh3 & Hr3).
  rewrite (sup_bind_done _ _ _ _ _ _ Hrun3).
  rewrite Hc2 in Hrun3, Hr3. rewrite Hc2.
  change (length (both IMSG_RECONF_END NoData)) with 2%nat.
  destruct (first_failure ret (composed s + 2 + _) 2) as [j|] eqn:Hff3.
  - subst r3. rewrite bool_decide_eq_true_2 by done.
    exists (-1), s3. cbn [fst snd]. rewrite app_nil_r.
    split_and!; [done|congruence|done].
  - destruct Hr3 as [-> Hc3].
    rewrite bool_decide_eq_false_2 by done.
    exists 0, s3. cbn [fst snd]. rewrite app_nil_r.
    split_and!; [done|congruence|done].
Qed.

End sending.

(** What [merge_config] leaves on the heap. *)
Lemma merge_config_heap conf xconf h c x :
  conf ≠ xconf →
  confs h !! conf = Some c →
  confs h !! xconf = Some x →
  merge_config conf xconf h
  = Some {| confs :=
              delete xconf
                (<[conf := set_group_list (rev (group_list x))
                             (merge_scalars c x)]> (confs h));
            groups := discard_groups (group_list c) (groups h) |}.
Proof.
  intros Hne Hc Hx. unfold merge_config.
  rewrite Hc, Hx. cbn [mbind option_bind].
  rewrite lookup_insert_eq. cbn [mbind option_bind].
  rewrite !(lookup_insert_ne _ conf xconf), Hx by exact Hne.
  cbn [mbind option_bind].
  rewrite lookup_insert_eq. cbn [mbind option_bind].
  rewrite (lookup_insert_ne _ xconf conf) by (by intros ->).
  rewrite lookup_insert_eq. cbn [mbind option_bind].
  f_equal. f_equal. apply map_eq. intros q.
  destruct (decide (q = xconf)) as [->|Hq1].
  { by rewrite !lookup_delete_eq. }
  rewrite !lookup_delete_ne by done.
  destruct (decide (q = conf)) as [->|Hq2].
  { rewrite !lookup_insert_eq. by rewrite adopt_groups_rev, app_nil_r. }
  by rewrite !lookup_insert_ne by done.
Qed.

(** X8: [main_imsg_send_config] composes the fixed part of the
    configuration, then every group in the order of the list, then the
    end marker, each for the frontend and then for the engine, and
    calls [imsg_event_add] after each call that succeeds.  When all
    calls succeed it returns 0.  At the first call that fails it returns
    -1 and has composed nothing beyond that call, so that the end marker
    goes to a child only when everything before it was composed.  The
    heap is left as it was. *)
Theorem config_is_sent_in_order (imsg_compose_ret : nat → Z) (xconf : ptr)
    (x : newd_conf) (gs : list group) (s : sup_state) :
  confs (sup_heap s) !! xconf = Some x →
  Forall2 (λ p g, groups (sup_heap s) !! p = Some g) (group_list x) gs →
  ∃ r s' t,
    supervisor.main_imsg_send_config imsg_compose_ret xconf s
    = (Done r s', t)
    ∧ sup_heap s' = sup_heap s
    ∧ t = sent imsg_compose_ret (composed s) (config_messages x gs)
    ∧ match first_failure imsg_compose_ret (composed s)
              (length (config_messages x gs)) with
      | None => r = 0 ∧ composes t = config_messages x gs
      | Some i => r = -1 ∧ composes t = take (S i) (config_messages x gs)
      end.
Proof.
  intros Hx Hgs.
  destruct (main_imsg_send_config_spec imsg_compose_ret xconf x gs s Hx Hgs)
    as (r & s' & Hrun & Hh & Hr).
  exists r, s', (sent imsg_compose_ret (composed s) (config_messages x gs)).
  split_and!; [done|done|done|].
  rewrite composes_sent.
  by destruct (first_failure _ _ _).
Qed.

Lemma config_is_sent_in_order_witness :
  ∃ s' t,
    supervisor.main_imsg_send_config fourth_fails 2%positive sample_sup
    = (Done (-1) s', t)
    ∧ sup_heap s' = sample_heap
    ∧ composes t
      = [(PROC_FRONTEND, IMSG_RECONF_CONF,
          ConfData (sample_conf 1 [20; 21]%positive));
         (PROC_ENGINE, IMSG_RECONF_CONF,
          ConfData (sample_conf 1 [20; 21]%positive));
         (PROC_FRONTEND, IMSG_RECONF_GROUP, GroupData (sample_group 20));
         (PROC_ENGINE, IMSG_RECONF_GROUP, GroupData (sample_group 20))].
Proof.
  destruct (config_is_sent_in_order fourth_fails 2%positive
              (sample_conf 1 [20; 21]%positive)
              [sample_group 20; sample_group 21] sample_sup)
    as (r & s' & t & Hrun & Hh & _ & Hr).
  - reflexivity.
  - repeat constructor.
  - destruct Hr as [-> Ht]. by exists s', t.
Defined.

(** [main_reload] sends before it merges, and merges only what was sent
    in full. *)
Lemma main_reload_spec (imsg_compose_ret : nat → Z)
    (main_conf : ptr) (c : newd_conf) (s : sup_state) :
  confs (sup_heap s) !! main_conf = Some c →
  supervisor.main_reload imsg_compose_ret main_conf None s
  = (Done (-1) s, [])
  ∧ ∀ xconf x gs,
      xconf ≠ main_conf →
      confs (sup_heap s) !! xconf = Some x →
      Forall2 (λ p g, groups (sup_heap s) !! p = Some g) (group_list x) gs →
      ∃ r s',
        supervisor.main_reload imsg_compose_ret main_conf (Some xconf) s
        = (Done r s',
           sent imsg_compose_ret (composed s) (config_messages x gs))
        ∧ match first_failure imsg_compose_ret (composed s)
                  (length (config_messages x gs)) with
          | Some _ => r = -1 ∧ sup_heap s' = sup_heap s
          | None =>
              r = 0
              ∧ merge_config main_conf xconf (sup_heap s)
                = Some (sup_heap s')
          end.
Proof.
  intros Hc.
  assert (Hget : supervisor.get_conf main_conf s = (Done c s, [])).
  { unfold supervisor.get_conf. by rewrite Hc. }
  split.
  { unfold supervisor.main_reload.
    by rewrite (sup_bind_done _ _ _ _ _ _ Hget). }
  intros xconf x gs Hne Hx Hgs.
  unfold supervisor.main_reload.
  rewrite (sup_bind_done _ _ _ _ _ _ Hget), app_nil_l.
  destruct (main_imsg_send_config_spec imsg_compose_ret xconf x gs s Hx Hgs)
    as (r & s1 & Hrun & Hh & Hr).
  rewrite (sup_bind_done _ _ _ _ _ _ Hrun).
  destruct (first_failure _ _ _).
  - subst r. rewrite bool_decide_eq_true_2 by done.
    exists (-1), s1. cbn [fst snd]. by rewrite app_nil_r.
  - subst r. rewrite bool_decide_eq_false_2 by done.
    rewrite <- Hh in Hc, Hx.
    pose proof (merge_config_heap main_conf xconf (sup_heap s1) c x
                  ltac:(done) Hc Hx) as Hm.
    unfold mbind, Sup_bind, sup_bind, supervisor.merge_config.
    rewrite Hm. cbn.
    eexists 0, _. rewrite app_nil_r. split; [done|].
    split; [done|]. cbn. by rewrite <- Hh, Hm.
Qed.


(** X9: [main_reload] returns -1 without composing a message when the
    configuration file does not parse.  When it parses, the new
    configuration is sent as [main_imsg_send_config] sends it; if a call
    of [imsg_compose] fails the result is -1 and the heap is as it was,
    the running configuration as well as the new one, which is not
    freed; if none fails the result is 0 and the heap is the one
    [merge_config] makes of the running and the new configuration. *)
Theorem main_reload_all_or_nothing (imsg_compose_ret : nat → Z)
    (main_conf : ptr) (c : newd_conf) (s : sup_state) :
  confs (sup_heap s) !! main_conf = Some c →
  supervisor.main_reload imsg_compose_ret main_conf None s
  = (Done (-1) s, [])
  ∧ ∀ xconf x gs,
      xconf ≠ main_conf →
      confs (sup_heap s) !! xconf = Some x →
      Forall2 (λ p g, groups (sup_heap s) !! p = Some g) (group_list x) gs →
      ∃ r s',
        supervisor.main_reload imsg_compose_ret main_conf (Some xconf) s
        = (Done r s',
           sent imsg_compose_ret (composed s) (config_messages x gs))
        ∧ match first_failure imsg_compose_ret (composed s)
                  (length (config_messages x gs)) with
          | Some _ => r = -1 ∧ sup_heap s' = sup_heap s
          | None =>
              r = 0
              ∧ merge_config main_conf xconf (sup_heap s)
                = Some (sup_heap s')
          end.
Proof. apply main_reload_spec. Qed.

Lemma main_reload_all_or_nothing_witness :
  (∃ s',
     supervisor.main_reload fourth_fails 1%positive (Some 2%positive)
       sample_sup
     = (Done (-1) s',
        sent fourth_fails 0
          (config_messages (sample_conf 1 [20; 21]%positive)
             [sample_group 20; sample_group 21]))
     ∧ sup_heap s' = sample_heap)
  ∧ ∃ s',
      supervisor.main_reload (λ _, 1) 1%positive (Some 2%positive) sample_sup
      = (Done 0 s',
         sent (λ _, 1) 0
           (config_messages (sample_conf 1 [20; 21]%positive)
              [sample_group 20; sample_group 21]))
      ∧ merge_config 1%positive 2%positive sample_heap = Some (sup_heap s').
Proof.
  split.
  - destruct (main_reload_all_or_nothing fourth_fails 1%positive
                (sample_conf 0 [10; 11]%positive) sample_sup eq_refl)
      as [_ Hsome].
    destruct (Hsome 2%positive (sample_conf 1 [20; 21]%positive)
                [sample_group 20; sample_group 21])
      as (r & s' & Hrun & Hr); [done|done|repeat constructor|].
    destruct Hr as [-> Hh]. exists s'. split; [exact Hrun|exact Hh].
  - destruct (main_reload_all_or_nothing (λ _, 1) 1%positive
                (sample_conf 0 [10; 11]%positive) sample_sup eq_refl)
      as [_ Hsome].
    destruct (Hsome 2%positive (sample_conf 1 [20; 21]%positive)
                [sample_group 20; sample_group 21])
      as (r & s' & Hrun & Hr); [done|done|repeat constructor|].
    destruct Hr as [-> Hh]. exists s'. split; [exact Hrun|exact Hh].
Defined.

Lemma elem_of_rev_list {A} (x : A) l : x ∈ rev l ↔ x ∈ l.
Proof. rewrite !list_elem_of_In. symmetry. apply in_rev. Qed.

(** X10: merging a new configuration into the running one leaves every
    other configuration alone and replaces the list of groups by the
    new list in reverse order.  The groups of the new list are taken
    over as they are, by reference, so that the running configuration
    points to live groups afterwards exactly when no group of the new
    list was in the old list as well: a group that both lists name is
    freed with the old list and left dangling in the new one. *)
Theorem merge_config_adopts_groups (conf xconf : ptr) (h : heap)
    (c x : newd_conf) :
  conf ≠ xconf →
  confs h !! conf = Some c →
  confs h !! xconf = Some x →
  (∀ g, g ∈ group_list x → is_Some (groups h !! g)) →
  ∃ h' c',
    merge_config conf xconf h = Some h'
    ∧ confs h' !! conf = Some c'
    ∧ group_list c' = rev (group_list x)
    ∧ (∀ q, q ≠ conf → q ≠ xconf → confs h' !! q = confs h !! q)
    ∧ (∀ g, g ∈ group_list x → g ∉ group_list c →
         groups h' !! g = groups h !! g)
    ∧ (∀ g, g ∈ group_list x → g ∈ group_list c → groups h' !! g = None)
    ∧ ((∀ g, g ∈ group_list c' → is_Some (groups h' !! g))
       ↔ ∀ g, g ∈ group_list x → g ∉ group_list c).
Proof.
  intros Hne Hc Hx Hlive.
  eexists _, _. split; [by apply merge_config_heap|].
  cbn [confs groups]. split_and!.
  - rewrite lookup_delete_ne, lookup_insert_eq by done. reflexivity.
  - done.
  - intros q Hq1 Hq2.
    by rewrite lookup_delete_ne, lookup_insert_ne by done.
  - intros g _ Hg. rewrite discard_groups_lookup.
    by rewrite bool_decide_eq_false_2.
  - intros g _ Hg. rewrite discard_groups_lookup.
    by rewrite bool_decide_eq_true_2.
  - cbn [group_list set_group_list]. split.
    + intros Hall g Hgx Hgc.
      specialize (Hall g (proj2 (elem_of_rev_list _ _) Hgx)).
      rewrite discard_groups_lookup, bool_decide_eq_true_2 in Hall by done.
      by destruct Hall.
    + intros Hdisj g Hg. apply (proj1 (elem_of_rev_list _ _)) in Hg.
      rewrite discard_groups_lookup.
      rewrite bool_decide_eq_false_2 by (by apply Hdisj).
      by apply Hlive.
Qed.

Lemma merge_config_adopts_groups_witness :
  ∃ h' c',
    merge_config 1%positive 2%positive sample_heap = Some h'
    ∧ confs h' !! 1%positive = Some c'
    ∧ group_list c' = [21; 20]%positive
    ∧ ∀ g, g ∈ group_list c' → is_Some (groups h' !! g).
Proof.
  destruct (merge_config_adopts_groups 1%positive 2%positive sample_heap
              (sample_conf 0 [10; 11]%positive)
              (sample_conf 1 [20; 21]%positive))
    as (h' & c' & Hm & Hc' & Hl & _ & _ & _ & Hlive); [done..| |].
  { intros g Hg. cbn in Hg.
    apply elem_of_cons in Hg as [->|Hg]; [by eexists|].
    apply list_elem_of_singleton in Hg as ->. by eexists. }
  exists h', c'. split_and!; [done|done|done|].
  apply Hlive. intros g Hg Hin. cbn in Hg, Hin.
  apply elem_of_cons in Hg as [->|Hg].
  - repeat (apply elem_of_cons in Hin as [?|Hin]; [done|]).
    by apply elem_of_nil in Hin.
  - apply list_elem_of_singleton in Hg as ->.
    repeat (apply elem_of_cons in Hin as [?|Hin]; [done|]).
    by apply elem_of_nil in Hin.
Defined.

(** [config_clear] from a live configuration and with memory for the
    empty one. *)
Lemma config_clear_run conf p c s :
  confs (sup_heap s) !! conf = Some c →
  confs (sup_heap s) !! p = None →
  supervisor.config_clear conf (Some p) s
  = (Done ()
       (with_heap
          {| confs := delete conf (confs (sup_heap s));
             groups := discard_groups (group_list c) (groups (sup_heap s)) |}
          s), []).
Proof.
  intros Hc Hp.
  assert (Hne : conf ≠ p) by (intros ->; congruence).
  unfold supervisor.config_clear, supervisor.config_new_empty.
  unfold mbind, Sup_bind, sup_bind, supervisor.merge_config. cbn.
  rewrite (merge_config_heap conf p _ c conf_zero Hne); cbn;
    [|by rewrite lookup_insert_ne|by rewrite lookup_insert_eq].
  unfold supervisor.free_conf. cbn.
  rewrite lookup_delete_ne, lookup_insert_eq by done. cbn.
  unfold with_heap. do 4 f_equal.
  apply map_eq. intros q.
  destruct (decide (q = conf)) as [->|Hq]; [by rewrite !lookup_delete_eq|].
  rewrite !(lookup_delete_ne _ conf q) by done.
  destruct (decide (q = p)) as [->|Hq2]; [by rewrite lookup_delete_eq|].
  by rewrite lookup_delete_ne, !lookup_insert_ne by done.
Qed.

(** X11: [config_clear] ends in [fatal] when there is no memory for the
    empty configuration it merges with, and leaves the heap as it was.
    Otherwise it returns with the configuration freed, every group of
    its list freed and the empty configuration freed again; all other
    objects are as they were. *)
Theorem config_clear_releases (conf : ptr) (c : newd_conf) (s : sup_state) :
  confs (sup_heap s) !! conf = Some c →
  supervisor.config_clear conf None s = (Fatal None, [])
  ∧ ∀ p,
      confs (sup_heap s) !! p = None →
      ∃ s',
        supervisor.config_clear conf (Some p) s = (Done () s', [])
        ∧ composed s' = composed s
        ∧ confs (sup_heap s') = delete conf (confs (sup_heap s))
        ∧ confs (sup_heap s') !! p = None
        ∧ ∀ g, groups (sup_heap s') !! g
               = if bool_decide (g ∈ group_list c) then None
                 else groups (sup_heap s) !! g.
Proof.
  intros Hc. split; [done|]. intros p Hp.
  eexists. split; [by apply config_clear_run|].
  cbn [with_heap sup_heap composed confs groups]. split_and!; [done|done| |].
  - destruct (decide (p = conf)) as [->|Hne]; [by rewrite lookup_delete_eq|].
    by rewrite lookup_delete_ne.
  - intros g. apply discard_groups_lookup.
Qed.

Lemma config_clear_releases_witness :
  ∃ s',
    supervisor.config_clear 1%positive (Some 3%positive) sample_sup
    = (Done () s', [])
    ∧ confs (sup_heap s') !! 1%positive = None
    ∧ confs (sup_heap s') !! 3%positive = None
    ∧ confs (sup_heap s') !! 2%positive
      = Some (sample_conf 1 [20; 21]%positive)
    ∧ groups (sup_heap s') !! 10%positive = None
    ∧ groups (sup_heap s') !! 20%positive = Some (sample_group 20).
Proof.
  destruct (config_clear_releases 1%positive
              (sample_conf 0 [10; 11]%positive) sample_sup eq_refl)
    as [_ Hsome].
  destruct (Hsome 3%positive eq_refl)
    as (s' & Hrun & _ & Hconfs & Hp & Hgroups).
  exists s'. split_and!; [done| |done| | |].
  - by rewrite Hconfs.
  - by rewrite Hconfs.
  - by rewrite Hgroups.
  - by rewrite Hgroups.
Defined.

(** The loop of [main_shutdown] returns or ends in [fatal], and leaves
    the state alone. *)
Lemma wait_children_outcome engine_pid waits s :
  (supervisor.wait_children engine_pid waits s).1 = Done () s
  ∨ (supervisor.wait_children engine_pid waits s).1 = Fatal (Some "wait").
Proof.
  induction waits as [|[[pid status] errno] waits IH]; [by left|].
  cbn [supervisor.wait_children].
  unfold mbind, Sup_bind, sup_bind.
  destruct (decide (pid = -1)) as [->|Hpid].
  - rewrite (bool_decide_eq_true_2 (-1 = -1)) by done.
    case_bool_decide as Herr; [by right|]. cbn.
    case_bool_decide as Hgo; [|by left].
    by destruct (supervisor.wait_children engine_pid waits s) as [[] ?],
      IH as [IH|IH]; cbn in *; simplify_eq; [left|right].
  - rewrite (bool_decide_eq_false_2 (pid = -1)) by done.
    rewrite (bool_decide_eq_true_2 (pid ≠ -1 ∨ _)) by (by left).
    destruct (WIFSIGNALED status); cbn;
      by destruct (supervisor.wait_children engine_pid waits s) as [[] ?],
        IH as [IH|IH]; cbn in *; simplify_eq; [left|right].
Qed.

Lemma wait_children_run engine_pid waits s :
  Forall (λ '(pid, status, errno), pid ≠ -1 ∨ errno = EINTR) waits →
  supervisor.wait_children engine_pid waits s
  = (Done () s, signalled engine_pid waits).
Proof.
  induction 1 as [|[[pid status] errno] waits Hw _ IH]; [done|].
  cbn [supervisor.wait_children].
  unfold mbind, Sup_bind, sup_bind, signalled. cbn [omap list_omap].
  fold (signalled engine_pid waits).
  destruct (decide (pid = -1)) as [->|Hpid].
  - destruct Hw as [?| ->]; [done|].
    rewrite (bool_decide_eq_true_2 (-1 ≠ -1 ∨ _)) by (by right).
    rewrite (bool_decide_eq_true_2 (-1 = -1)) by done.
    rewrite (bool_decide_eq_false_2 (EINTR ≠ EINTR ∧ _)) by tauto.
    rewrite (bool_decide_eq_false_2 (-1 ≠ -1)) by tauto.
    cbn. by rewrite IH.
  - rewrite (bool_decide_eq_true_2 (pid ≠ -1 ∨ _)) by (by left).
    rewrite (bool_decide_eq_false_2 (pid = -1)) by done.
    rewrite (bool_decide_eq_true_2 (pid ≠ -1)) by done.
    destruct (WIFSIGNALED status); cbn; by rewrite IH.
Qed.

(** When [config_clear] returns, the configuration is freed. *)
Lemma config_clear_frees conf calloc_ret s s' t :
  supervisor.config_clear conf calloc_ret s = (Done () s', t) →
  confs (sup_heap s') !! conf = None.
Proof.
  unfold supervisor.config_clear, supervisor.config_new_empty.
  unfold mbind, Sup_bind, sup_bind, supervisor.merge_config,
    supervisor.free_conf.
  destruct calloc_ret as [p|]; [|done]. cbn.
  destruct (merge_config conf p _) as [h|]; [|done]. cbn.
  destruct (confs h !! conf); [|done]. cbn.
  intros [= <- <-]. cbn. apply lookup_delete_eq.
Qed.

Lemma config_clear_no_exit conf calloc_ret s status :
  (supervisor.config_clear conf calloc_ret s).1 ≠ Exit status.
Proof.
  unfold supervisor.config_clear, supervisor.config_new_empty.
  unfold mbind, Sup_bind, sup_bind, supervisor.merge_config,
    supervisor.free_conf.
  destruct calloc_ret as [p|]; [|done]. cbn.
  destruct (merge_config conf p _) as [h|]; [|done]. cbn.
  by destruct (confs h !! conf).
Qed.

Lemma config_clear_fatal conf calloc_ret s msg :
  (supervisor.config_clear conf calloc_ret s).1 = Fatal msg → msg = None.
Proof.
  unfold supervisor.config_clear, supervisor.config_new_empty.
  unfold mbind, Sup_bind, sup_bind, supervisor.merge_config,
    supervisor.free_conf.
  destruct calloc_ret as [p|]; [|by intros [= <-]]. cbn.
  destruct (merge_config conf p _) as [h|]; [|done]. cbn.
  by destruct (confs h !! conf).
Qed.

(** [main_shutdown] does not return and does not come to its
    [exit]. *)
Lemma main_shutdown_outcome (A : Type) main_conf engine_pid calloc_ret
    waits s :
  let run :=
    supervisor.main_shutdown (A := A) main_conf engine_pid calloc_ret
      waits s in
  run.1 = Fatal None ∨ run.1 = Fatal (Some "wait"%string)
  ∨ run.1 = Undefined.
Proof.
  cbv zeta.
  unfold supervisor.main_shutdown, mbind, Sup_bind, sup_bind,
    supervisor.emit, supervisor.get_conf.
  cbn -[supervisor.config_clear supervisor.wait_children].
  destruct (confs (sup_heap s) !! main_conf) as [c|]; [|by right; right].
  cbn -[supervisor.config_clear supervisor.wait_children].
  pose proof (config_clear_frees main_conf calloc_ret s) as Hfrees.
  pose proof (config_clear_no_exit main_conf calloc_ret s) as Hnoexit.
  pose proof (config_clear_fatal main_conf calloc_ret s) as Hfatal.
  destruct (supervisor.config_clear main_conf calloc_ret s)
    as [[[] s1|status|msg|] t1].
  - specialize (Hfrees s1 t1 eq_refl).
    cbn -[supervisor.wait_children].
    pose proof (wait_children_outcome engine_pid waits s1) as Hwait.
    destruct (supervisor.wait_children engine_pid waits s1)
      as [[[] s2|status|msg|] t2]; cbn in Hwait;
      destruct Hwait as [Hwait|Hwait]; simplify_eq.
    + cbn. unfold supervisor.free_conf. rewrite Hfrees. by right; right.
    + by right; left.
  - by destruct (Hnoexit status).
  - rewrite (Hfatal msg eq_refl). by left.
  - by right; right.
Qed.

(** [main_shutdown] from a live configuration, with memory at hand and
    children to wait for. *)
Lemma main_shutdown_run (A : Type) main_conf engine_pid waits s c p :
  confs (sup_heap s) !! main_conf = Some c →
  confs (sup_heap s) !! p = None →
  Forall (λ '(pid, status, errno), pid ≠ -1 ∨ errno = EINTR) waits →
  supervisor.main_shutdown (A := A) main_conf engine_pid (Some p) waits s
  = (Undefined,
     [SupMsgbufClear PROC_FRONTEND; SupClose PROC_FRONTEND;
      SupMsgbufClear PROC_ENGINE; SupClose PROC_ENGINE;
      SupControlCleanup (csock c);
      SupLogDebug "waiting for children to terminate"]
     ++ signalled engine_pid waits
     ++ [SupFree PROC_FRONTEND; SupFree PROC_ENGINE]).
Proof.
  intros Hc Hp Hwaits.
  unfold supervisor.main_shutdown, mbind, Sup_bind, sup_bind,
    supervisor.emit, supervisor.get_conf.
  cbn -[supervisor.config_clear supervisor.wait_children].
  rewrite Hc. cbn -[supervisor.config_clear supervisor.wait_children].
  rewrite (config_clear_run main_conf p c s Hc Hp).
  cbn -[supervisor.wait_children].
  rewrite (wait_children_run engine_pid waits _ Hwaits).
  cbn. unfold supervisor.free_conf. cbn.
  rewrite lookup_delete_eq. cbn. reflexivity.
Qed.

(** X12: [main_shutdown] does not come to its [exit(0)].  It ends in
    [fatal] when [config_clear] finds no memory or when [wait] fails
    with an error other than [EINTR] and [ECHILD]; in every other case
    it hands to [free] a pointer that does not point to a live object.
    When the running configuration is live, memory is at hand and
    [wait] reports children and interruptions only, this is the last
    step: the channels are closed, the configuration is cleared, every
    child that a signal ended is reported, a [wait] that was
    interrupted is repeated, the two channel objects are freed, and
    then [main_conf], which [config_clear] has freed already, is freed
    once more. *)
Theorem main_shutdown_frees_twice (A : Type) (main_conf : ptr)
    (engine_pid : Z) (calloc_ret : option ptr) (waits : list (Z * Z * Z))
    (s : sup_state) :
  let run :=
    supervisor.main_shutdown (A := A) main_conf engine_pid calloc_ret
      waits s in
  (run.1 = Fatal None ∨ run.1 = Fatal (Some "wait") ∨ run.1 = Undefined)
  ∧ ∀ c p,
      confs (sup_heap s) !! main_conf = Some c →
      calloc_ret = Some p →
      confs (sup_heap s) !! p = None →
      Forall (λ '(pid, status, errno), pid ≠ -1 ∨ errno = EINTR) waits →
      run
      = (Undefined,
         [SupMsgbufClear PROC_FRONTEND; SupClose PROC_FRONTEND;
          SupMsgbufClear PROC_ENGINE; SupClose PROC_ENGINE;
          SupControlCleanup (csock c);
          SupLogDebug "waiting for children to terminate"]
         ++ signalled engine_pid waits
         ++ [SupFree PROC_FRONTEND; SupFree PROC_ENGINE]).
Proof.
  cbv zeta. split; [apply main_shutdown_outcome|].
  intros c p Hc -> Hp Hwaits. by apply main_shutdown_run.
Qed.

Lemma main_shutdown_frees_twice_witness :
  supervisor.main_shutdown (A := ()) 1%positive 100 (Some 3%positive)
    [(101, 0, 0); (-1, 0, EINTR); (100, 11, 0)] sample_sup
  = (Undefined,
     [SupMsgbufClear PROC_FRONTEND; SupClose PROC_FRONTEND;
      SupMsgbufClear PROC_ENGINE; SupClose PROC_ENGINE;
      SupControlCleanup 0;
      SupLogDebug "waiting for children to terminate";
      SupLogWarnx "%s terminated; signal %d" [ArgStr "engine"; ArgInt 11];
      SupFree PROC_FRONTEND; SupFree PROC_ENGINE]).
Proof.
  refine (proj2 (main_shutdown_frees_twice () 1%positive 100
                   (Some 3%positive)
                   [(101, 0, 0); (-1, 0, EINTR); (100, 11, 0)] sample_sup)
            (sample_conf 0 [10; 11]%positive) 3%positive
            eq_refl eq_refl eq_refl _).
  repeat constructor; lia.
Defined.

(** ** Starting the children *)

(** X15: in the child, with the descriptor of the channel in place,
    [start_child] refuses to start the main process, and for the engine
    and the frontend it calls [execvp] with an argument vector that fits
    into the seven entries of [argv] and has its only [NULL] at the
    end.  The option loop of [main], run on that vector, takes the
    child to the role asked for, with debugging and verbosity turned on
    exactly when they were for the parent, and for the frontend with the
    name of the control socket, the default one when none was given;
    it does not end in [usage].  [start_child] does not return in the
    child. *)
Theorem start_child_takes_its_role (p : process) (argv0 : string)
    (fd debug verbose : Z) (sockname : option string) (dup2_ret : Z)
    (execvp_fails : bool) :
  dup2_ret ≠ -1 →
  start_child PROC_MAIN argv0 fd debug verbose sockname 0 dup2_ret
    execvp_fails
  = (ChildFatal "Can not start main process", [ChDup2 fd 3])
  ∧ (p ≠ PROC_MAIN →
     ∃ argv,
       start_child p argv0 fd debug verbose sockname 0 dup2_ret execvp_fails
       = (if execvp_fails then ChildFatal "execvp" else Replaced,
          [ChDup2 fd 3; ChExecvp argv0 argv])
       ∧ (length argv ≤ 7)%nat
       ∧ argv = (Some <$> omap id argv) ++ [None]
       ∧ head argv = Some (Some argv0)
       ∧ main (omap id argv) = role_of p debug verbose sockname).
Proof.
  intros Hdup. unfold start_child.
  rewrite (bool_decide_eq_false_2 (0 = -1)) by done.
  rewrite (bool_decide_eq_true_2 (0 = 0)) by done.
  rewrite (bool_decide_eq_false_2 _ Hdup).
  split; [done|]. intros Hp. unfold role_of.
  destruct p; [done| |];
    destruct (bool_decide (debug ≠ 0)), (bool_decide (verbose ≠ 0)),
      sockname as [s|];
    (eexists; split; [reflexivity|];
     split; [cbn; lia|]; split; [reflexivity|]; split; reflexivity).
Qed.

Lemma start_child_takes_its_role_witness :
  ∃ argv,
    start_child PROC_FRONTEND "newd" 5 1 0 (Some "/tmp/newd.sock"%string)
      0 3 false
    = (Replaced, [ChDup2 5 3; ChExecvp "newd" argv])
    ∧ main (omap id argv) = Frontend 1 0 "/tmp/newd.sock".
Proof.
  destruct (start_child_takes_its_role PROC_FRONTEND "newd" 5 1 0
              (Some "/tmp/newd.sock"%string) 3 false ltac:(done))
    as (_ & Hchild).
  destruct (Hchild ltac:(done)) as (argv & Hrun & _ & _ & _ & Hmain).
  exists argv. split; [exact Hrun|exact Hmain].
Defined.

(** ** The links to the children, the signals, and config.c *)

(** X16: when [socketpair] fails, or one of the two messages that hand
    over its ends cannot be composed, [main] ends in [fatal] and sends
    nothing of the configuration.  Otherwise the frontend is sent the
    first end and the engine the second, and the configuration follows
    as [main_imsg_send_config] sends it, so that on either channel the
    end of the link between the children comes before every message of
    the configuration.  [imsg_event_add] is not called for the two
    messages themselves: a channel is registered for writing by the
    first message of the configuration that is composed for it. *)
Theorem links_precede_configuration (imsg_compose_ret : nat → Z)
    (main_conf : ptr) (c : newd_conf) (gs : list group)
    (socketpair_ret pipe0 pipe1 : Z) (s : sup_state) :
  confs (sup_heap s) !! main_conf = Some c →
  Forall2 (λ p g, groups (sup_heap s) !! p = Some g) (group_list c) gs →
  let run :=
    startup.main_send_links imsg_compose_ret main_conf socketpair_ret
      pipe0 pipe1 s in
  let k := composed s in
  if bool_decide (socketpair_ret = -1) then
    run = (Fatal (Some "could not establish imsg links"%string), [])
  else if bool_decide (imsg_compose_ret k = -1) then
    run = (Fatal (Some "could not establish imsg links"%string),
           [SupCompose PROC_FRONTEND IMSG_SOCKET_IPC 0 0 pipe0 NoData])
  else if bool_decide (imsg_compose_ret (S k) = -1) then
    run = (Fatal (Some "could not establish imsg links"%string),
           [SupCompose PROC_FRONTEND IMSG_SOCKET_IPC 0 0 pipe0 NoData;
            SupCompose PROC_ENGINE IMSG_SOCKET_IPC 0 0 pipe1 NoData])
  else
    ∃ r s',
      run
      = (Done r s',
         [SupCompose PROC_FRONTEND IMSG_SOCKET_IPC 0 0 pipe0 NoData;
          SupCompose PROC_ENGINE IMSG_SOCKET_IPC 0 0 pipe1 NoData]
         ++ sent imsg_compose_ret (S (S k)) (config_messages c gs))
      ∧ sup_heap s' = sup_heap s.
Proof.
  intros Hc Hgs run k. subst run k.
  unfold startup.main_send_links, startup.main_imsg_send_ipc_sockets.
  unfold supervisor.imsg_compose, supervisor.fatal.
  case_bool_decide as Hsock.
  { unfold mbind, Sup_bind, sup_bind, mret, Sup_ret, sup_ret.
    by rewrite (bool_decide_eq_true_2 (-1 ≠ 0)). }
  case_bool_decide as H1.
  { unfold mbind, Sup_bind, sup_bind, mret, Sup_ret, sup_ret.
    rewrite (bool_decide_eq_true_2 _ H1).
    by rewrite (bool_decide_eq_true_2 (-1 ≠ 0)). }
  case_bool_decide as H2.
  { unfold mbind, Sup_bind, sup_bind, mret, Sup_ret, sup_ret.
    rewrite (bool_decide_eq_false_2 _ H1). cbn [composed].
    rewrite (bool_decide_eq_true_2 _ H2).
    by rewrite (bool_decide_eq_true_2 (-1 ≠ 0)). }
  destruct (main_imsg_send_config_spec imsg_compose_ret main_conf c gs
              {| sup_heap := sup_heap s; composed := S (S (composed s)) |}
              Hc Hgs) as (r & s' & Hrun & Hh & _).
  exists r, s'. split; [|done].
  unfold mbind, Sup_bind, sup_bind, mret, Sup_ret, sup_ret.
  rewrite (bool_decide_eq_false_2 _ H1). cbn [composed sup_heap].
  rewrite (bool_decide_eq_false_2 _ H2).
  rewrite (bool_decide_eq_false_2 (0 ≠ 0)) by (by intros []).
  by rewrite Hrun.
Qed.

Lemma links_precede_configuration_witness :
  ∃ r s',
    startup.main_send_links (λ _, 1) 2%positive 0 7 8 sample_sup
    = (Done r s',
       [SupCompose PROC_FRONTEND IMSG_SOCKET_IPC 0 0 7 NoData;
        SupCompose PROC_ENGINE IMSG_SOCKET_IPC 0 0 8 NoData]
       ++ sent (λ _, 1) 2
            (config_messages (sample_conf 1 [20; 21]%positive)
               [sample_group 20; sample_group 21]))
    ∧ sup_heap s' = sample_heap.
Proof.
  refine (links_precede_configuration (λ _, 1) 2%positive
            (sample_conf 1 [20; 21]%positive)
            [sample_group 20; sample_group 21] 0 7 8 sample_sup eq_refl _).
  repeat constructor.
Defined.

(** X17: [main_sig_handler] ends in [fatalx] for every signal other
    than [SIGTERM], [SIGINT] and [SIGHUP], and for the first two it is
    [main_shutdown] and does not return.  For [SIGHUP] with a live
    configuration it returns: when the configuration file does not
    parse, the failure of the reload is logged as a warning and the
    state is as it was; when it parses and a message cannot be
    composed, the same warning is logged and the heap is as it was;
    when all is composed, the reload is logged at debug level and the
    heap holds the merged configuration. *)
Theorem main_sig_handler_cases (imsg_compose_ret : nat → Z) (sig : Z)
    (main_conf : ptr) (c : newd_conf) (engine_pid : Z)
    (calloc_ret : option ptr) (waits : list (Z * Z * Z)) (s : sup_state) :
  confs (sup_heap s) !! main_conf = Some c →
  (sig ≠ SIGTERM → sig ≠ SIGINT → sig ≠ SIGHUP →
   ∀ parse_config_ret,
     startup.main_sig_handler imsg_compose_ret sig main_conf
       parse_config_ret engine_pid calloc_ret waits s
     = (Fatal (Some "unexpected signal"%string), []))
  ∧ (sig = SIGTERM ∨ sig = SIGINT →
     ∀ parse_config_ret,
       startup.main_sig_handler imsg_compose_ret sig main_conf
         parse_config_ret engine_pid calloc_ret waits s
       = supervisor.main_shutdown main_conf engine_pid calloc_ret waits s
       ∧ ∀ a s',
           (startup.main_sig_handler imsg_compose_ret sig main_conf
              parse_config_ret engine_pid calloc_ret waits s).1
           ≠ Done a s')
  ∧ (sig = SIGHUP →
     startup.main_sig_handler imsg_compose_ret sig main_conf None
       engine_pid calloc_ret waits s
     = (Done () s, [SupLogWarnx "configuration reload failed" []])
     ∧ ∀ xconf x gs,
         xconf ≠ main_conf →
         confs (sup_heap s) !! xconf = Some x →
         Forall2 (λ p g, groups (sup_heap s) !! p = Some g)
           (group_list x) gs →
         ∃ s',
           startup.main_sig_handler imsg_compose_ret sig main_conf
             (Some xconf) engine_pid calloc_ret waits s
           = (Done () s',
              sent imsg_compose_ret (composed s) (config_messages x gs)
              ++ [match first_failure imsg_compose_ret (composed s)
                          (length (config_messages x gs)) with
                  | Some _ => SupLogWarnx "configuration reload failed" []
                  | None => SupLogDebug "configuration reloaded"
                  end])
           ∧ match first_failure imsg_compose_ret (composed s)
                     (length (config_messages x gs)) with
             | Some _ => sup_heap s' = sup_heap s
             | None =>
                 merge_config main_conf xconf (sup_heap s)
                 = Some (sup_heap s')
             end).
Proof.
  intros Hc. unfold startup.main_sig_handler, SIGTERM, SIGINT, SIGHUP.
  destruct (main_reload_spec imsg_compose_ret main_conf c s Hc)
    as [Hnone Hsome].
  split_and!.
  - intros H1 H2 H3 parse.
    rewrite bool_decide_eq_false_2 by (intros [?|?]; done).
    by rewrite bool_decide_eq_false_2.
  - intros Hsig parse. rewrite (bool_decide_eq_true_2 _ Hsig).
    split; [done|]. intros a s' Hdone.
    destruct (main_shutdown_outcome () main_conf engine_pid
                calloc_ret waits s) as [H|[H|H]];
      rewrite H in Hdone; done.
  - intros ->.
    rewrite bool_decide_eq_false_2 by (intros [?|?]; done).
    rewrite (bool_decide_eq_true_2 (1 = 1)) by done.
    split.
    + rewrite (sup_bind_done _ _ _ _ _ _ Hnone).
      by rewrite bool_decide_eq_true_2.
    + intros xconf x gs Hne Hx Hgs.
      destruct (Hsome xconf x gs Hne Hx Hgs) as (r & s' & Hrun & Hr).
      rewrite (sup_bind_done _ _ _ _ _ _ Hrun).
      destruct (first_failure _ _ _).
      * destruct Hr as [-> Hh]. rewrite bool_decide_eq_true_2 by done.
        by exists s'.
      * destruct Hr as [-> Hm]. rewrite bool_decide_eq_false_2 by done.
        by exists s'.
Qed.

Lemma main_sig_handler_cases_witness :
  startup.main_sig_handler (λ _, 1) SIGHUP 1%positive None 100 None []
    sample_sup
  = (Done () sample_sup, [SupLogWarnx "configuration reload failed" []]).
Proof.
  exact (proj1 (proj2 (proj2
           (main_sig_handler_cases (λ _, 1) SIGHUP 1%positive
              (sample_conf 0 [10; 11]%positive) 100 None [] sample_sup
              eq_refl)) eq_refl)).
Defined.

Lemma config_setreset_from_elem todo : ∀ id0 ps_what privsep_process reset
    id v,
  (id, v) ∈ config.config_setreset_from todo id0 ps_what privsep_process
              reset
  ↔ v = reset ∧ (id0 ≤ id < id0 + todo)%nat ∧ id ≠ privsep_process
    ∧ Z.land reset (default 0 (ps_what !! id)) ≠ 0.
Proof.
  induction todo as [|todo IH]; intros id0 ps pp reset id v.
  { cbn. split; [by intros ?%elem_of_nil|]. intros (_ & ? & _). lia. }
  cbn [config.config_setreset_from].
  destruct (bool_decide (Z.land reset (default 0 (ps !! id0)) = 0)
            || bool_decide (id0 = pp)) eqn:Hskip.
  - rewrite IH. apply orb_true_iff in Hskip.
    split; [intros (? & ? & ? & ?); repeat split; try done; lia|].
    intros (? & ? & ? & ?).
    destruct (decide (id = id0)) as [->|]; [|repeat split; try done; lia].
    destruct Hskip as [Hz%bool_decide_eq_true_1|Hz%bool_decide_eq_true_1];
      done.
  - apply orb_false_iff in Hskip as [Hz1%bool_decide_eq_false_1
                                       Hz2%bool_decide_eq_false_1].
    rewrite elem_of_cons, IH. split.
    + intros [[= -> ->]|(? & ? & ? & ?)]; repeat split; try done; lia.
    + intros (-> & ? & ? & ?).
      destruct (decide (id = id0)) as [->|]; [by left|].
      right. repeat split; try done; lia.
Qed.

Lemma config_setreset_from_NoDup todo : ∀ id0 ps_what privsep_process reset,
  NoDup (config.config_setreset_from todo id0 ps_what privsep_process
           reset).*1.
Proof.
  induction todo as [|todo IH]; intros id0 ps pp reset; [constructor|].
  cbn [config.config_setreset_from].
  destruct (_ || _); [apply IH|].
  cbn. constructor; [|apply IH].
  intros ([id v] & Hid & Hin)%list_elem_of_fmap. cbn in Hid. subst id.
  apply config_setreset_from_elem in Hin. lia.
Qed.

(** X18: [config_setreset] returns 0 and calls [proc_compose], with the
    value of [reset], once for every process id below [PROC_MAX] other
    than its own whose entry of [ps_what] has a bit in common with
    [reset], and for no other.  After [config_init], run in the parent,
    that is never the parent, and it is the engine exactly when [reset]
    has a bit of [CONFIG_VMS]. *)
Theorem config_setreset_recipients (PROC_MAX PROC_PARENT PROC_ENGINE : nat)
    (CONFIG_ALL CONFIG_VMS : Z) (ps_what : list Z) (privsep_process : nat)
    (reset : Z) :
  length ps_what = PROC_MAX →
  (PROC_PARENT < PROC_MAX)%nat →
  (PROC_ENGINE < PROC_MAX)%nat →
  PROC_PARENT ≠ PROC_ENGINE →
  let run := config.config_setreset PROC_MAX ps_what privsep_process reset in
  let initialised :=
    (config.config_init PROC_PARENT PROC_ENGINE CONFIG_ALL CONFIG_VMS
       ps_what).2 in
  let run' := config.config_setreset PROC_MAX initialised PROC_PARENT reset in
  run.1 = 0
  ∧ NoDup run.2.*1
  ∧ (∀ id v,
       (id, v) ∈ run.2
       ↔ v = reset ∧ (id < PROC_MAX)%nat ∧ id ≠ privsep_process
         ∧ Z.land reset (default 0 (ps_what !! id)) ≠ 0)
  ∧ length initialised = PROC_MAX
  ∧ initialised !! PROC_PARENT = Some CONFIG_ALL
  ∧ initialised !! PROC_ENGINE = Some CONFIG_VMS
  ∧ (∀ v, (PROC_PARENT, v) ∉ run'.2)
  ∧ ((PROC_ENGINE, reset) ∈ run'.2 ↔ Z.land reset CONFIG_VMS ≠ 0).
Proof.
  intros Hlen Hp He Hne run initialised run'.
  assert (Hparent : initialised !! PROC_PARENT = Some CONFIG_ALL).
  { unfold initialised, config.config_init. cbn.
    rewrite list_lookup_insert_ne by done.
    apply list_lookup_insert_eq. lia. }
  assert (Hengine : initialised !! PROC_ENGINE = Some CONFIG_VMS).
  { unfold initialised, config.config_init. cbn.
    apply list_lookup_insert_eq. rewrite length_insert. lia. }
  split_and!; try done.
  - apply config_setreset_from_NoDup.
  - intros id v. unfold run, config.config_setreset. cbn [snd].
    rewrite config_setreset_from_elem. split.
    + intros (? & ? & ? & ?). repeat split; try done; lia.
    + intros (? & ? & ? & ?). repeat split; try done; lia.
  - unfold initialised, config.config_init. cbn.
    by rewrite !length_insert.
  - intros v Hin. unfold run', config.config_setreset in Hin. cbn in Hin.
    apply config_setreset_from_elem in Hin. by destruct Hin as (_ & _ & ? & _).
  - unfold run', config.config_setreset. cbn [snd].
    rewrite config_setreset_from_elem, Hengine. cbn. split.
    + by intros (_ & _ & _ & ?).
    + intros ?. repeat split; try done; lia.
Qed.

Lemma config_setreset_recipients_witness :
  (config.config_setreset 3
     (config.config_init 0 1 7 4 [0; 0; 0]).2 0 6).2 = [(1%nat, 6)]
  ∧ ((1%nat, 6) ∈
       (config.config_setreset 3
          (config.config_init 0 1 7 4 [0; 0; 0]).2 0 6).2
     ↔ Z.land 6 4 ≠ 0).
Proof.
  split; [reflexivity|].
  exact (proj2 (proj2 (proj2 (proj2 (proj2 (proj2 (proj2
           (config_setreset_recipients 3 0 1 7 4 [0; 0; 0] 0 6 eq_refl
              ltac:(lia) ltac:(lia) ltac:(lia))))))))).
Defined.

(** ** Properties of the handlers *)

Lemma length_strlcpy src size : length (strlcpy src size) = size.
Proof.
  unfold strlcpy. rewrite length_app, length_replicate, length_take. lia.
Qed.

Lemma strlcpy_fits src size :
  (length src < size)%nat →
  strlcpy src size = src ++ replicate (size - length src) x00.
Proof.
  intros Hfit. unfold strlcpy. by rewrite take_ge by lia.
Qed.

Lemma strlcpy_cut src size :
  (0 < size ≤ length src)%nat →
  strlcpy src size = take (size - 1) src ++ [x00].
Proof.
  intros Hcut. unfold strlcpy. rewrite length_take.
  by replace (size - (size - 1) `min` length src)%nat with 1%nat by lia.
Qed.






Lemma imsg_event_add_calls_registered iev queued :
  imsg_event_add_calls iev queued = registered iev queued.
Proof. unfold imsg_event_add_calls, registered. by case_bool_decide. Qed.







(** A message composed for a channel, with the registration that
    follows when the call succeeds. *)
Lemma imsg_compose_event_run (imsg_compose_ret : nat → Z) (io : channel_io)
    iev type peerid pid fd data s :
  dispatch.imsg_compose_event imsg_compose_ret io iev type peerid pid fd data s
  = (Done (imsg_compose_ret (composed s))
       {| sup_heap := sup_heap s; composed := S (composed s) |},
     SupCompose iev type peerid pid fd data ::
     (if bool_decide (imsg_compose_ret (composed s) = -1) then []
      else registered iev (w_queued io iev (S (composed s))))).
Proof.
  unfold dispatch.imsg_compose_event, supervisor.imsg_compose,
    dispatch.imsg_event_add.
  unfold mbind, Sup_bind, sup_bind, mret, Sup_ret, sup_ret.
  destruct (decide (imsg_compose_ret (composed s) = -1)) as [Hret|Hret].
  - rewrite (bool_decide_eq_true_2 _ Hret).
    by rewrite bool_decide_eq_false_2 by (by intros []).
  - rewrite (bool_decide_eq_false_2 _ Hret).
    rewrite (bool_decide_eq_true_2 _ Hret).
    by rewrite imsg_event_add_calls_registered.
Qed.

(** Following the calls of [imsg_event_add] into the supervisor's
    [imsg_compose_event] gives the one of the handlers. *)
Lemma inlined_imsg_compose_event (imsg_compose_ret : nat → Z)
    (io : channel_io) iev type peerid pid fd data s :
  dispatch.inlined io
    (supervisor.imsg_compose_event imsg_compose_ret iev type peerid pid fd data)
    s
  = dispatch.imsg_compose_event imsg_compose_ret io iev type peerid pid fd
      data s.
Proof.
  rewrite imsg_compose_event_run.
  unfold dispatch.inlined, supervisor.imsg_compose_event,
    supervisor.imsg_compose, supervisor.imsg_event_add, supervisor.emit.
  unfold mbind, Sup_bind, sup_bind, mret, Sup_ret, sup_ret.
  destruct (decide (imsg_compose_ret (composed s) = -1)) as [Hret|Hret].
  - rewrite (bool_decide_eq_true_2 _ Hret).
    by rewrite bool_decide_eq_false_2 by (by intros []).
  - rewrite (bool_decide_eq_false_2 _ Hret).
    rewrite (bool_decide_eq_true_2 _ Hret).
    cbn -[imsg_event_add_calls registered].
    by rewrite imsg_event_add_calls_registered, app_nil_r.
Qed.

Lemma main_imsg_compose_frontend_run (imsg_compose_ret : nat → Z)
    (iev_frontend : bool) (io : channel_io) type pid data s :
  dispatch.main_imsg_compose_frontend imsg_compose_ret iev_frontend io
    type pid data s
  = if iev_frontend then
      (Done () {| sup_heap := sup_heap s; composed := S (composed s) |},
       reply imsg_compose_ret (w_queued io) (composed s) type pid data)
    else (Done () s, []).
Proof.
  unfold dispatch.main_imsg_compose_frontend. destruct iev_frontend; [|done].
  unfold mbind, Sup_bind, sup_bind. rewrite imsg_compose_event_run.
  unfold reply. cbn. by rewrite app_nil_r.
Qed.









(** What [main_showinfo_ctl] does when it is asked for the main
    info. *)
Lemma main_showinfo_ctl_run (sizeof_cmi_text : nat)
    (imsg_compose_ret : nat → Z) (iev_frontend : bool) (io : channel_io) pid s
    :
  let text1 := bytes_of_string "I'm a little teapot." in
  let text2 := bytes_of_string "Full of sencha." in
  let cut (text : list byte) :=
    if bool_decide (sizeof_cmi_text ≤ length text)%nat
    then [SupLogDebug "main_showinfo_ctl: I was cut off!"] else [] in
  let k := composed s in
  dispatch.main_showinfo_ctl sizeof_cmi_text imsg_compose_ret iev_frontend io
    IMSG_CTL_SHOW_MAIN_INFO pid s
  = if iev_frontend then
      (Done () {| sup_heap := sup_heap s; composed := S (S (S k)) |},
       cut text1
       ++ reply imsg_compose_ret (w_queued io) k IMSG_CTL_SHOW_MAIN_INFO pid
            (CtlData (strlcpy text1 sizeof_cmi_text))
       ++ cut text2
       ++ reply imsg_compose_ret (w_queued io) (S k) IMSG_CTL_SHOW_MAIN_INFO
            pid (CtlData (strlcpy text2 sizeof_cmi_text))
       ++ reply imsg_compose_ret (w_queued io) (S (S k)) IMSG_CTL_END pid
            NoData)
    else (Done () s, cut text1 ++ cut text2).
Proof.
  intros text1 text2 cut k. unfold dispatch.main_showinfo_ctl.
  fold text1 text2.
  assert (Hcut : ∀ text s0,
    (if bool_decide (sizeof_cmi_text ≤ length text)%nat
     then supervisor.emit (SupLogDebug "main_showinfo_ctl: I was cut off!")
     else mret ()) s0 = (Done () s0, cut text)).
  { intros text s0. unfold cut. by case_bool_decide. }
  assert (Hsay : ∀ text s0,
    ((if bool_decide (sizeof_cmi_text ≤ length text)%nat
      then supervisor.emit (SupLogDebug "main_showinfo_ctl: I was cut off!")
      else mret ());;
     dispatch.main_imsg_compose_frontend imsg_compose_ret iev_frontend io
       IMSG_CTL_SHOW_MAIN_INFO pid (CtlData (strlcpy text sizeof_cmi_text))) s0
    = if iev_frontend then
        (Done () {| sup_heap := sup_heap s0; composed := S (composed s0) |},
         cut text
         ++ reply imsg_compose_ret (w_queued io) (composed s0)
              IMSG_CTL_SHOW_MAIN_INFO pid
              (CtlData (strlcpy text sizeof_cmi_text)))
      else (Done () s0, cut text)).
  { intros text s0.
    rewrite (sup_bind_done _ _ _ _ _ _ (Hcut text s0)).
    rewrite main_imsg_compose_frontend_run.
    destruct iev_frontend; cbn [fst snd]; by rewrite ?app_nil_r. }
  destruct iev_frontend.
  - rewrite (sup_bind_done _ _ _ _ _ _ (Hsay text1 s)).
    rewrite (sup_bind_done _ _ _ _ _ _ (Hsay text2 _)).
    rewrite main_imsg_compose_frontend_run. cbn [fst snd composed sup_heap].
    by rewrite <- !app_assoc.
  - rewrite (sup_bind_done _ _ _ _ _ _ (Hsay text1 s)).
    rewrite (sup_bind_done _ _ _ _ _ _ (Hsay text2 _)).
    rewrite main_imsg_compose_frontend_run. cbn [fst snd].
    by rewrite !app_nil_r.
Qed.










(** *** Channel events *)




(** ** Further properties of the handlers *)



(** X14: asked to show the main info, [main_showinfo_ctl] composes for
    the frontend, when [iev_frontend] is set, two messages of type
    [IMSG_CTL_SHOW_MAIN_INFO] and then one of type [IMSG_CTL_END]
    without data, all three for the process that asked; it goes on to
    the next message whether or not a call of [imsg_compose] fails, and
    after each call that succeeds the channel is registered again.  The
    data of each of the two is a text member of [sizeof_cmi_text] bytes:
    the text and NULs behind it when the text is shorter than the
    member, and else the first bytes of the text with one NUL behind
    them, in which case, and only then, the cut is logged.  When
    [iev_frontend] is not set nothing is composed.  For every other
    type the function logs an error and composes nothing. *)
Theorem main_showinfo_ctl_reply (sizeof_cmi_text : nat)
    (imsg_compose_ret : nat → Z) (iev_frontend : bool) (io : channel_io)
    (type : imsg_type) (pid : Z) (s : sup_state) :
  (0 < sizeof_cmi_text)%nat →
  let text1 := bytes_of_string "I'm a little teapot." in
  let text2 := bytes_of_string "Full of sencha." in
  let cut (text : list byte) :=
    if bool_decide (sizeof_cmi_text ≤ length text)%nat
    then [SupLogDebug "main_showinfo_ctl: I was cut off!"] else [] in
  let member (text : list byte) :=
    if bool_decide (sizeof_cmi_text ≤ length text)%nat
    then take (sizeof_cmi_text - 1) text ++ [x00]
    else text ++ replicate (sizeof_cmi_text - length text) x00 in
  let k := composed s in
  let send := reply imsg_compose_ret (w_queued io) in
  dispatch.main_showinfo_ctl sizeof_cmi_text imsg_compose_ret iev_frontend io
    IMSG_CTL_SHOW_MAIN_INFO pid s
  = (if iev_frontend then
       (Done () {| sup_heap := sup_heap s; composed := S (S (S k)) |},
        cut text1
        ++ send k IMSG_CTL_SHOW_MAIN_INFO pid (CtlData (member text1))
        ++ cut text2
        ++ send (S k) IMSG_CTL_SHOW_MAIN_INFO pid (CtlData (member text2))
        ++ send (S (S k)) IMSG_CTL_END pid NoData)
     else (Done () s, cut text1 ++ cut text2))
  ∧ length (member text1) = sizeof_cmi_text
  ∧ length (member text2) = sizeof_cmi_text
  ∧ (type ≠ IMSG_CTL_SHOW_MAIN_INFO →
     dispatch.main_showinfo_ctl sizeof_cmi_text imsg_compose_ret iev_frontend
       io type pid s
     = (Done () s, [SupLogDebug "main_showinfo_ctl: error handling imsg"])).
Proof.
  intros Hsize text1 text2 cut member k send.
  assert (Hmember : ∀ text, strlcpy text sizeof_cmi_text = member text).
  { intros text. unfold member. case_bool_decide.
    - apply strlcpy_cut. lia.
    - apply strlcpy_fits. lia. }
  split_and!.
  - rewrite main_showinfo_ctl_run. fold text1 text2.
    by rewrite !Hmember.
  - by rewrite <- Hmember, length_strlcpy.
  - by rewrite <- Hmember, length_strlcpy.
  - intros Hty. by destruct type.
Qed.

Lemma main_showinfo_ctl_reply_witness :
  dispatch.main_showinfo_ctl 16 second_fails true would_block
    IMSG_CTL_SHOW_MAIN_INFO 77 running_sup
  = (Done () {| sup_heap := running_heap; composed := 3 |},
     [SupLogDebug "main_showinfo_ctl: I was cut off!";
      SupCompose PROC_FRONTEND IMSG_CTL_SHOW_MAIN_INFO 0 77 (-1)
        (CtlData (bytes_of_string "I'm a little te" ++ [x00]));
      LibeventDel PROC_FRONTEND;
      LibeventSet PROC_FRONTEND (Z.lor EV_READ EV_WRITE);
      LibeventAdd PROC_FRONTEND;
      SupCompose PROC_FRONTEND IMSG_CTL_SHOW_MAIN_INFO 0 77 (-1)
        (CtlData (bytes_of_string "Full of sencha." ++ [x00]));
      SupCompose PROC_FRONTEND IMSG_CTL_END 0 77 (-1) NoData;
      LibeventDel PROC_FRONTEND;
      LibeventSet PROC_FRONTEND (Z.lor EV_READ EV_WRITE);
      LibeventAdd PROC_FRONTEND]).
Proof.
  exact (proj1 (main_showinfo_ctl_reply 16 second_fails true would_block
                  IMSG_CTL_SHOW_MAIN_INFO 77 running_sup ltac:(lia))).
Defined.
